(** * layoutparser.elements: coordinate elements and their geometry

    A shallow embedding of [src/layoutparser/elements.py].

    Numbers.  Python numbers (ints and floats) are embedded as exact
    rationals [Q]; Python's numeric [==], [<=] are [Qeq_bool], [Qle_bool].
    Rounding of floating-point arithmetic and the non-finite values (inf,
    nan) are outside the embedding: what is proved of sums and products
    holds in exact arithmetic, as on integers.  Whether a number is an int
    or a float is kept where a result depends on it, which is the dtype that
    [np.vectorize] picks in [Quadrilateral.map_to_points_ordering].

    Effects.  A call either returns a value together with the warnings it
    emitted through [warnings.warn], or raises an exception: the [outcome]
    monad below. *)

From Stdlib Require Import String QArith Qabs Qminmax Lqa Lia Bool Arith ZArith List.
Import ListNotations.
Open Scope Q_scope.

(** ** Exceptions, warnings and the outcome monad *)

Inductive exn : Type :=
| AssertionError      (* a failed [assert] *)
| InvalidInputType    (* [raise Exception(f"Invalid input type ...")] *)
| NotImplementedError (* [Interval.put_on_canvas] on an unknown canvas *)
| AttributeError      (* a method looked up on a value that has none *)
| IndexError          (* a sequence indexed out of range *)
| TypeError           (* arithmetic on [None] *)
| ValueError          (* [min]/[max] of an empty array, shape mismatch *)
| LinAlgError.        (* [np.linalg.inv] of a singular matrix *)

(** The axis of an interval, ['x'] or ['y']. *)
Inductive axis_t : Type := AxisX | AxisY.

Inductive warning : Type :=
| InvalidPaddingTopBottom          (* "Invalid padding top/bottom for an x axis ..." *)
| InvalidPaddingRightLeft          (* "Invalid padding right/left for a y axis ..." *)
| ShiftMultipleAxes (a : axis_t)    (* "Input shift for multiple axes. ..." *)
| ScaleMultipleAxes (a : axis_t).    (* "Input scale for multiple axes. ..." *)

Inductive outcome (A : Type) : Type :=
| Returns (a : A) (ws : list warning)
| Raises (e : exn).
Arguments Returns {A} a ws.
Arguments Raises {A} e.

Definition ret {A} (a : A) : outcome A := Returns a [].

Definition bind {A B} (m : outcome A) (f : A -> outcome B) : outcome B :=
  match m with
  | Returns a ws =>
      match f a with
      | Returns b ws' => Returns b (ws ++ ws')
      | Raises e => Raises e
      end
  | Raises e => Raises e
  end.

Notation "x <- m ;; k" := (bind m (fun x => k))
  (at level 61, m at next level, right associativity).
Notation "m ;;; k" := (bind m (fun _ => k))
  (at level 61, right associativity).

Definition raise {A} (e : exn) : outcome A := Raises e.
Definition warn (w : warning) : outcome unit := Returns tt [w].
Definition py_assert (b : bool) : outcome unit :=
  if b then ret tt else raise AssertionError.

(** The value a call returns, when it returns. *)
Definition returned {A} (m : outcome A) : option A :=
  match m with Returns a _ => Some a | Raises _ => None end.

(** The warnings a call emitted, when it returns. *)
Definition warnings {A} (m : outcome A) : list warning :=
  match m with Returns _ ws => ws | Raises _ => [] end.

Fixpoint mapM {A B} (f : A -> outcome B) (l : list A) : outcome (list B) :=
  match l with
  | [] => ret []
  | x :: l' => y <- f x ;; ys <- mapM f l' ;; ret (y :: ys)
  end.

(** ** Numbers *)

Definition Qlt_bool (a b : Q) : bool := negb (Qle_bool b a).

(** Python's [max(0, v)]: the first argument is kept unless the second is
    strictly larger. *)
Definition py_max0 (v : Q) : Q := if Qlt_bool 0 v then v else 0.

(** Truth value of a number: [if v:] holds when [v] is not zero. *)
Definition truthy (v : Q) : bool := negb (Qeq_bool v 0).

(** [a <= b <= c] and [a <= b <= c <= d], Python's chained comparisons. *)
Definition chain3 (a b c : Q) : bool := Qle_bool a b && Qle_bool b c.
Definition chain4 (a b c d : Q) : bool :=
  Qle_bool a b && Qle_bool b c && Qle_bool c d.

(** [int(v)]: truncation towards zero. *)
Definition py_int (v : Q) : Z := Z.quot (Qnum v) (Z.pos (Qden v)).

(** A value cast to an integer dtype, and the values the cast leaves alone. *)
Definition as_int (v : Q) : Q := inject_Z (py_int v).
Definition is_whole (v : Q) : bool := Qeq_bool (as_int v) v.

(** Whether a number is a Python [int]: a number with a fractional part is
    a float; a whole number is an int unless it was written as a float
    ([2.0]). *)
Definition is_int (v : Q) (as_float : bool) : bool := negb as_float && is_whole v.

(** [np.isclose(a, b)] with numpy's defaults rtol=1e-05, atol=1e-08:
    [|a - b| <= atol + rtol * |b|]. *)
Definition rtol : Q := 1 # 100000.
Definition atol : Q := 1 # 100000000.
Definition isclose (a b : Q) : bool :=
  Qle_bool (Qabs (a - b)) (atol + rtol * Qabs b).

(** ** Arrays *)

Definition point : Type := (Q * Q)%type.
(** An n x 2 numpy array, one row per point. *)
Definition points : Type := list point.

Definition point_eq (p q : point) : Prop := fst p == fst q /\ snd p == snd q.
Definition points_eq (ps qs : points) : Prop := Forall2 point_eq ps qs.

Definition column0 (ps : points) : list Q := map fst ps.
Definition column1 (ps : points) : list Q := map snd ps.

(** [a.min()] and [a.max()]; numpy raises ValueError on an empty array. *)
Definition np_min (l : list Q) : outcome Q :=
  match l with
  | [] => raise ValueError
  | x :: l' => ret (fold_left (fun m y => if Qlt_bool y m then y else m) l' x)
  end.
Definition np_max (l : list Q) : outcome Q :=
  match l with
  | [] => raise ValueError
  | x :: l' => ret (fold_left (fun m y => if Qlt_bool m y then y else m) l' x)
  end.

(** ** Geometry kernel *)

Definition _cvt_coordinates_to_points (coords : Q * Q * Q * Q) : points :=
  let '(x_1, y_1, x_2, y_2) := coords in
  [ (x_1, y_1);   (* Top Left *)
    (x_2, y_1);   (* Top Right *)
    (x_2, y_2);   (* Bottom Right *)
    (x_1, y_2) ]. (* Bottom Left *)

Definition _cvt_points_to_coordinates (ps : points) : outcome (Q * Q * Q * Q) :=
  x_1 <- np_min (column0 ps) ;;
  y_1 <- np_min (column1 ps) ;;
  x_2 <- np_max (column0 ps) ;;
  y_2 <- np_max (column1 ps) ;;
  ret (x_1, y_1, x_2, y_2).

(** A 3 x 3 matrix, as [cv2.getPerspectiveTransform] returns it. *)
Record matrix3 : Type := Matrix3 {
  m00 : Q; m01 : Q; m02 : Q;
  m10 : Q; m11 : Q; m12 : Q;
  m20 : Q; m21 : Q; m22 : Q }.

Definition matrix : Type := list (list Q).

Definition rows3 (M : matrix3) : matrix :=
  [ [m00 M; m01 M; m02 M];
    [m10 M; m11 M; m12 M];
    [m20 M; m21 M; m22 M] ].

Definition det3 (M : matrix3) : Q :=
    m00 M * (m11 M * m22 M - m12 M * m21 M)
  - m01 M * (m10 M * m22 M - m12 M * m20 M)
  + m02 M * (m10 M * m21 M - m11 M * m20 M).

(** The adjugate of [M] over its determinant. *)
Definition inverse3 (M : matrix3) : matrix3 :=
  let d := det3 M in
  Matrix3
    ((m11 M * m22 M - m12 M * m21 M) / d)
    ((m02 M * m21 M - m01 M * m22 M) / d)
    ((m01 M * m12 M - m02 M * m11 M) / d)
    ((m12 M * m20 M - m10 M * m22 M) / d)
    ((m00 M * m22 M - m02 M * m20 M) / d)
    ((m02 M * m10 M - m00 M * m12 M) / d)
    ((m10 M * m21 M - m11 M * m20 M) / d)
    ((m01 M * m20 M - m00 M * m21 M) / d)
    ((m00 M * m11 M - m01 M * m10 M) / d).

(** [np.linalg.inv] on a 3 x 3 matrix, a routine of numpy, by its
    mathematical definition; a singular matrix raises LinAlgError. *)
Definition linalg_inv (M : matrix3) : outcome matrix3 :=
  if Qeq_bool (det3 M) 0 then raise LinAlgError else ret (inverse3 M).

(** Column [j] of a matrix given by rows, and the transpose of a matrix
    with [ncols] columns ([a.T]). *)
Definition column (j : nat) (a : matrix) : list Q := map (fun r => nth j r 0) a.
Definition transpose (ncols : nat) (a : matrix) : matrix :=
  map (fun j => column j a) (seq 0 ncols).

Fixpoint dot (u v : list Q) : Q :=
  match u, v with
  | x :: u', y :: v' => x * y + dot u' v'
  | _, _ => 0
  end.

(** [np.matmul(a, b)] where [b] has [ncols] columns. *)
Definition matmul (a b : matrix) (ncols : nat) : matrix :=
  map (fun r => map (fun j => dot r (column j b)) (seq 0 ncols)) a.

Fixpoint zip_with {A B C} (f : A -> B -> C) (l : list A) (l' : list B) : list C :=
  match l, l' with
  | x :: t, y :: t' => f x y :: zip_with f t t'
  | _, _ => []
  end.

(** [_perspective_transformation(M, points, is_inv)].  Where the homogeneous
    component is 0 numpy yields inf or nan; [Qdiv] yields 0 there, and the
    results below on transformed points assume a non-zero component. *)
Definition _perspective_transformation
    (M : matrix3) (ps : points) (is_inv : bool) : outcome points :=
  M <- (if is_inv then linalg_inv M else ret M) ;;
  let n := List.length ps in
  (* np.hstack([points, np.ones((n, 1))]).T, a 3 x n matrix *)
  let src_mid := transpose 3 (map (fun p => [fst p; snd p; 1]) ps) in
  let dst_mid := matmul (rows3 M) src_mid n in
  (* dst_mid / dst_mid[-1]: every row divided by the last one *)
  let quotient := map (fun r => zip_with Qdiv r (last dst_mid [])) dst_mid in
  (* .T[:, :2] *)
  ret (map (fun r => (nth 0 r 0, nth 1 r 0)) (transpose n quotient)).

(** The determinant of the 2 x 2 matrix with rows [e1], [e2]. *)
Definition det2 (e1 e2 : point) : Q := fst e1 * snd e2 - snd e1 * fst e2.

Definition _vertice_in_polygon (vertice : point) (polygon_points : points) : bool :=
  (* shift the coordinates origin to the vertice *)
  let pts := map (fun p => (fst p - fst vertice, snd p - snd vertice)) polygon_points in
  let edges := pts ++ firstn 1 pts in
  forallb (fun e => Qle_bool 0 (det2 (fst e) (snd e))) (combine edges (tl edges)).

(** ** Elements *)

Record Interval : Type := mkInterval {
  start : Q;
  end_ : Q;
  axis : axis_t;
  canvas_height : Q;
  canvas_width : Q }.

Record Rectangle : Type := mkRectangle {
  x_1 : Q;
  y_1 : Q;
  x_2 : Q;
  y_2 : Q }.

(** [_height] and [_width] are [None] unless the caller supplied them. *)
Record Quadrilateral : Type := mkQuadrilateral {
  _points : points;
  _height : option Q;
  _width : option Q }.

(** The three [BaseCoordElement] classes. *)
Inductive coord : Type :=
| CInterval (i : Interval)
| CRectangle (r : Rectangle)
| CQuadrilateral (q : Quadrilateral).

Record TextBlock : Type := mkTextBlock {
  block : coord;
  text : string;
  id : option Z;
  type : option Z;
  parent : option Z;
  next : option Z;
  score : option Q }.

(** A Python value handed to an operation as [other] or held in a [Layout]:
    a coordinate element, a text block, or a value of some other class. *)
Inductive pyvalue : Type :=
| VCoord (c : coord)
| VTextBlock (t : TextBlock)
| VOther (class_name : string).

(** The keyword arguments of [pad].  The last four fields tell of each
    amount whether it was given as a float; they matter for a whole amount
    only (see [is_int]), and only to [Quadrilateral.pad]. *)
Record pad_kwargs : Type := mkPadKw {
  left : Q;
  right : Q;
  top : Q;
  bottom : Q;
  safe_mode : bool;
  left_float : bool;
  right_float : bool;
  top_float : bool;
  bottom_float : bool }.

(** Keyword arguments whose whole amounts are ints, as in [pad(left=5)]. *)
Notation mkPad l r t b s := (mkPadKw l r t b s false false false false).

(** The defaults [left=0, right=0, top=0, bottom=0, safe_mode=True]. *)
Definition pad_defaults : pad_kwargs := mkPad 0 0 0 0 true.

(** A numeric argument of [shift] and [scale]: a number or an iterable. *)
Inductive numeric_arg : Type :=
| Scalar (v : Q)
| Iterable (v : list Q).

Definition axis_eqb (a b : axis_t) : bool :=
  match a, b with
  | AxisX, AxisX | AxisY, AxisY => true
  | _, _ => false
  end.

(** [@support_textblock]: a text block given as [other] is replaced by its
    block. *)
Definition support_textblock (other : pyvalue) : pyvalue :=
  match other with
  | VTextBlock t => VCoord (block t)
  | _ => other
  end.

(** *** Interval: construction, properties, edits *)

Definition Interval_init (start end_ : Q) (axis : axis_t)
    (canvas_height canvas_width : Q) : outcome Interval :=
  py_assert (Qle_bool start end_) ;;;
  ret (mkInterval start end_ axis canvas_height canvas_width).

Definition Interval_height (self : Interval) : Q :=
  match axis self with
  | AxisX => canvas_height self
  | AxisY => end_ self - start self
  end.

Definition Interval_width (self : Interval) : Q :=
  match axis self with
  | AxisY => canvas_width self
  | AxisX => end_ self - start self
  end.

Definition Interval_coordinates (self : Interval) : Q * Q * Q * Q :=
  match axis self with
  | AxisX => (start self, 0, end_ self, canvas_height self)
  | AxisY => (0, start self, canvas_width self, end_ self)
  end.

Definition Interval_points (self : Interval) : points :=
  _cvt_coordinates_to_points (Interval_coordinates self).

Definition Interval_center (self : Interval) : Q :=
  (start self + end_ self) / 2.

(** [self.set(start=..., end=...)]: a copy with the two fields replaced; no
    assertion is checked. *)
Definition Interval_set_start_end (self : Interval) (s e : Q) : Interval :=
  mkInterval s e (axis self) (canvas_height self) (canvas_width self).

Definition Interval_set_canvas (self : Interval) (h w : Q) : Interval :=
  mkInterval (start self) (end_ self) (axis self) h w.

(** [BaseLayoutElement.__eq__] on two intervals: [vars(self) == vars(other)]. *)
Definition Interval_eq (self other : Interval) : bool :=
  Qeq_bool (start self) (start other) &&
  Qeq_bool (end_ self) (end_ other) &&
  axis_eqb (axis self) (axis other) &&
  Qeq_bool (canvas_height self) (canvas_height other) &&
  Qeq_bool (canvas_width self) (canvas_width other).

Definition Interval_pad (self : Interval) (k : pad_kwargs) : outcome Interval :=
  se <- match axis self with
        | AxisX =>
            (if truthy (top k) || truthy (bottom k)
             then warn InvalidPaddingTopBottom else ret tt) ;;;
            ret (start self - left k, end_ self + right k)
        | AxisY =>
            (if truthy (left k) || truthy (right k)
             then warn InvalidPaddingRightLeft else ret tt) ;;;
            ret (start self - top k, end_ self + bottom k)
        end ;;
  let s := if safe_mode k then py_max0 (fst se) else fst se in
  ret (Interval_set_start_end self s (snd se)).

(** [shift_distance[0] if self.axis == 'x' else shift_distance[1]] *)
Definition axis_component (a : axis_t) (v : list Q) : outcome Q :=
  match nth_error v (match a with AxisX => 0%nat | AxisY => 1%nat end) with
  | Some c => ret c
  | None => raise IndexError
  end.

Definition Interval_shift (self : Interval) (shift_distance : numeric_arg)
  : outcome Interval :=
  d <- match shift_distance with
       | Iterable v =>
           c <- axis_component (axis self) v ;;
           warn (ShiftMultipleAxes (axis self)) ;;;
           ret c
       | Scalar d => ret d
       end ;;
  ret (Interval_set_start_end self (start self + d) (end_ self + d)).

Definition Interval_scale (self : Interval) (scale_factor : numeric_arg)
  : outcome Interval :=
  f <- match scale_factor with
       | Iterable v =>
           c <- axis_component (axis self) v ;;
           warn (ScaleMultipleAxes (axis self)) ;;;
           ret c
       | Scalar f => ret f
       end ;;
  ret (Interval_set_start_end self (start self * f) (end_ self * f)).

(** *** Rectangle: properties, edits *)

Definition Rectangle_height (self : Rectangle) : Q := y_2 self - y_1 self.
Definition Rectangle_width (self : Rectangle) : Q := x_2 self - x_1 self.

Definition Rectangle_coordinates (self : Rectangle) : Q * Q * Q * Q :=
  (x_1 self, y_1 self, x_2 self, y_2 self).

Definition Rectangle_points (self : Rectangle) : points :=
  _cvt_coordinates_to_points (Rectangle_coordinates self).

Definition Rectangle_center (self : Rectangle) : point :=
  ((x_1 self + x_2 self) / 2, (y_1 self + y_2 self) / 2).

Definition Rectangle_eq (self other : Rectangle) : bool :=
  Qeq_bool (x_1 self) (x_1 other) &&
  Qeq_bool (y_1 self) (y_1 other) &&
  Qeq_bool (x_2 self) (x_2 other) &&
  Qeq_bool (y_2 self) (y_2 other).

Definition Rectangle_pad (self : Rectangle) (k : pad_kwargs) : outcome Rectangle :=
  let x1 := x_1 self - left k in
  let y1 := y_1 self - top k in
  let x2 := x_2 self + right k in
  let y2 := y_2 self + bottom k in
  let x1 := if safe_mode k then py_max0 x1 else x1 in
  let y1 := if safe_mode k then py_max0 y1 else y1 in
  ret (mkRectangle x1 y1 x2 y2).

(** The x and y components of a [shift]/[scale] argument of a rectangle or a
    quadrilateral: a number serves both, an iterable must have length 2. *)
Definition xy_components (a : numeric_arg) : outcome (Q * Q) :=
  match a with
  | Scalar d => ret (d, d)
  | Iterable v =>
      py_assert (Nat.eqb (List.length v) 2) ;;;
      match v with
      | [x; y] => ret (x, y)
      | _ => raise ValueError
      end
  end.

Definition Rectangle_shift (self : Rectangle) (shift_distance : numeric_arg)
  : outcome Rectangle :=
  s <- xy_components shift_distance ;;
  let (shift_x, shift_y) := s in
  ret (mkRectangle (x_1 self + shift_x) (y_1 self + shift_y)
                   (x_2 self + shift_x) (y_2 self + shift_y)).

Definition Rectangle_scale (self : Rectangle) (scale_factor : numeric_arg)
  : outcome Rectangle :=
  s <- xy_components scale_factor ;;
  let (scale_x, scale_y) := s in
  ret (mkRectangle (x_1 self * scale_x) (y_1 self * scale_y)
                   (x_2 self * scale_x) (y_2 self * scale_y)).

Definition Rectangle_to_interval (self : Rectangle) (a : axis_t) : outcome Interval :=
  match a with
  | AxisX => Interval_init (x_1 self) (x_2 self) a 0 0
  | AxisY => Interval_init (y_1 self) (y_2 self) a 0 0
  end.

Definition Interval_to_rectangle (self : Interval) : Rectangle :=
  let '(a, b, c, d) := Interval_coordinates self in mkRectangle a b c d.

(** *** Quadrilateral: properties, edits *)

(** [a.argsort()] of a one-dimensional array.  For the short arrays at hand
    numpy's default sort is an insertion sort, which is stable: the indices
    of equal keys keep their order. *)
Fixpoint insert_index {A} (leb : A -> A -> bool) (x : nat * A)
    (l : list (nat * A)) : list (nat * A) :=
  match l with
  | [] => [x]
  | y :: l' =>
      if leb (snd y) (snd x) then y :: insert_index leb x l' else x :: l
  end.

Definition argsort {A} (leb : A -> A -> bool) (l : list A) : list nat :=
  map fst
    (fold_left (fun acc x => insert_index leb x acc)
               (combine (seq 0 (List.length l)) l) []).

(** [a.argsort(axis=0).argsort(axis=0)] on one column: the rank of every
    entry among the entries of the column. *)
Definition ranks (l : list Q) : list nat :=
  argsort Nat.leb (argsort Qle_bool l).

(** The [get] method of the dictionary [{0: v0, 1: v1, 2: v2, 3: v3}]. *)
Definition dict4_get (v0 v1 v2 v3 : Q) (k : nat) : option Q :=
  match k with
  | 0%nat => Some v0
  | 1%nat => Some v1
  | 2%nat => Some v2
  | 3%nat => Some v3
  | _ => None
  end.

(** A [None] in the looked-up column cannot enter the arithmetic that follows. *)
Definition lookup_all (get : nat -> option Q) (ks : list nat) : outcome (list Q) :=
  mapM (fun k => match get k with Some v => ret v | None => raise TypeError end) ks.

Definition Quadrilateral_points (self : Quadrilateral) : points := _points self.

Definition Quadrilateral_height (self : Quadrilateral) : outcome Q :=
  match _height self with
  | Some h => ret h
  | None =>
      hi <- np_max (column1 (Quadrilateral_points self)) ;;
      lo <- np_min (column1 (Quadrilateral_points self)) ;;
      ret (hi - lo)
  end.

Definition Quadrilateral_width (self : Quadrilateral) : outcome Q :=
  match _width self with
  | Some w => ret w
  | None =>
      hi <- np_max (column0 (Quadrilateral_points self)) ;;
      lo <- np_min (column0 (Quadrilateral_points self)) ;;
      ret (hi - lo)
  end.

Definition Quadrilateral_coordinates (self : Quadrilateral) : outcome (Q * Q * Q * Q) :=
  _cvt_points_to_coordinates (Quadrilateral_points self).

Definition Qsum (l : list Q) : Q := fold_left Qplus l 0.

(** [tuple(self.points.mean(axis=0).tolist())] *)
Definition Quadrilateral_center (self : Quadrilateral) : point :=
  let ps := Quadrilateral_points self in
  let n := inject_Z (Z.of_nat (List.length ps)) in
  (Qsum (column0 ps) / n, Qsum (column1 ps) / n).

(** [np.vectorize(d.get)(ks)], where [get] gives the values of the
    dictionary [d] and [int_key] tells which of its keys hold a Python int.
    No [otypes] are given, so numpy takes the dtype of the result from the
    value looked up for the first key (an empty [ks] is a ValueError): when
    that value is an int, every value looked up is cast to an integer. *)
Definition np_vectorize_get (get : nat -> option Q) (int_key : nat -> bool)
    (ks : list nat) : outcome (list Q) :=
  match ks with
  | [] => raise ValueError
  | k :: _ =>
      vs <- lookup_all get ks ;;
      ret (if int_key k then map as_int vs else vs)
  end.

Definition Quadrilateral_map_to_points_ordering (self : Quadrilateral)
    (x_map : nat -> option Q) (x_int : nat -> bool)
    (y_map : nat -> option Q) (y_int : nat -> bool) : outcome points :=
  let ps := Quadrilateral_points self in
  xs <- np_vectorize_get x_map x_int (ranks (column0 ps)) ;;
  ys <- np_vectorize_get y_map y_int (ranks (column1 ps)) ;;
  ret (combine xs ys).

(** The keys 0 and 1 of a dictionary [{0: a, 1: a, 2: b, 3: b}]. *)
Definition low_key (k : nat) : bool := Nat.ltb k 2.

(** In [{0: 0, 1: 0, 2: self.width, 3: self.width}] the zeros are ints.
    The width has the dtype of the point array, or is the number given to
    the constructor; it is taken for a float, which loses nothing: were it
    an int, the dictionary would hold ints only, and the cast to an integer
    dtype leaves them as they are. *)
Definition Quadrilateral_mapped_rectangle_points (self : Quadrilateral)
  : outcome points :=
  w <- Quadrilateral_width self ;;
  h <- Quadrilateral_height self ;;
  Quadrilateral_map_to_points_ordering self
    (dict4_get 0 0 w w) low_key (dict4_get 0 0 h h) low_key.

(** [self.set(points=points)] *)
Definition Quadrilateral_set_points (self : Quadrilateral) (ps : points) : Quadrilateral :=
  mkQuadrilateral ps (_height self) (_width self).

Definition point_add (p d : point) : point := (fst p + fst d, snd p + snd d).
Definition point_mul (p d : point) : point := (fst p * fst d, snd p * snd d).

(** [np.maximum(v, 0)] *)
Definition np_maximum0 (v : Q) : Q := if Qlt_bool v 0 then 0 else v.

Definition Quadrilateral_pad (self : Quadrilateral) (k : pad_kwargs)
  : outcome Quadrilateral :=
  padding_mat <- Quadrilateral_map_to_points_ordering self
                   (dict4_get (- left k) (- left k) (right k) (right k))
                   (fun key => if low_key key then is_int (left k) (left_float k)
                               else is_int (right k) (right_float k))
                   (dict4_get (- top k) (- top k) (bottom k) (bottom k))
                   (fun key => if low_key key then is_int (top k) (top_float k)
                               else is_int (bottom k) (bottom_float k)) ;;
  let ps := zip_with point_add (Quadrilateral_points self) padding_mat in
  let ps := if safe_mode k
            then map (fun p => (np_maximum0 (fst p), np_maximum0 (snd p))) ps
            else ps in
  ret (Quadrilateral_set_points self ps).

Definition Quadrilateral_shift (self : Quadrilateral) (shift_distance : numeric_arg)
  : outcome Quadrilateral :=
  shift_mat <- xy_components shift_distance ;;
  ret (Quadrilateral_set_points self
         (map (fun p => point_add p shift_mat) (Quadrilateral_points self))).

Definition Quadrilateral_scale (self : Quadrilateral) (scale_factor : numeric_arg)
  : outcome Quadrilateral :=
  scale_mat <- xy_components scale_factor ;;
  ret (Quadrilateral_set_points self
         (map (fun p => point_mul p scale_mat) (Quadrilateral_points self))).

Definition Quadrilateral_to_interval (self : Quadrilateral) (a : axis_t)
  : outcome Interval :=
  c <- Quadrilateral_coordinates self ;;
  let '(x1, y1, x2, y2) := c in
  match a with
  | AxisX => Interval_init x1 x2 a 0 0
  | AxisY => Interval_init y1 y2 a 0 0
  end.

Definition Interval_to_quadrilateral (self : Interval) : Quadrilateral :=
  mkQuadrilateral (Interval_points self) None None.

Definition Rectangle_to_quadrilateral (self : Rectangle) : Quadrilateral :=
  mkQuadrilateral (Rectangle_points self) None None.

(** [np.isclose(a, b).all()] on two n x 2 arrays: an array of one row is
    broadcast against the rows of the other; other arrays of different row
    counts do not broadcast, which is a ValueError. *)
Definition allclose (a b : points) : outcome bool :=
  let close (pq : point * point) :=
    isclose (fst (fst pq)) (fst (snd pq)) && isclose (snd (fst pq)) (snd (snd pq)) in
  if Nat.eqb (List.length a) (List.length b)
  then ret (forallb close (combine a b))
  else match a, b with
       | [p], _ => ret (forallb (fun q => close (p, q)) b)
       | _, [q] => ret (forallb (fun p => close (p, q)) a)
       | _, _ => raise ValueError
       end.

(** *** Dispatch on the class of an element *)

Definition coord_height (c : coord) : outcome Q :=
  match c with
  | CInterval i => ret (Interval_height i)
  | CRectangle r => ret (Rectangle_height r)
  | CQuadrilateral q => Quadrilateral_height q
  end.

Definition coord_width (c : coord) : outcome Q :=
  match c with
  | CInterval i => ret (Interval_width i)
  | CRectangle r => ret (Rectangle_width r)
  | CQuadrilateral q => Quadrilateral_width q
  end.

Definition coord_pad (c : coord) (k : pad_kwargs) : outcome coord :=
  match c with
  | CInterval i => i' <- Interval_pad i k ;; ret (CInterval i')
  | CRectangle r => r' <- Rectangle_pad r k ;; ret (CRectangle r')
  | CQuadrilateral q => q' <- Quadrilateral_pad q k ;; ret (CQuadrilateral q')
  end.

(** [other.pad] with the soft margin as keyword arguments, on the [other]
    that [@support_textblock] hands over: a value that is not an element has
    no [pad]. *)
Definition other_pad (other : pyvalue) (k : pad_kwargs) : outcome coord :=
  match support_textblock other with
  | VCoord c => coord_pad c k
  | _ => raise AttributeError
  end.

(** *** Equality *)

(** [Quadrilateral.__eq__(self, other)] *)
Definition Quadrilateral_eq (self : Quadrilateral) (other : pyvalue) : outcome bool :=
  match other with
  | VCoord (CQuadrilateral o) =>
      allclose (Quadrilateral_points self) (Quadrilateral_points o)
  | _ => ret false
  end.

(** [BaseLayoutElement.__eq__(self, other)] on an interval and a rectangle. *)
Definition Interval_eq_value (self : Interval) (other : pyvalue) : outcome bool :=
  match other with
  | VCoord (CInterval o) => ret (Interval_eq self o)
  | _ => ret false
  end.

Definition Rectangle_eq_value (self : Rectangle) (other : pyvalue) : outcome bool :=
  match other with
  | VCoord (CRectangle o) => ret (Rectangle_eq self o)
  | _ => ret false
  end.

(** [a == b] for two coordinate elements: the [__eq__] of [a]'s class. *)
Definition coord_eq (a b : coord) : outcome bool :=
  match a with
  | CInterval i => Interval_eq_value i (VCoord b)
  | CRectangle r => Rectangle_eq_value r (VCoord b)
  | CQuadrilateral q => Quadrilateral_eq q (VCoord b)
  end.

(** *** Containment: [is_in] *)

Definition coord_coordinates (c : coord) : outcome (Q * Q * Q * Q) :=
  match c with
  | CInterval i => ret (Interval_coordinates i)
  | CRectangle r => ret (Rectangle_coordinates r)
  | CQuadrilateral q => Quadrilateral_coordinates q
  end.

Definition Interval_is_in (self : Interval) (other : pyvalue)
    (soft_margin : pad_kwargs) (center : bool) : outcome bool :=
  other <- other_pad other soft_margin ;;
  match other with
  | CInterval other =>
      if negb (axis_eqb (axis self) (axis other)) then ret false
      else if negb center
           then ret (chain4 (start other) (start self) (end_ self) (end_ other))
           else ret (chain3 (start other) (Interval_center self) (end_ other))
  | CRectangle _ | CQuadrilateral _ =>
      c <- coord_coordinates other ;;
      let '(x1, y1, x2, y2) := c in
      if center
      then match axis self with
           | AxisX => ret (chain3 x1 (Interval_center self) x2)
           | AxisY => ret (chain3 y1 (Interval_center self) y2)
           end
      else match axis self with
           | AxisX => ret (chain4 x1 (start self) (end_ self) x2)
           | AxisY => ret (chain4 y1 (start self) (end_ self) y2)
           end
  end.

(** The branch of [Rectangle.is_in] for an interval [other], already padded. *)
Definition Rectangle_in_interval (self : Rectangle) (other : Interval)
    (center : bool) : bool :=
  if negb center
  then let (s, e) := match axis other with
                     | AxisX => (x_1 self, x_2 self)
                     | AxisY => (y_1 self, y_2 self)
                     end in
       chain4 (start other) s e (end_ other)
  else let c := match axis other with
                | AxisX => fst (Rectangle_center self)
                | AxisY => snd (Rectangle_center self)
                end in
       chain3 (start other) c (end_ other).

(** [self.is_in(other, soft_margin, center)] for an interval [other]: the
    call [Rectangle.is_in] makes on the two intervals of a rectangle. *)
Definition Rectangle_is_in_Interval (self : Rectangle) (other : Interval)
    (soft_margin : pad_kwargs) (center : bool) : outcome bool :=
  other <- Interval_pad other soft_margin ;;
  ret (Rectangle_in_interval self other center).

Definition Rectangle_is_in (self : Rectangle) (other : pyvalue)
    (soft_margin : pad_kwargs) (center : bool) : outcome bool :=
  other <- other_pad other soft_margin ;;
  match other with
  | CInterval other => ret (Rectangle_in_interval self other center)
  | CRectangle other =>
      x_interval <- Rectangle_to_interval other AxisX ;;
      y_interval <- Rectangle_to_interval other AxisY ;;
      (* a and b: b is evaluated only when a holds *)
      a <- Rectangle_is_in_Interval self x_interval pad_defaults center ;;
      if a then Rectangle_is_in_Interval self y_interval pad_defaults center
      else ret false
  | CQuadrilateral other =>
      if negb center
      then ret (forallb (fun vertice =>
                           _vertice_in_polygon vertice (Quadrilateral_points other))
                        (Rectangle_points self))
      else ret (_vertice_in_polygon (Rectangle_center self)
                                    (Quadrilateral_points other))
  end.

Definition Quadrilateral_in_interval (self : Quadrilateral) (other : Interval)
    (center : bool) : outcome bool :=
  if negb center
  then c <- Quadrilateral_coordinates self ;;
       let '(x1, y1, x2, y2) := c in
       let (s, e) := match axis other with
                     | AxisX => (x1, x2)
                     | AxisY => (y1, y2)
                     end in
       ret (chain4 (start other) s e (end_ other))
  else let c := match axis other with
                | AxisX => fst (Quadrilateral_center self)
                | AxisY => snd (Quadrilateral_center self)
                end in
       ret (chain3 (start other) c (end_ other)).

Definition Quadrilateral_is_in_Interval (self : Quadrilateral) (other : Interval)
    (soft_margin : pad_kwargs) (center : bool) : outcome bool :=
  other <- Interval_pad other soft_margin ;;
  Quadrilateral_in_interval self other center.

Definition Quadrilateral_is_in (self : Quadrilateral) (other : pyvalue)
    (soft_margin : pad_kwargs) (center : bool) : outcome bool :=
  other <- other_pad other soft_margin ;;
  match other with
  | CInterval other => Quadrilateral_in_interval self other center
  | CRectangle other =>
      x_interval <- Rectangle_to_interval other AxisX ;;
      y_interval <- Rectangle_to_interval other AxisY ;;
      a <- Quadrilateral_is_in_Interval self x_interval pad_defaults center ;;
      if a then Quadrilateral_is_in_Interval self y_interval pad_defaults center
      else ret false
  | CQuadrilateral other =>
      if negb center
      then ret (forallb (fun vertice =>
                           _vertice_in_polygon vertice (Quadrilateral_points other))
                        (Quadrilateral_points self))
      else ret (_vertice_in_polygon (Quadrilateral_center self)
                                    (Quadrilateral_points other))
  end.

Definition coord_is_in (self : coord) (other : pyvalue)
    (soft_margin : pad_kwargs) (center : bool) : outcome bool :=
  match self with
  | CInterval i => Interval_is_in i other soft_margin center
  | CRectangle r => Rectangle_is_in r other soft_margin center
  | CQuadrilateral q => Quadrilateral_is_in q other soft_margin center
  end.

(** [TextBlock.is_in] hands the call to its block. *)
Definition TextBlock_is_in (self : TextBlock) (other : pyvalue)
    (soft_margin : pad_kwargs) (center : bool) : outcome bool :=
  coord_is_in (block self) other soft_margin center.

(** [ele.is_in(other, ...)] for a member [ele] of a layout. *)
Definition value_is_in (ele : pyvalue) (other : pyvalue)
    (soft_margin : pad_kwargs) (center : bool) : outcome bool :=
  match ele with
  | VCoord c => coord_is_in c other soft_margin center
  | VTextBlock t => TextBlock_is_in t other soft_margin center
  | VOther _ => raise AttributeError
  end.

(** *** Layout *)

Definition Layout : Type := list pyvalue.

(** [Layout.filter_by]: the list comprehension
    [[ele for ele in self if ele.is_in(other, ...)]], run as the loop it is. *)
Fixpoint filter_by_loop (eles : list pyvalue) (acc : Layout) (other : pyvalue)
    (soft_margin : pad_kwargs) (center : bool) : outcome Layout :=
  match eles with
  | [] => ret acc
  | ele :: rest =>
      b <- value_is_in ele other soft_margin center ;;
      filter_by_loop rest (if b then acc ++ [ele] else acc) other soft_margin center
  end.

Definition Layout_filter_by (self : Layout) (other : pyvalue)
    (soft_margin : pad_kwargs) (center : bool) : outcome Layout :=
  filter_by_loop self [] other soft_margin center.

(** *** Frame transforms: [condition_on] and [relative_to] *)

Section FrameTransforms.

(** [cv2.getPerspectiveTransform(src, dst)]: the 3 x 3 matrix of the
    perspective transform that maps the four points [src] to [dst].  It is a
    routine of OpenCV, not of this package, and is left abstract. *)
Variable getPerspectiveTransform : points -> points -> outcome matrix3.

Definition Quadrilateral_perspective_matrix (self : Quadrilateral) : outcome matrix3 :=
  dst <- Quadrilateral_mapped_rectangle_points self ;;
  getPerspectiveTransform (Quadrilateral_points self) dst.

Definition Rectangle_condition_on (self : Rectangle) (other : pyvalue) : outcome coord :=
  match support_textblock other with
  | VCoord (CInterval other) =>
      let (dx, dy) := match axis other with
                      | AxisX => (start other, 0)
                      | AxisY => (0, start other)
                      end in
      ret (CRectangle (mkRectangle (x_1 self + dx) (y_1 self + dy)
                                   (x_2 self + dx) (y_2 self + dy)))
  | VCoord (CRectangle other) =>
      let '(dx, dy, _, _) := Rectangle_coordinates other in
      ret (CRectangle (mkRectangle (x_1 self + dx) (y_1 self + dy)
                                   (x_2 self + dx) (y_2 self + dy)))
  | VCoord (CQuadrilateral other) =>
      M <- Quadrilateral_perspective_matrix other ;;
      transformed_points <- _perspective_transformation M (Rectangle_points self) true ;;
      ret (CQuadrilateral (mkQuadrilateral transformed_points
                             (Some (Rectangle_height self))
                             (Some (Rectangle_width self))))
  | _ => raise InvalidInputType
  end.

Definition Rectangle_relative_to (self : Rectangle) (other : pyvalue) : outcome coord :=
  match support_textblock other with
  | VCoord (CInterval other) =>
      let (dx, dy) := match axis other with
                      | AxisX => (start other, 0)
                      | AxisY => (0, start other)
                      end in
      ret (CRectangle (mkRectangle (x_1 self - dx) (y_1 self - dy)
                                   (x_2 self - dx) (y_2 self - dy)))
  | VCoord (CRectangle other) =>
      let '(dx, dy, _, _) := Rectangle_coordinates other in
      ret (CRectangle (mkRectangle (x_1 self - dx) (y_1 self - dy)
                                   (x_2 self - dx) (y_2 self - dy)))
  | VCoord (CQuadrilateral other) =>
      M <- Quadrilateral_perspective_matrix other ;;
      transformed_points <- _perspective_transformation M (Rectangle_points self) false ;;
      ret (CQuadrilateral (mkQuadrilateral transformed_points
                             (Some (Rectangle_height self))
                             (Some (Rectangle_width self))))
  | _ => raise InvalidInputType
  end.

Definition Quadrilateral_condition_on (self : Quadrilateral) (other : pyvalue)
  : outcome coord :=
  match support_textblock other with
  | VCoord (CInterval other) =>
      q <- match axis other with
           | AxisX => Quadrilateral_shift self (Iterable [start other; 0])
           | AxisY => Quadrilateral_shift self (Iterable [0; start other])
           end ;;
      ret (CQuadrilateral q)
  | VCoord (CRectangle other) =>
      q <- Quadrilateral_shift self (Iterable [x_1 other; y_1 other]) ;;
      ret (CQuadrilateral q)
  | VCoord (CQuadrilateral other) =>
      M <- Quadrilateral_perspective_matrix other ;;
      transformed_points <-
        _perspective_transformation M (Quadrilateral_points self) true ;;
      h <- Quadrilateral_height self ;;
      w <- Quadrilateral_width self ;;
      ret (CQuadrilateral (mkQuadrilateral transformed_points (Some h) (Some w)))
  | _ => raise InvalidInputType
  end.

Definition Quadrilateral_relative_to (self : Quadrilateral) (other : pyvalue)
  : outcome coord :=
  match support_textblock other with
  | VCoord (CInterval other) =>
      q <- match axis other with
           | AxisX => Quadrilateral_shift self (Iterable [- start other; 0])
           | AxisY => Quadrilateral_shift self (Iterable [0; - start other])
           end ;;
      ret (CQuadrilateral q)
  | VCoord (CRectangle other) =>
      q <- Quadrilateral_shift self (Iterable [- x_1 other; - y_1 other]) ;;
      ret (CQuadrilateral q)
  | VCoord (CQuadrilateral other) =>
      M <- Quadrilateral_perspective_matrix other ;;
      transformed_points <-
        _perspective_transformation M (Quadrilateral_points self) false ;;
      h <- Quadrilateral_height self ;;
      w <- Quadrilateral_width self ;;
      ret (CQuadrilateral (mkQuadrilateral transformed_points (Some h) (Some w)))
  | _ => raise InvalidInputType
  end.

(** [Interval.put_on_canvas(canvas)] for an element [canvas]; the other
    canvases (an image array, a PIL image) are not needed here. *)
Definition Interval_put_on_canvas (self : Interval) (canvas : coord) : outcome Interval :=
  h <- coord_height canvas ;;
  w <- coord_width canvas ;;
  ret (Interval_set_canvas self h w).

Definition Interval_condition_on (self : Interval) (other : pyvalue) : outcome coord :=
  match support_textblock other with
  | VCoord (CInterval other) =>
      if axis_eqb (axis other) (axis self)
      then let d := start other in
           (* Reset the canvas size in the absolute coordinates *)
           i <- Interval_init (start self + d) (end_ self + d) (axis self) 0 0 ;;
           ret (CInterval i)
      else ret (CInterval self)
  | VCoord (CRectangle other) =>
      i <- Interval_put_on_canvas self (CRectangle other) ;;
      Rectangle_condition_on (Interval_to_rectangle i) (VCoord (CRectangle other))
  | VCoord (CQuadrilateral other) =>
      i <- Interval_put_on_canvas self (CQuadrilateral other) ;;
      Quadrilateral_condition_on (Interval_to_quadrilateral i)
                                 (VCoord (CQuadrilateral other))
  | _ => raise InvalidInputType
  end.

Definition Interval_relative_to (self : Interval) (other : pyvalue) : outcome coord :=
  match support_textblock other with
  | VCoord (CInterval other) =>
      if axis_eqb (axis other) (axis self)
      then let d := start other in
           (* Reset the canvas size in the absolute coordinates *)
           i <- Interval_init (start self - d) (end_ self - d) (axis self) 0 0 ;;
           ret (CInterval i)
      else ret (CInterval self)
  | VCoord (CRectangle other) =>
      i <- Interval_put_on_canvas self (CRectangle other) ;;
      Rectangle_relative_to (Interval_to_rectangle i) (VCoord (CRectangle other))
  | VCoord (CQuadrilateral other) =>
      i <- Interval_put_on_canvas self (CQuadrilateral other) ;;
      Quadrilateral_relative_to (Interval_to_quadrilateral i)
                                (VCoord (CQuadrilateral other))
  | _ => raise InvalidInputType
  end.

Definition coord_condition_on (self : coord) (other : pyvalue) : outcome coord :=
  match self with
  | CInterval i => Interval_condition_on i other
  | CRectangle r => Rectangle_condition_on r other
  | CQuadrilateral q => Quadrilateral_condition_on q other
  end.

Definition coord_relative_to (self : coord) (other : pyvalue) : outcome coord :=
  match self with
  | CInterval i => Interval_relative_to i other
  | CRectangle r => Rectangle_relative_to r other
  | CQuadrilateral q => Quadrilateral_relative_to q other
  end.

(** [g.condition_on(other).relative_to(other)] *)
Definition round_trip (g : coord) (other : pyvalue) : outcome coord :=
  g' <- coord_condition_on g other ;;
  coord_relative_to g' other.

End FrameTransforms.

(** An instance of the OpenCV routine that never answers, for evaluating
    calls that do not reach it. *)
Definition no_cv2 (src dst : points) : outcome matrix3 := raise ValueError.

(** * More of the package *)

(** ** Areas *)

(** [np.roll(a, 1)]: the last entry comes first. *)
Definition roll1 (l : list Q) : list Q :=
  match l with
  | [] => []
  | _ :: _ => last l 0 :: removelast l
  end.

(** [_polygon_area(xs, ys)], the Shoelace formula. *)
Definition _polygon_area (xs ys : list Q) : Q :=
  (1 # 2) * Qabs (dot xs (roll1 ys) - dot ys (roll1 xs)).

Definition Interval_area (self : Interval) : Q :=
  Interval_height self * Interval_width self.

Definition Rectangle_area (self : Rectangle) : Q :=
  Rectangle_width self * Rectangle_height self.

Definition Quadrilateral_area (self : Quadrilateral) : Q :=
  _polygon_area (column0 (Quadrilateral_points self))
                (column1 (Quadrilateral_points self)).

(** ** Conversions *)

Definition Quadrilateral_to_rectangle (self : Quadrilateral) : outcome Rectangle :=
  c <- Quadrilateral_coordinates self ;;
  let '(x1, y1, x2, y2) := c in
  ret (mkRectangle x1 y1 x2 y2).

(** ** Dispatch of the edits *)

Definition coord_shift (c : coord) (shift_distance : numeric_arg) : outcome coord :=
  match c with
  | CInterval i => i' <- Interval_shift i shift_distance ;; ret (CInterval i')
  | CRectangle r => r' <- Rectangle_shift r shift_distance ;; ret (CRectangle r')
  | CQuadrilateral q => q' <- Quadrilateral_shift q shift_distance ;; ret (CQuadrilateral q')
  end.

Definition coord_scale (c : coord) (scale_factor : numeric_arg) : outcome coord :=
  match c with
  | CInterval i => i' <- Interval_scale i scale_factor ;; ret (CInterval i')
  | CRectangle r => r' <- Rectangle_scale r scale_factor ;; ret (CRectangle r')
  | CQuadrilateral q => q' <- Quadrilateral_scale q scale_factor ;; ret (CQuadrilateral q')
  end.

Definition coord_area (c : coord) : Q :=
  match c with
  | CInterval i => Interval_area i
  | CRectangle r => Rectangle_area r
  | CQuadrilateral q => Quadrilateral_area q
  end.

(** ** Text blocks *)

(** [self = copy(self); self.block = out]: the meta data stay. *)
Definition TextBlock_set_block (self : TextBlock) (out : coord) : TextBlock :=
  mkTextBlock out (text self) (id self) (type self) (parent self) (next self)
              (score self).

(** [@mixin_textblock_meta]: the element that the method of the block
    returns is put into a copy of the text block.  (The methods wrapped here
    return elements only; for any other value the wrapper would return
    [None].) *)
Definition mixin_textblock_meta (self : TextBlock) (out : outcome coord)
  : outcome TextBlock :=
  out <- out ;;
  ret (TextBlock_set_block self out).

Definition TextBlock_shift (self : TextBlock) (shift_distance : numeric_arg)
  : outcome TextBlock :=
  mixin_textblock_meta self (coord_shift (block self) shift_distance).

Definition TextBlock_pad (self : TextBlock) (k : pad_kwargs) : outcome TextBlock :=
  mixin_textblock_meta self (coord_pad (block self) k).

Definition TextBlock_scale (self : TextBlock) (scale_factor : numeric_arg)
  : outcome TextBlock :=
  mixin_textblock_meta self (coord_scale (block self) scale_factor).

Definition TextBlock_condition_on
    (getPerspectiveTransform : points -> points -> outcome matrix3)
    (self : TextBlock) (other : pyvalue) : outcome TextBlock :=
  mixin_textblock_meta self
    (coord_condition_on getPerspectiveTransform (block self) other).

Definition TextBlock_relative_to
    (getPerspectiveTransform : points -> points -> outcome matrix3)
    (self : TextBlock) (other : pyvalue) : outcome TextBlock :=
  mixin_textblock_meta self
    (coord_relative_to getPerspectiveTransform (block self) other).

Definition TextBlock_height (self : TextBlock) : outcome Q := coord_height (block self).
Definition TextBlock_width (self : TextBlock) : outcome Q := coord_width (block self).
Definition TextBlock_coordinates (self : TextBlock) : outcome (Q * Q * Q * Q) :=
  coord_coordinates (block self).
Definition TextBlock_area (self : TextBlock) : Q := coord_area (block self).

(** ** Layouts *)

(** [ele.shift(...)], [ele.pad(...)], ... for a member [ele] of a layout; a
    value of another class has none of these methods. *)
Definition value_shift (ele : pyvalue) (shift_distance : numeric_arg) : outcome pyvalue :=
  match ele with
  | VCoord c => c' <- coord_shift c shift_distance ;; ret (VCoord c')
  | VTextBlock t => t' <- TextBlock_shift t shift_distance ;; ret (VTextBlock t')
  | VOther _ => raise AttributeError
  end.

Definition value_pad (ele : pyvalue) (k : pad_kwargs) : outcome pyvalue :=
  match ele with
  | VCoord c => c' <- coord_pad c k ;; ret (VCoord c')
  | VTextBlock t => t' <- TextBlock_pad t k ;; ret (VTextBlock t')
  | VOther _ => raise AttributeError
  end.

Definition value_scale (ele : pyvalue) (scale_factor : numeric_arg) : outcome pyvalue :=
  match ele with
  | VCoord c => c' <- coord_scale c scale_factor ;; ret (VCoord c')
  | VTextBlock t => t' <- TextBlock_scale t scale_factor ;; ret (VTextBlock t')
  | VOther _ => raise AttributeError
  end.

Definition value_condition_on
    (getPerspectiveTransform : points -> points -> outcome matrix3)
    (ele : pyvalue) (other : pyvalue) : outcome pyvalue :=
  match ele with
  | VCoord c =>
      c' <- coord_condition_on getPerspectiveTransform c other ;; ret (VCoord c')
  | VTextBlock t =>
      t' <- TextBlock_condition_on getPerspectiveTransform t other ;; ret (VTextBlock t')
  | VOther _ => raise AttributeError
  end.

Definition value_relative_to
    (getPerspectiveTransform : points -> points -> outcome matrix3)
    (ele : pyvalue) (other : pyvalue) : outcome pyvalue :=
  match ele with
  | VCoord c =>
      c' <- coord_relative_to getPerspectiveTransform c other ;; ret (VCoord c')
  | VTextBlock t =>
      t' <- TextBlock_relative_to getPerspectiveTransform t other ;; ret (VTextBlock t')
  | VOther _ => raise AttributeError
  end.

(** [self.__class__([ele.shift(shift_distance) for ele in self])], and the
    like: the comprehension runs the method on every member in turn. *)
Definition Layout_shift (self : Layout) (shift_distance : numeric_arg) : outcome Layout :=
  mapM (fun ele => value_shift ele shift_distance) self.

Definition Layout_pad (self : Layout) (k : pad_kwargs) : outcome Layout :=
  mapM (fun ele => value_pad ele k) self.

Definition Layout_scale (self : Layout) (scale_factor : numeric_arg) : outcome Layout :=
  mapM (fun ele => value_scale ele scale_factor) self.

Definition Layout_condition_on
    (getPerspectiveTransform : points -> points -> outcome matrix3)
    (self : Layout) (other : pyvalue) : outcome Layout :=
  mapM (fun ele => value_condition_on getPerspectiveTransform ele other) self.

Definition Layout_relative_to
    (getPerspectiveTransform : points -> points -> outcome matrix3)
    (self : Layout) (other : pyvalue) : outcome Layout :=
  mapM (fun ele => value_relative_to getPerspectiveTransform ele other) self.

(** [Layout.is_in]: the layout of the answers. *)
Definition Layout_is_in (self : Layout) (other : pyvalue)
    (soft_margin : pad_kwargs) (center : bool) : outcome (list bool) :=
  mapM (fun ele => value_is_in ele other soft_margin center) self.

(** [[ele.text for ele in self if hasattr(ele, 'text')]]: of the values at
    hand only a text block has a [text]. *)
Fixpoint Layout_get_texts (self : Layout) : list string :=
  match self with
  | [] => []
  | VTextBlock t :: rest => text t :: Layout_get_texts rest
  | _ :: rest => Layout_get_texts rest
  end.

(** ** Cropping an image *)

(** A bound of a slice [a[i:j]] on a sequence of length [n]: a negative
    index counts from the end, and the bound is clipped to [0 .. n]. *)
Definition slice_bound (n : nat) (i : Z) : nat :=
  if (i <? 0)%Z then Z.to_nat (Z.max 0 (i + Z.of_nat n))
  else Nat.min (Z.to_nat i) n.

(** [a[i:j]] *)
Definition py_slice {A} (i j : Z) (a : list A) : list A :=
  let lo := slice_bound (List.length a) i in
  let hi := slice_bound (List.length a) j in
  firstn (hi - lo) (skipn lo a).

(** An image as the array of its rows; [image[i:j, k:l]]. *)
Definition slice2 {A} (i j k l : Z) (image : list (list A)) : list (list A) :=
  map (py_slice k l) (py_slice i j image).

Definition Rectangle_crop_image {A} (self : Rectangle) (image : list (list A))
  : list (list A) :=
  let '(x1, y1, x2, y2) := Rectangle_coordinates self in
  slice2 (py_int y1) (py_int y2) (py_int x1) (py_int x2) image.

(** [h, w = image.shape[:2]] of an image array. *)
Definition image_height {A} (image : list (list A)) : nat := List.length image.
Definition image_width {A} (image : list (list A)) : nat :=
  List.length (hd [] image).

(** [Interval.put_on_canvas(canvas)] for an image array [canvas]. *)
Definition Interval_put_on_image {A} (self : Interval) (image : list (list A)) : Interval :=
  Interval_set_canvas self (inject_Z (Z.of_nat (image_height image)))
                           (inject_Z (Z.of_nat (image_width image))).

Definition Interval_crop_image {A} (self : Interval) (image : list (list A))
  : list (list A) :=
  let '(x1, y1, x2, y2) := Interval_coordinates (Interval_put_on_image self image) in
  slice2 (py_int y1) (py_int y2) (py_int x1) (py_int x2) image.

(** * The vocabulary of the properties *)

(** ** Arguments and answers *)

(** The padding of an interval on the two sides orthogonal to its axis. *)
Definition orthogonal_pad (a : axis_t) (p q : Q) (safe_mode : bool) : pad_kwargs :=
  match a with
  | AxisX => mkPad 0 0 p q safe_mode
  | AxisY => mkPad p q 0 0 safe_mode
  end.

Definition orthogonal_pad_warning (a : axis_t) : warning :=
  match a with
  | AxisX => InvalidPaddingTopBottom
  | AxisY => InvalidPaddingRightLeft
  end.

(** The component of a 2-vector that an interval on axis [a] uses. *)
Definition own_component (a : axis_t) (x y : Q) : Q :=
  match a with AxisX => x | AxisY => y end.

(** Two points agree within numpy's tolerance. *)
Definition close_points (p q : point) : Prop :=
  Qabs (fst p - fst q) <= atol + rtol * Qabs (fst q) /\
  Qabs (snd p - snd q) <= atol + rtol * Qabs (snd q).

(** An [other] of the class Quadrilateral. *)
Definition is_Quadrilateral (v : pyvalue) : bool :=
  match v with
  | VCoord (CQuadrilateral _) => true
  | _ => false
  end.

(** [ele.is_in(other, ...)] returned True. *)
Definition holds (m : outcome bool) : bool :=
  match m with
  | Returns true _ => true
  | _ => false
  end.

(** The side of every entry of a column: among the two lowest in rank
    (the keys 0 and 1 of the dictionaries of [pad]) or the two highest. *)
Definition sides (l : list Q) : list bool := map low_key (ranks l).

(** A value in an array of an integer dtype ([int]) or not. *)
Definition cast (int : bool) (v : Q) : Q := if int then as_int v else v.

(** The deltas of a column whose entries lie on the sides [sd], for the
    amounts [lo] of the low and [hi] of the high side. *)
Definition deltas (int : bool) (lo hi : Q) (sd : list bool) : list Q :=
  map (fun s : bool => cast int (if s then lo else hi)) sd.

(** The keyword arguments [-l, -r, -t, -b] of the second call. *)
Definition negated_pad (k : pad_kwargs) : pad_kwargs :=
  mkPadKw (- left k) (- right k) (- top k) (- bottom k) (safe_mode k)
          (left_float k) (right_float k) (top_float k) (bottom_float k).

(** [g.pad(l, r, t, b, safe_mode).pad(-l, -r, -t, -b, safe_mode)] *)
Definition pad_round_trip (g : coord) (k : pad_kwargs) : outcome coord :=
  g' <- coord_pad g k ;;
  coord_pad g' (negated_pad k).

(** ** Homographies *)



Definition hom_w (M : matrix3) (p : point) : Q := m20 M * fst p + m21 M * snd p + m22 M.


(** The image of one point as the matrix product computes it. *)
Definition transformed_row (M : matrix3) (p : point) : point :=
  (dot [m00 M; m01 M; m02 M] [fst p; snd p; 1] /
   dot [m20 M; m21 M; m22 M] [fst p; snd p; 1],
   dot [m10 M; m11 M; m12 M] [fst p; snd p; 1] /
   dot [m20 M; m21 M; m22 M] [fst p; snd p; 1]).

(** The product of two 3 x 3 matrices, and equality of their entries. *)
Definition mul3 (A B : matrix3) : matrix3 :=
  Matrix3
    (m00 A * m00 B + m01 A * m10 B + m02 A * m20 B)
    (m00 A * m01 B + m01 A * m11 B + m02 A * m21 B)
    (m00 A * m02 B + m01 A * m12 B + m02 A * m22 B)
    (m10 A * m00 B + m11 A * m10 B + m12 A * m20 B)
    (m10 A * m01 B + m11 A * m11 B + m12 A * m21 B)
    (m10 A * m02 B + m11 A * m12 B + m12 A * m22 B)
    (m20 A * m00 B + m21 A * m10 B + m22 A * m20 B)
    (m20 A * m01 B + m21 A * m11 B + m22 A * m21 B)
    (m20 A * m02 B + m21 A * m12 B + m22 A * m22 B).

Definition matrix3_eq (A B : matrix3) : Prop :=
  m00 A == m00 B /\ m01 A == m01 B /\ m02 A == m02 B /\
  m10 A == m10 B /\ m11 A == m11 B /\ m12 A == m12 B /\
  m20 A == m20 B /\ m21 A == m21 B /\ m22 A == m22 B.

Definition identity3 : matrix3 := Matrix3 1 0 0 0 1 0 0 0 1.

(** ** Classes of elements *)

(** An [other] whose frame transform is a translation. *)
Definition translates (other : coord) : bool :=
  match other with
  | CInterval _ | CRectangle _ => true
  | CQuadrilateral _ => false
  end.

Definition is_Interval (c : coord) : bool :=
  match c with
  | CInterval _ => true
  | _ => false
  end.

(** ** Polygons *)

(** Twice the signed area of the triangle [a], [b], [c]: positive when the
    three points turn clockwise on the screen (y axis pointing down). *)
Definition turn (a b c : point) : Q :=
  (fst b - fst a) * (snd c - snd a) - (snd b - snd a) * (fst c - fst a).

(** [vertice] seen from the edges of the polygon, in list form: every point
    with its successor, the last point with [first]. *)
Fixpoint edges_ok (v first : point) (l : points) : Prop :=
  match l with
  | [] => True
  | a :: l' => 0 <= turn v a (hd first l') /\ edges_ok v first l'
  end.



Definition total (ws : list Q) : Q := fold_right Qplus 0 ws.



Definition nonnegative (p : point) : Prop := 0 <= fst p /\ 0 <= snd p.

(** ** Examples *)

Definition example_layout : Layout :=
  [ VCoord (CRectangle (mkRectangle 10 10 20 20));
    VCoord (CInterval (mkInterval 25 35 AxisX 0 0));
    VTextBlock (mkTextBlock (CRectangle (mkRectangle 40 40 50 50))
                            EmptyString None None None None None);
    VTextBlock (mkTextBlock (CRectangle (mkRectangle 1 2 3 4))
                            EmptyString (Some 7%Z) None None None None) ].

Definition example_square : Quadrilateral :=
  mkQuadrilateral [(0, 0); (10, 0); (10, 10); (0, 10)] None None.

(** An instance of the OpenCV routine for the examples: the quadrilateral
    with corners (5,7), (7,7), (7,10), (5,10) is mapped to its unskewed
    rectangle (0,0), (2,0), (2,3), (0,3) by the translation by (-5,-7). *)
Definition example_cv2 (src dst : points) : outcome matrix3 :=
  ret (Matrix3 1 0 (-5) 0 1 (-7) 0 0 1).

Definition example_quadrilateral : Quadrilateral :=
  mkQuadrilateral [(5, 7); (7, 7); (7, 10); (5, 10)] None None.

(** ** Areas, margins and meta data *)

(** The number of entries, as a rational. *)
Fixpoint count (l : list Q) : Q :=
  match l with
  | [] => 0
  | _ :: l' => 1 + count l'
  end.

(** The rectangle [b.pad(...)], as [Rectangle.pad] builds it. *)
Definition padded (b : Rectangle) (k : pad_kwargs) : Rectangle :=
  mkRectangle
    (if safe_mode k then py_max0 (x_1 b - left k) else x_1 b - left k)
    (if safe_mode k then py_max0 (y_1 b - top k) else y_1 b - top k)
    (x_2 b + right k)
    (y_2 b + bottom k).

(** The span [lo .. hi] holds the span [s .. e], or its midpoint. *)
Definition span_holds (center : bool) (lo hi s e : Q) : Prop :=
  if center
  then 0 <= (s + e) / 2 /\ lo <= (s + e) / 2 /\ (s + e) / 2 <= hi
  else 0 <= s /\ lo <= s /\ s <= e /\ e <= hi.

(** The meta data of a member of a layout: those of a text block. *)
Definition metadata (e : pyvalue)
  : option (string * option Z * option Z * option Z * option Z * option Q) :=
  match e with
  | VTextBlock t => Some (text t, id t, type t, parent t, next t, score t)
  | _ => None
  end.

(** * Properties *)

(** ** Numbers and comparisons *)

Lemma Qlt_bool_iff (a b : Q) : Qlt_bool a b = true <-> a < b.
Proof.
  unfold Qlt_bool. rewrite negb_true_iff.
  destruct (Qle_bool b a) eqn:E.
  - apply Qle_bool_iff in E. split; [discriminate | intro; lra].
  - split; [intros _ | reflexivity].
    apply Qnot_le_lt. intro H. apply Qle_bool_iff in H. congruence.
Qed.

Lemma Qle_bool_false_iff (a b : Q) : Qle_bool a b = false <-> b < a.
Proof.
  rewrite <- Qlt_bool_iff. unfold Qlt_bool.
  destruct (Qle_bool a b); simpl; split; congruence.
Qed.

Lemma py_max0_le (v x : Q) : py_max0 v <= x <-> 0 <= x /\ v <= x.
Proof.
  unfold py_max0. destruct (Qlt_bool 0 v) eqn:E.
  - apply Qlt_bool_iff in E. split; intros; lra.
  - assert (~ 0 < v) by (rewrite <- Qlt_bool_iff; congruence).
    split; intros; lra.
Qed.

Lemma py_max0_Qmax (v : Q) : py_max0 v == Qmax 0 v.
Proof.
  unfold py_max0. destruct (Qlt_bool 0 v) eqn:E.
  - apply Qlt_bool_iff in E. symmetry. apply Q.max_r. lra.
  - assert (~ 0 < v) by (rewrite <- Qlt_bool_iff; congruence).
    symmetry. apply Q.max_l. lra.
Qed.

Lemma chain3_iff (a b c : Q) : chain3 a b c = true <-> a <= b /\ b <= c.
Proof.
  unfold chain3. rewrite andb_true_iff, !Qle_bool_iff. tauto.
Qed.

Lemma chain4_iff (a b c d : Q) :
  chain4 a b c d = true <-> a <= b /\ b <= c /\ c <= d.
Proof.
  unfold chain4. rewrite !andb_true_iff, !Qle_bool_iff. tauto.
Qed.

#[local] Arguments Qplus : simpl never.
#[local] Arguments Qminus : simpl never.
#[local] Arguments Qmult : simpl never.
#[local] Arguments Qdiv : simpl never.
#[local] Arguments Qopp : simpl never.
#[local] Arguments Qle_bool : simpl never.
#[local] Arguments Qeq_bool : simpl never.
#[local] Arguments Qabs : simpl never.
#[local] Arguments as_int : simpl never.

(** ** The outcome monad *)

Lemma bind_Returns {A B} (a : A) (ws : list warning) (f : A -> outcome B) :
  bind (Returns a ws) f =
  match f a with Returns b ws' => Returns b (ws ++ ws') | Raises e => Raises e end.
Proof. reflexivity. Qed.

Lemma bind_ret {A B} (a : A) (f : A -> outcome B) : bind (ret a) f = f a.
Proof. unfold ret, bind. destruct (f a); reflexivity. Qed.

Lemma bind_Raises {A B} (e : exn) (f : A -> outcome B) : bind (Raises e) f = Raises e.
Proof. reflexivity. Qed.

Lemma py_assert_true (b : bool) : b = true -> py_assert b = ret tt.
Proof. intros ->. reflexivity. Qed.

Lemma Interval_init_ok (s e : Q) (a : axis_t) (h w : Q) :
  s <= e -> Interval_init s e a h w = Returns (mkInterval s e a h w) [].
Proof.
  intro H. unfold Interval_init.
  rewrite py_assert_true by (apply Qle_bool_iff; exact H). reflexivity.
Qed.

Lemma Interval_init_fails (s e : Q) (a : axis_t) (h w : Q) :
  e < s -> Interval_init s e a h w = Raises AssertionError.
Proof.
  intro H. unfold Interval_init.
  apply Qle_bool_false_iff in H. rewrite H. reflexivity.
Qed.

Lemma axis_eqb_eq (a b : axis_t) : axis_eqb a b = true <-> a = b.
Proof. destruct a, b; simpl; split; congruence. Qed.

Lemma axis_eqb_neq (a b : axis_t) : axis_eqb a b = false <-> a <> b.
Proof. destruct a, b; simpl; split; congruence. Qed.

(** ** Interval against interval: frame transforms *)

Lemma Interval_condition_on_same_axis
    (gpt : points -> points -> outcome matrix3) (a other : Interval) :
  start a <= end_ a -> axis other = axis a ->
  Interval_condition_on gpt a (VCoord (CInterval other)) =
  Returns (CInterval (mkInterval (start a + start other)
                                 (end_ a + start other) (axis a) 0 0)) [].
Proof.
  intros Ha H. apply axis_eqb_eq in H.
  unfold Interval_condition_on. cbn [support_textblock].
  rewrite H, Interval_init_ok by lra. reflexivity.
Qed.

Lemma Interval_relative_to_same_axis
    (gpt : points -> points -> outcome matrix3) (a other : Interval) :
  start a <= end_ a -> axis other = axis a ->
  Interval_relative_to gpt a (VCoord (CInterval other)) =
  Returns (CInterval (mkInterval (start a - start other)
                                 (end_ a - start other) (axis a) 0 0)) [].
Proof.
  intros Ha H. apply axis_eqb_eq in H.
  unfold Interval_relative_to. cbn [support_textblock].
  rewrite H, Interval_init_ok by lra. reflexivity.
Qed.

Lemma Interval_transform_other_axis
    (gpt : points -> points -> outcome matrix3) (a other : Interval) :
  axis other <> axis a ->
  Interval_condition_on gpt a (VCoord (CInterval other)) = Returns (CInterval a) [] /\
  Interval_relative_to gpt a (VCoord (CInterval other)) = Returns (CInterval a) [].
Proof.
  intro H. apply axis_eqb_neq in H.
  unfold Interval_condition_on, Interval_relative_to. cbn [support_textblock].
  rewrite H. split; reflexivity.
Qed.

(** C10.  For an interval [a] (with [start <= end], the invariant its
    constructor asserts) and an interval [other] on the same axis,
    [a.condition_on(other)] and [a.relative_to(other)] return an interval
    that carries over [a]'s start and end (shifted by [other.start]) and its
    axis, with [canvas_height] and [canvas_width] reset to 0 whatever [a]'s
    canvas size was; when the axes differ the returned copy is [a] itself,
    canvas size included. *)
Theorem Interval_frame_transform_canvas
    (gpt : points -> points -> outcome matrix3) (a other : Interval)
    (Ha : start a <= end_ a) :
  (axis other = axis a ->
     Interval_condition_on gpt a (VCoord (CInterval other)) =
       Returns (CInterval (mkInterval (start a + start other)
                                      (end_ a + start other) (axis a) 0 0)) [] /\
     Interval_relative_to gpt a (VCoord (CInterval other)) =
       Returns (CInterval (mkInterval (start a - start other)
                                      (end_ a - start other) (axis a) 0 0)) []) /\
  (axis other <> axis a ->
     Interval_condition_on gpt a (VCoord (CInterval other)) =
       Returns (CInterval a) [] /\
     Interval_relative_to gpt a (VCoord (CInterval other)) =
       Returns (CInterval a) []).
Proof.
  split; intro H.
  - split; [apply Interval_condition_on_same_axis
           |apply Interval_relative_to_same_axis]; assumption.
  - apply Interval_transform_other_axis. exact H.
Qed.

Lemma Interval_frame_transform_canvas_witness :
  Interval_condition_on no_cv2 (mkInterval 1 2 AxisX 5 7)
      (VCoord (CInterval (mkInterval 3 4 AxisX 9 9))) =
    Returns (CInterval (mkInterval (1 + 3) (2 + 3) AxisX 0 0)) [] /\
  Interval_condition_on no_cv2 (mkInterval 1 2 AxisX 5 7)
      (VCoord (CInterval (mkInterval 3 4 AxisY 9 9))) =
    Returns (CInterval (mkInterval 1 2 AxisX 5 7)) [].
Proof.
  assert (Ha : start (mkInterval 1 2 AxisX 5 7) <= end_ (mkInterval 1 2 AxisX 5 7))
    by (vm_compute; discriminate).
  split.
  - apply (proj1 (Interval_frame_transform_canvas no_cv2 (mkInterval 1 2 AxisX 5 7)
                    (mkInterval 3 4 AxisX 9 9) Ha)). reflexivity.
  - apply (proj2 (Interval_frame_transform_canvas no_cv2 (mkInterval 1 2 AxisX 5 7)
                    (mkInterval 3 4 AxisY 9 9) Ha)). discriminate.
Defined.

(** ** Padding *)

Lemma Interval_pad_defaults (b : Interval) :
  Interval_pad b pad_defaults =
  Returns (Interval_set_start_end b (py_max0 (start b - 0)) (end_ b + 0)) [].
Proof. unfold Interval_pad. destruct (axis b); reflexivity. Qed.

(** ** Interval against interval: containment *)

Lemma Interval_is_in_Interval_defaults (a b : Interval) (center : bool) :
  Interval_is_in a (VCoord (CInterval b)) pad_defaults center =
  Returns
    (if negb (axis_eqb (axis a) (axis b)) then false
     else if negb center
          then chain4 (py_max0 (start b - 0)) (start a) (end_ a) (end_ b + 0)
          else chain3 (py_max0 (start b - 0)) (Interval_center a) (end_ b + 0)) [].
Proof.
  unfold Interval_is_in, other_pad, coord_pad. cbn [support_textblock].
  rewrite Interval_pad_defaults. cbn.
  destruct (axis_eqb (axis a) (axis b)), center; reflexivity.
Qed.

(** What [a.is_in(b)] answers on two intervals.  With an empty soft
    margin, [a.is_in(b)] is False when the axes differ.  [b] is first padded with
    [safe_mode] at its default, which replaces [b.start] by [max(0, b.start)];
    so on equal axes and [center=False] the result is True iff
    [max(0, b.start) <= a.start <= a.end <= b.end], and with [center=True] iff
    [max(0, b.start) <= (a.start + a.end) / 2 <= b.end].  For [b.start >= 0]
    these are the bounds [b.start <= ...] themselves.
    [Interval(5, 15).is_in(Interval(0, 10))] is False, and True with
    [center=True]. *)
Theorem Interval_is_in_Interval (a b : Interval) :
  (axis a <> axis b ->
     forall center,
       Interval_is_in a (VCoord (CInterval b)) pad_defaults center = Returns false []) /\
  (axis a = axis b ->
     (exists r,
        Interval_is_in a (VCoord (CInterval b)) pad_defaults false = Returns r [] /\
        (r = true <->
         0 <= start a /\ start b <= start a /\ start a <= end_ a /\ end_ a <= end_ b)) /\
     (exists r,
        Interval_is_in a (VCoord (CInterval b)) pad_defaults true = Returns r [] /\
        (r = true <->
         0 <= (start a + end_ a) / 2 /\ start b <= (start a + end_ a) / 2 /\
         (start a + end_ a) / 2 <= end_ b)) /\
     (0 <= start b ->
        (returned (Interval_is_in a (VCoord (CInterval b)) pad_defaults false) = Some true <->
         start b <= start a /\ start a <= end_ a /\ end_ a <= end_ b) /\
        (returned (Interval_is_in a (VCoord (CInterval b)) pad_defaults true) = Some true <->
         start b <= (start a + end_ a) / 2 /\ (start a + end_ a) / 2 <= end_ b))).
Proof.
  split; intro H.
  - intro center. rewrite Interval_is_in_Interval_defaults.
    apply axis_eqb_neq in H. rewrite H. reflexivity.
  - apply axis_eqb_eq in H.
    assert (E0 : forall x, py_max0 (start b - 0) <= x <-> 0 <= x /\ start b <= x).
    { intro x. rewrite py_max0_le. split; intros; split; lra. }
    repeat split.
    + eexists. split; [rewrite Interval_is_in_Interval_defaults, H; reflexivity|].
      cbn. rewrite chain4_iff, E0. split; intros; repeat split; lra.
    + eexists. split; [rewrite Interval_is_in_Interval_defaults, H; reflexivity|].
      cbn. unfold Interval_center. rewrite chain3_iff, E0.
      split; intros; repeat split; lra.
    + rewrite Interval_is_in_Interval_defaults, H in H1. cbn in H1.
      injection H1 as H1. apply chain4_iff in H1. rewrite E0 in H1. lra.
    + rewrite Interval_is_in_Interval_defaults, H in H1. cbn in H1.
      injection H1 as H1. apply chain4_iff in H1. lra.
    + rewrite Interval_is_in_Interval_defaults, H in H1. cbn in H1.
      injection H1 as H1. apply chain4_iff in H1. lra.
    + intro H1. rewrite Interval_is_in_Interval_defaults, H. cbn. f_equal.
      apply chain4_iff. rewrite E0. repeat split; lra.
    + rewrite Interval_is_in_Interval_defaults, H in H1. cbn in H1.
      injection H1 as H1. unfold Interval_center in H1.
      apply chain3_iff in H1. rewrite E0 in H1. lra.
    + rewrite Interval_is_in_Interval_defaults, H in H1. cbn in H1.
      injection H1 as H1. unfold Interval_center in H1.
      apply chain3_iff in H1. lra.
    + intro H1. rewrite Interval_is_in_Interval_defaults, H. cbn. f_equal.
      unfold Interval_center. apply chain3_iff. rewrite E0. repeat split; lra.
Qed.

(** The example of the specification, through the theorem: 15 > 10, and the
    midpoint 10 <= 10. *)
Lemma Interval_is_in_Interval_witness :
  returned (Interval_is_in (mkInterval 5 15 AxisX 0 0)
              (VCoord (CInterval (mkInterval 0 10 AxisX 0 0))) pad_defaults false)
    <> Some true /\
  returned (Interval_is_in (mkInterval 5 15 AxisX 0 0)
              (VCoord (CInterval (mkInterval 0 10 AxisX 0 0))) pad_defaults true)
    = Some true.
Proof.
  destruct (proj2 (Interval_is_in_Interval (mkInterval 5 15 AxisX 0 0)
                     (mkInterval 0 10 AxisX 0 0)) eq_refl) as (_ & _ & Hpos).
  destruct Hpos as [Hf Ht]; [vm_compute; discriminate|].
  split.
  - intro H. apply Hf in H. destruct H as (_ & _ & H).
    vm_compute in H. apply H. reflexivity.
  - apply Ht. split; vm_compute; discriminate.
Defined.

(** C4.  The code fails the claim at a container with a negative start:
    [Interval(-5, -1)] lies within [Interval(-10, 0)] on the same axis, that
    is [b.start <= a.start <= a.end <= b.end], yet [a.is_in(b)] answers
    False.  [is_in] pads the container by the empty soft margin, and [pad]
    runs with its default [safe_mode=True], which moves the start of the
    container, padded by nothing, from -10 to 0.  With [safe_mode=False] in
    the soft margin the same call answers True. *)
Theorem Interval_is_in_Interval_clamps_container :
  axis (mkInterval (-5) (-1) AxisX 0 0) = axis (mkInterval (-10) 0 AxisX 0 0) /\
  (start (mkInterval (-10) 0 AxisX 0 0) <= start (mkInterval (-5) (-1) AxisX 0 0) /\
   start (mkInterval (-5) (-1) AxisX 0 0) <= end_ (mkInterval (-5) (-1) AxisX 0 0) /\
   end_ (mkInterval (-5) (-1) AxisX 0 0) <= end_ (mkInterval (-10) 0 AxisX 0 0)) /\
  Interval_is_in (mkInterval (-5) (-1) AxisX 0 0)
    (VCoord (CInterval (mkInterval (-10) 0 AxisX 0 0))) pad_defaults false
  = Returns false [] /\
  Interval_pad (mkInterval (-10) 0 AxisX 0 0) pad_defaults
  = Returns (mkInterval 0 0 AxisX 0 0) [] /\
  Interval_is_in (mkInterval (-5) (-1) AxisX 0 0)
    (VCoord (CInterval (mkInterval (-10) 0 AxisX 0 0))) (mkPad 0 0 0 0 false) false
  = Returns true [].
Proof.
  split; [reflexivity|]. split; [repeat split; vm_compute; discriminate|].
  split; [reflexivity|]. split; vm_compute; reflexivity.
Qed.

(** Whether an amount was given as an int or as a float is nothing to the
    padding of an interval or of a rectangle. *)
Lemma pad_ignores_kinds (k : pad_kwargs) :
  (forall i : Interval,
     Interval_pad i k
     = Interval_pad i (mkPad (left k) (right k) (top k) (bottom k) (safe_mode k))) /\
  (forall r : Rectangle,
     Rectangle_pad r k
     = Rectangle_pad r (mkPad (left k) (right k) (top k) (bottom k) (safe_mode k))).
Proof. destruct k. split; reflexivity. Qed.

Lemma truthy_false_iff (v : Q) : truthy v = false <-> v == 0.
Proof.
  unfold truthy. rewrite negb_false_iff. apply Qeq_bool_iff.
Qed.

Lemma truthy_true_iff (v : Q) : truthy v = true <-> ~ v == 0.
Proof.
  rewrite <- truthy_false_iff. destruct (truthy v); split; congruence.
Qed.

(** C6.  [pad] with [safe_mode=True] clamps the minimum side only.  For an
    interval the padded start becomes [max(0, start)] and the padded end is
    kept as it is; for a rectangle [x_1] and [y_1] become [max(0, .)] and
    [x_2], [y_2] are kept.  Padding an interval on the two sides orthogonal
    to its axis moves neither start nor end (with [safe_mode] the start is
    still clamped); the call returns, with a warning when one of the two
    amounts is not zero. *)
Theorem pad_safe_mode_clamps_minimum_side :
  (forall (i : Interval) (l r t b : Q),
     exists u s ws,
       Interval_pad i (mkPad l r t b false) = Returns u ws /\
       Interval_pad i (mkPad l r t b true) = Returns s ws /\
       start u = match axis i with AxisX => start i - l | AxisY => start i - t end /\
       end_ u = match axis i with AxisX => end_ i + r | AxisY => end_ i + b end /\
       start s == Qmax 0 (start u) /\
       end_ s = end_ u) /\
  (forall (r : Rectangle) (l ri t b : Q),
     exists u s,
       Rectangle_pad r (mkPad l ri t b false) = Returns u [] /\
       Rectangle_pad r (mkPad l ri t b true) = Returns s [] /\
       u = mkRectangle (x_1 r - l) (y_1 r - t) (x_2 r + ri) (y_2 r + b) /\
       x_1 s == Qmax 0 (x_1 u) /\ y_1 s == Qmax 0 (y_1 u) /\
       x_2 s = x_2 u /\ y_2 s = y_2 u) /\
  (forall (i : Interval) (p q : Q) (sm : bool),
     exists i' ws,
       Interval_pad i (orthogonal_pad (axis i) p q sm) = Returns i' ws /\
       start i' == (if sm then Qmax 0 (start i) else start i) /\
       end_ i' == end_ i /\
       (p == 0 /\ q == 0 -> ws = []) /\
       (~ (p == 0 /\ q == 0) -> ws = [orthogonal_pad_warning (axis i)])).
Proof.
  split; [|split].
  - intros i l r t b. unfold Interval_pad. cbn [safe_mode top bottom left right].
    destruct (axis i).
    + destruct (truthy t || truthy b); do 3 eexists;
        (split; [reflexivity|]); (split; [reflexivity|]);
        cbn; repeat split; try reflexivity; apply py_max0_Qmax.
    + destruct (truthy l || truthy r); do 3 eexists;
        (split; [reflexivity|]); (split; [reflexivity|]);
        cbn; repeat split; try reflexivity; apply py_max0_Qmax.
  - intros r l ri t b. unfold Rectangle_pad. do 2 eexists.
    split; [reflexivity|]. split; [reflexivity|].
    cbn. repeat split; try reflexivity; apply py_max0_Qmax.
  - intros i p q sm. unfold Interval_pad, orthogonal_pad, orthogonal_pad_warning.
    destruct (axis i); cbn [safe_mode top bottom left right];
      destruct (truthy p) eqn:Ep, (truthy q) eqn:Eq_;
      try apply truthy_true_iff in Ep; try apply truthy_false_iff in Ep;
      try apply truthy_true_iff in Eq_; try apply truthy_false_iff in Eq_;
      do 2 eexists; (split; [reflexivity|]); cbn;
      (split; [destruct sm; [rewrite py_max0_Qmax; apply Q.max_compat|]; lra|]);
      (split; [lra|]); split; intro H; try reflexivity; tauto.
Qed.

Lemma pad_safe_mode_clamps_minimum_side_witness :
  (exists i', Interval_pad (mkInterval 3 8 AxisX 0 0) (mkPad 0 0 4 0 true)
              = Returns i' [InvalidPaddingTopBottom] /\
              start i' == 3 /\ end_ i' == 8) /\
  (exists i', Interval_pad (mkInterval 3 8 AxisY 0 0) (mkPad 0 0 0 0 false)
              = Returns i' [] /\
              start i' == 3 /\ end_ i' == 8).
Proof.
  split.
  - destruct (proj2 (proj2 pad_safe_mode_clamps_minimum_side)
                (mkInterval 3 8 AxisX 0 0) 4 0 true)
      as (i' & ws & E & Hs & He & _ & Hw).
    cbn [orthogonal_pad orthogonal_pad_warning axis start end_] in *.
    exists i'. rewrite E. split; [|split].
    + f_equal. apply Hw. vm_compute. intros [H _]. discriminate H.
    + rewrite Hs. vm_compute. reflexivity.
    + exact He.
  - destruct (proj2 (proj2 pad_safe_mode_clamps_minimum_side)
                (mkInterval 3 8 AxisY 0 0) 0 0 false)
      as (i' & ws & E & Hs & He & Hw & _).
    cbn [orthogonal_pad orthogonal_pad_warning axis start end_] in *.
    exists i'. rewrite E. split; [|split].
    + f_equal. apply Hw. split; reflexivity.
    + exact Hs.
    + exact He.
Defined.

(** ** Shift and scale *)

Lemma xy_components_bad_length (v : list Q) :
  List.length v <> 2%nat -> xy_components (Iterable v) = Raises AssertionError.
Proof.
  intro H. unfold xy_components.
  apply Nat.eqb_neq in H. rewrite H. reflexivity.
Qed.

Lemma xy_components_pair (x y : Q) :
  xy_components (Iterable [x; y]) = Returns (x, y) [].
Proof. reflexivity. Qed.

(** C7.  On a rectangle and on a quadrilateral, [shift] and [scale] given an
    iterable whose length is not 2 fail with the AssertionError of their
    validation; given one of length 2 they return, the first component
    applied to the x coordinates and the second to the y coordinates.  On an
    interval, [shift] and [scale] given a 2-component vector return: only the
    component of the interval's axis is used (index 0 for x, index 1 for y)
    and one warning is emitted. *)
Theorem shift_scale_vector_arguments :
  (forall (r : Rectangle) (q : Quadrilateral) (v : list Q),
     List.length v <> 2%nat ->
     Rectangle_shift r (Iterable v) = Raises AssertionError /\
     Rectangle_scale r (Iterable v) = Raises AssertionError /\
     Quadrilateral_shift q (Iterable v) = Raises AssertionError /\
     Quadrilateral_scale q (Iterable v) = Raises AssertionError) /\
  (forall (r : Rectangle) (x y : Q),
     Rectangle_shift r (Iterable [x; y]) =
       Returns (mkRectangle (x_1 r + x) (y_1 r + y) (x_2 r + x) (y_2 r + y)) [] /\
     Rectangle_scale r (Iterable [x; y]) =
       Returns (mkRectangle (x_1 r * x) (y_1 r * y) (x_2 r * x) (y_2 r * y)) []) /\
  (forall (q : Quadrilateral) (x y : Q),
     Quadrilateral_shift q (Iterable [x; y]) =
       Returns (mkQuadrilateral (map (fun p => (fst p + x, snd p + y)) (_points q))
                                (_height q) (_width q)) [] /\
     Quadrilateral_scale q (Iterable [x; y]) =
       Returns (mkQuadrilateral (map (fun p => (fst p * x, snd p * y)) (_points q))
                                (_height q) (_width q)) []) /\
  (forall (i : Interval) (x y : Q),
     Interval_shift i (Iterable [x; y]) =
       Returns (mkInterval (start i + own_component (axis i) x y)
                           (end_ i + own_component (axis i) x y)
                           (axis i) (canvas_height i) (canvas_width i))
               [ShiftMultipleAxes (axis i)] /\
     Interval_scale i (Iterable [x; y]) =
       Returns (mkInterval (start i * own_component (axis i) x y)
                           (end_ i * own_component (axis i) x y)
                           (axis i) (canvas_height i) (canvas_width i))
               [ScaleMultipleAxes (axis i)]).
Proof.
  split; [|split; [|split]].
  - intros r q v H.
    unfold Rectangle_shift, Rectangle_scale, Quadrilateral_shift, Quadrilateral_scale.
    rewrite (xy_components_bad_length v H). repeat split; reflexivity.
  - intros r x y. split; reflexivity.
  - intros q x y. split; reflexivity.
  - intros i x y.
    unfold Interval_shift, Interval_scale, axis_component, Interval_set_start_end.
    destruct (axis i); split; reflexivity.
Qed.

Lemma shift_scale_vector_arguments_witness :
  Rectangle_shift (mkRectangle 0 0 1 1) (Iterable [1; 2; 3]) = Raises AssertionError /\
  Quadrilateral_scale (mkQuadrilateral [(0, 0); (1, 0); (1, 1); (0, 1)] None None)
                      (Iterable [2]) = Raises AssertionError.
Proof.
  split.
  - apply (proj1 shift_scale_vector_arguments (mkRectangle 0 0 1 1)
             (mkQuadrilateral [] None None) [1; 2; 3]).
    simpl. discriminate.
  - apply (proj1 shift_scale_vector_arguments (mkRectangle 0 0 1 1)
             (mkQuadrilateral [(0, 0); (1, 0); (1, 1); (0, 1)] None None) [2]).
    simpl. discriminate.
Defined.

(** ** Equality of quadrilaterals *)

Lemma isclose_iff (a b : Q) :
  isclose a b = true <-> Qabs (a - b) <= atol + rtol * Qabs b.
Proof. unfold isclose. apply Qle_bool_iff. Qed.

Lemma isclose_refl (a : Q) : isclose a a = true.
Proof.
  apply isclose_iff.
  assert (E : a - a == 0) by ring. rewrite E.
  assert (H := Qabs_nonneg a).
  unfold atol, rtol. change (Qabs 0) with 0.
  assert (0 <= (1 # 100000) * Qabs a) by (apply Qmult_le_0_compat; [discriminate|exact H]).
  assert (0 <= 1 # 100000000) by discriminate.
  lra.
Qed.

Lemma forallb_close_iff (a b : points) :
  List.length a = List.length b ->
  forallb (fun pq => isclose (fst (fst pq)) (fst (snd pq)) &&
                     isclose (snd (fst pq)) (snd (snd pq))) (combine a b) = true
  <-> Forall2 close_points a b.
Proof.
  revert b. induction a as [|p a IH]; intros [|q b] Hlen; try discriminate.
  - simpl. split; [constructor | reflexivity].
  - simpl in Hlen. injection Hlen as Hlen. cbn [combine forallb fst snd].
    rewrite !andb_true_iff, !isclose_iff, (IH b Hlen).
    split.
    + intros [[H1 H2] H3]. constructor; [split; assumption | assumption].
    + intro H. inversion H as [|? ? ? ? [H1 H2] H3]; subst. tauto.
Qed.

Lemma allclose_refl (p : points) : allclose p p = Returns true [].
Proof.
  unfold allclose. rewrite Nat.eqb_refl. unfold ret. f_equal.
  induction p as [|x p IH]; [reflexivity|].
  cbn [combine forallb fst snd]. rewrite !isclose_refl, IH. reflexivity.
Qed.

(** C9.  [Quadrilateral.__eq__] looks at the class and at the two point
    arrays only: two quadrilaterals on the same points are equal whatever
    their logical heights and widths, a value of any other class is unequal,
    and in general the answer is that of the elementwise comparison of the
    points within numpy's tolerance. *)
Theorem Quadrilateral_eq_points_only :
  (forall (p : points) (h1 w1 h2 w2 : option Q),
     Quadrilateral_eq (mkQuadrilateral p h1 w1)
                      (VCoord (CQuadrilateral (mkQuadrilateral p h2 w2)))
     = Returns true []) /\
  (forall (q : Quadrilateral) (other : pyvalue),
     is_Quadrilateral other = false -> Quadrilateral_eq q other = Returns false []) /\
  (forall (q o : Quadrilateral),
     List.length (_points q) = List.length (_points o) ->
     exists r,
       Quadrilateral_eq q (VCoord (CQuadrilateral o)) = Returns r [] /\
       (r = true <-> Forall2 close_points (_points q) (_points o))).
Proof.
  split; [|split].
  - intros. cbn. apply allclose_refl.
  - intros q other H. destruct other as [[ | | ]| | ]; try reflexivity; discriminate.
  - intros q o H. cbn. unfold allclose, Quadrilateral_points.
    rewrite H, Nat.eqb_refl. eexists. split; [reflexivity|].
    apply forallb_close_iff. exact H.
Qed.

Lemma Quadrilateral_eq_points_only_witness :
  Quadrilateral_eq (mkQuadrilateral [(0, 0); (1, 0); (1, 1); (0, 1)] (Some 5) (Some 7))
                   (VCoord (CRectangle (mkRectangle 0 0 1 1))) = Returns false [] /\
  Quadrilateral_eq (mkQuadrilateral [(0, 0); (1, 0); (1, 1); (0, 1)] (Some 5) (Some 7))
                   (VTextBlock (mkTextBlock
                      (CQuadrilateral (mkQuadrilateral [(0, 0); (1, 0); (1, 1); (0, 1)]
                                         (Some 5) (Some 7)))
                      EmptyString None None None None None)) = Returns false [].
Proof.
  split; apply (proj1 (proj2 Quadrilateral_eq_points_only)); reflexivity.
Defined.

(** ** Filtering a layout *)

Lemma filter_by_loop_spec (other : pyvalue) (sm : pad_kwargs) (center : bool)
    (eles : list pyvalue) :
  (forall e, In e eles -> exists b ws, value_is_in e other sm center = Returns b ws) ->
  forall acc, exists ws,
    filter_by_loop eles acc other sm center =
    Returns (acc ++ filter (fun e => holds (value_is_in e other sm center)) eles) ws.
Proof.
  induction eles as [|ele rest IH]; intros Hret acc.
  - exists []. cbn. rewrite app_nil_r. reflexivity.
  - destruct (Hret ele (or_introl eq_refl)) as (b & ws & E).
    assert (Hrest : forall e, In e rest ->
              exists b ws, value_is_in e other sm center = Returns b ws)
      by (intros e He; apply Hret; right; exact He).
    cbn [filter_by_loop filter]. rewrite E. cbn [holds bind].
    destruct (IH Hrest (if b then acc ++ [ele] else acc)) as (ws' & E').
    rewrite E'. exists (ws ++ ws'). f_equal.
    destruct b; [rewrite <- app_assoc|]; reflexivity.
Qed.

Lemma filter_by_loop_raises (other : pyvalue) (sm : pad_kwargs) (center : bool)
    (eles : list pyvalue) :
  (exists e ex, In e eles /\ value_is_in e other sm center = Raises ex) ->
  forall acc, exists ex, filter_by_loop eles acc other sm center = Raises ex.
Proof.
  induction eles as [|ele rest IH]; intros (e & ex & Hin & E) acc.
  - destruct Hin.
  - cbn [filter_by_loop].
    destruct (value_is_in ele other sm center) as [b ws|ex'] eqn:E1.
    + destruct Hin as [<-|Hin]; [congruence|].
      destruct (IH (ex_intro _ e (ex_intro _ ex (conj Hin E)))
                   (if b then acc ++ [ele] else acc)) as (ex2 & E2).
      cbn [bind]. rewrite E2. exists ex2. reflexivity.
    + exists ex'. reflexivity.
Qed.

(** C8.  [L.filter_by(other, ...)] returns exactly the members [e] of [L]
    for which [e.is_in(other, ...)] is True, in the order in which they occur
    in [L]: the result is [L] filtered by [is_in].  (Every [is_in] call must
    itself return; an exception of one of them is the exception of
    [filter_by].) *)
Theorem Layout_filter_by_is_in (L : Layout) (other : pyvalue)
    (soft_margin : pad_kwargs) (center : bool)
    (Hret : forall e, In e L ->
              exists b ws, value_is_in e other soft_margin center = Returns b ws) :
  exists ws,
    Layout_filter_by L other soft_margin center =
    Returns (filter (fun e => holds (value_is_in e other soft_margin center)) L) ws.
Proof.
  unfold Layout_filter_by.
  destruct (filter_by_loop_spec other soft_margin center L Hret []) as (ws & E).
  exists ws. exact E.
Qed.

Lemma Layout_filter_by_is_in_witness :
  exists ws,
    Layout_filter_by example_layout (VCoord (CRectangle (mkRectangle 0 0 30 30)))
                     pad_defaults false =
    Returns [ VCoord (CRectangle (mkRectangle 10 10 20 20));
              VTextBlock (mkTextBlock (CRectangle (mkRectangle 1 2 3 4))
                                      EmptyString (Some 7%Z) None None None None) ] ws.
Proof.
  apply (Layout_filter_by_is_in example_layout
           (VCoord (CRectangle (mkRectangle 0 0 30 30))) pad_defaults false).
  intros e He. simpl in He.
  destruct He as [<-|[<-|[<-|[<-|[]]]]]; do 2 eexists; vm_compute; reflexivity.
Defined.

(** ** Ranks of four entries *)

Lemma argsort4_congr {A B} (leb : A -> A -> bool) (leb' : B -> B -> bool)
    (a b c d : A) (a' b' c' d' : B) :
  leb a b = leb' a' b' -> leb a c = leb' a' c' -> leb a d = leb' a' d' ->
  leb b c = leb' b' c' -> leb b d = leb' b' d' -> leb c d = leb' c' d' ->
  argsort leb [a; b; c; d] = argsort leb' [a'; b'; c'; d'].
Proof.
  intros Hab Hac Had Hbc Hbd Hcd. unfold argsort. cbn.
  rewrite <- Hab.
  destruct (leb a b); cbn; rewrite <- ?Hac, <- ?Hbc;
    destruct (leb a c); cbn; rewrite <- ?Hac, <- ?Hbc;
    destruct (leb b c); cbn; rewrite <- ?Had, <- ?Hbd, <- ?Hcd;
    destruct (leb a d); cbn; rewrite <- ?Had, <- ?Hbd, <- ?Hcd;
    destruct (leb b d); cbn; rewrite <- ?Had, <- ?Hbd, <- ?Hcd;
    destruct (leb c d); cbn; reflexivity.
Qed.

Ltac Qbool_to_Prop :=
  repeat match goal with
         | H : Qle_bool _ _ = true |- _ => apply Qle_bool_iff in H
         | H : Qle_bool _ _ = false |- _ => apply Qle_bool_false_iff in H
         end.

Ltac Qbool_goal :=
  match goal with
  | |- true = Qle_bool _ _ => symmetry; apply Qle_bool_iff
  | |- false = Qle_bool _ _ => symmetry; apply Qle_bool_false_iff
  | |- Qle_bool _ _ = true => apply Qle_bool_iff
  | |- Qle_bool _ _ = false => apply Qle_bool_false_iff
  end.

Lemma as_int_opp (v : Q) : as_int (- v) = - as_int v.
Proof.
  destruct v as [n d]. unfold as_int, py_int, Qopp. cbn [Qnum Qden].
  rewrite Z.quot_opp_l by discriminate. reflexivity.
Qed.

Lemma as_int_nonneg (v : Q) : 0 <= v -> 0 <= as_int v.
Proof.
  destruct v as [n d]. unfold as_int, py_int, Qle, inject_Z. cbn [Qnum Qden].
  intro H. assert (0 <= n)%Z by lia.
  assert (0 <= n ÷ Z.pos d)%Z by (apply Z.quot_pos; lia). lia.
Qed.

Lemma as_int_nonpos (v : Q) : v <= 0 -> as_int v <= 0.
Proof.
  intro H. assert (H' : 0 <= as_int (- v)) by (apply as_int_nonneg; lra).
  rewrite as_int_opp in H'. lra.
Qed.

Lemma as_int_0 : as_int 0 = 0.
Proof. reflexivity. Qed.

Lemma as_int_Qeq (a b : Q) : a == b -> as_int a = as_int b.
Proof.
  destruct a as [n d], b as [n' d']. unfold Qeq, as_int, py_int. cbn [Qnum Qden].
  intro E. f_equal.
  rewrite <- (Z.quot_mul_cancel_r n (Z.pos d) (Z.pos d')) by discriminate.
  rewrite <- (Z.quot_mul_cancel_r n' (Z.pos d') (Z.pos d)) by discriminate.
  rewrite E. f_equal. apply Z.mul_comm.
Qed.

Lemma is_whole_iff (v : Q) : is_whole v = true <-> as_int v == v.
Proof. unfold is_whole. apply Qeq_bool_iff. Qed.

Lemma is_int_opp (v : Q) (f : bool) : is_int (- v) f = is_int v f.
Proof.
  unfold is_int, is_whole. f_equal. rewrite as_int_opp.
  destruct (Qeq_bool (as_int v) v) eqn:E.
  - apply Qeq_bool_iff in E. apply Qeq_bool_iff. lra.
  - destruct (Qeq_bool (- as_int v) (- v)) eqn:E'; [|reflexivity].
    apply Qeq_bool_iff in E'.
    assert (E2 : Qeq_bool (as_int v) v = true) by (apply Qeq_bool_iff; lra).
    congruence.
Qed.

Lemma low_key_hd (l : list Q) : low_key (hd 0%nat (ranks l)) = hd true (sides l).
Proof. unfold sides. destruct (ranks l); reflexivity. Qed.

(** What [np.vectorize] looks up for a column of four entries. *)
Lemma vectorize_ranks4 (a b c d lo hi : Q) (int_key : nat -> bool) :
  np_vectorize_get (dict4_get lo lo hi hi) int_key (ranks [a; b; c; d])
  = Returns (deltas (int_key (hd 0%nat (ranks [a; b; c; d]))) lo hi
                    (sides [a; b; c; d])) [].
Proof.
  unfold sides, deltas, cast.
  destruct (Qle_bool a b) eqn:Hab, (Qle_bool a c) eqn:Hac, (Qle_bool a d) eqn:Had,
           (Qle_bool b c) eqn:Hbc, (Qle_bool b d) eqn:Hbd, (Qle_bool c d) eqn:Hcd.
  all: unfold ranks, argsort; cbn;
       do 3 (rewrite ?Hab, ?Hac, ?Had, ?Hbc, ?Hbd, ?Hcd; cbn);
       match goal with |- context [if ?c then _ else _] => destruct c end;
       reflexivity.
Qed.

Lemma sides4_shape (a b c d : Q) :
  exists s0 s1 s2 s3, sides [a; b; c; d] = [s0; s1; s2; s3].
Proof.
  unfold sides.
  destruct (Qle_bool a b) eqn:Hab, (Qle_bool a c) eqn:Hac, (Qle_bool a d) eqn:Had,
           (Qle_bool b c) eqn:Hbc, (Qle_bool b d) eqn:Hbd, (Qle_bool c d) eqn:Hcd.
  all: unfold ranks, argsort; cbn;
       do 3 (rewrite ?Hab, ?Hac, ?Had, ?Hbc, ?Hbd, ?Hcd; cbn);
       do 4 eexists; reflexivity.
Qed.

Lemma deltas_opp (int : bool) (lo hi : Q) (sd : list bool) :
  deltas int (- lo) (- hi) sd = map Qopp (deltas int lo hi sd).
Proof.
  unfold deltas, cast. rewrite map_map. apply map_ext.
  intros [|]; destruct int; rewrite ?as_int_opp; reflexivity.
Qed.

Lemma deltas_cast (int : bool) (lo hi : Q) (sd : list bool) :
  deltas int lo hi sd = deltas false (cast int lo) (cast int hi) sd.
Proof. unfold deltas. apply map_ext. intros [|]; reflexivity. Qed.

(** Padding a column back: when the padded entries are on the sides they
    were on, the second call looks up the opposite deltas. *)
Lemma pad_column_back (a b c d lo hi : Q) (A B : bool) (da db dc dd : Q) :
  np_vectorize_get (dict4_get lo lo hi hi) (fun key => if low_key key then A else B)
                   (ranks [a; b; c; d]) = Returns [da; db; dc; dd] [] ->
  sides [a + da; b + db; c + dc; d + dd] = sides [a; b; c; d] ->
  np_vectorize_get (dict4_get (- lo) (- lo) (- hi) (- hi))
                   (fun key => if low_key key then A else B)
                   (ranks [a + da; b + db; c + dc; d + dd])
  = Returns [- da; - db; - dc; - dd] [].
Proof.
  intros E Hs. rewrite vectorize_ranks4 in E |- *.
  rewrite low_key_hd in E |- *. rewrite Hs, deltas_opp.
  injection E as ->. reflexivity.
Qed.

(** Amounts that widen the column leave the ranks as they are. *)
Lemma ranks4_widened (a b c d lo hi : Q) (da db dc dd : Q) :
  lo <= 0 -> 0 <= hi ->
  deltas false lo hi (sides [a; b; c; d]) = [da; db; dc; dd] ->
  ranks [a + da; b + db; c + dc; d + dd] = ranks [a; b; c; d].
Proof.
  intros Hlo Hhi. unfold sides, deltas, cast.
  destruct (Qle_bool a b) eqn:Hab, (Qle_bool a c) eqn:Hac, (Qle_bool a d) eqn:Had,
           (Qle_bool b c) eqn:Hbc, (Qle_bool b d) eqn:Hbd, (Qle_bool c d) eqn:Hcd.
  all: intro E; unfold ranks, argsort in E; cbn in E;
       do 3 (rewrite ?Hab, ?Hac, ?Had, ?Hbc, ?Hbd, ?Hcd in E; cbn in E);
       injection E as <- <- <- <-;
       unfold ranks; f_equal; apply argsort4_congr;
       rewrite ?Hab, ?Hac, ?Had, ?Hbc, ?Hbd, ?Hcd;
       Qbool_goal; Qbool_to_Prop; lra.
Qed.

Lemma pad_column_widened (a b c d lo hi : Q) (A B : bool) (da db dc dd : Q) :
  lo <= 0 -> 0 <= hi ->
  np_vectorize_get (dict4_get lo lo hi hi) (fun key => if low_key key then A else B)
                   (ranks [a; b; c; d]) = Returns [da; db; dc; dd] [] ->
  sides [a + da; b + db; c + dc; d + dd] = sides [a; b; c; d].
Proof.
  intros Hlo Hhi E. rewrite vectorize_ranks4, deltas_cast in E.
  injection E as E. unfold sides. f_equal.
  apply (ranks4_widened a b c d _ _ da db dc dd) in E; [exact E| |];
    unfold cast; destruct (if low_key _ then A else B);
    auto using as_int_nonpos, as_int_nonneg.
Qed.

(** [Quadrilateral.pad] on four points, without [safe_mode]. *)
Lemma Quadrilateral_pad_four (p0 p1 p2 p3 : point) (h w : option Q)
    (k : pad_kwargs) :
  safe_mode k = false ->
  exists da db dc dd ea eb ec ed,
    np_vectorize_get (dict4_get (- left k) (- left k) (right k) (right k))
      (fun key => if low_key key then is_int (left k) (left_float k)
                  else is_int (right k) (right_float k))
      (ranks [fst p0; fst p1; fst p2; fst p3]) = Returns [da; db; dc; dd] [] /\
    np_vectorize_get (dict4_get (- top k) (- top k) (bottom k) (bottom k))
      (fun key => if low_key key then is_int (top k) (top_float k)
                  else is_int (bottom k) (bottom_float k))
      (ranks [snd p0; snd p1; snd p2; snd p3]) = Returns [ea; eb; ec; ed] [] /\
    Quadrilateral_pad (mkQuadrilateral [p0; p1; p2; p3] h w) k
    = Returns (mkQuadrilateral
                 [(fst p0 + da, snd p0 + ea); (fst p1 + db, snd p1 + eb);
                  (fst p2 + dc, snd p2 + ec); (fst p3 + dd, snd p3 + ed)] h w) [].
Proof.
  intro Hs.
  unfold Quadrilateral_pad, Quadrilateral_map_to_points_ordering,
    Quadrilateral_set_points, Quadrilateral_points.
  cbn [_points _height _width column0 column1 map]. rewrite Hs.
  rewrite !vectorize_ranks4.
  destruct (sides4_shape (fst p0) (fst p1) (fst p2) (fst p3)) as (s0 & s1 & s2 & s3 & ->).
  destruct (sides4_shape (snd p0) (snd p1) (snd p2) (snd p3)) as (t0 & t1 & t2 & t3 & ->).
  unfold deltas. cbn [map].
  do 8 eexists. split; [reflexivity|]. split; [reflexivity|].
  reflexivity.
Qed.

(** ** Padding and padding back *)

Lemma isclose_Qeq (a b : Q) : a == b -> isclose a b = true.
Proof.
  intro E. apply isclose_iff.
  assert (E0 : a - b == 0) by lra. rewrite E0.
  assert (H := Qabs_nonneg b).
  unfold atol, rtol. change (Qabs 0) with 0.
  assert (0 <= (1 # 100000) * Qabs b) by (apply Qmult_le_0_compat; [discriminate|exact H]).
  assert (0 <= 1 # 100000000) by discriminate.
  lra.
Qed.

Lemma allclose_points_eq (ps qs : points) :
  points_eq ps qs -> allclose ps qs = Returns true [].
Proof.
  intro H. unfold allclose.
  rewrite (Forall2_length H), Nat.eqb_refl. unfold ret. f_equal.
  induction H as [|p q ps qs [Hx Hy] _ IH]; [reflexivity|].
  cbn [combine forallb fst snd].
  rewrite (isclose_Qeq _ _ Hx), (isclose_Qeq _ _ Hy), IH. reflexivity.
Qed.

(** C5, as the code has it.  In exact arithmetic and with
    [safe_mode=False], padding by [l, r, t, b] and then by [-l, -r, -t, -b]
    gives back an element equal to the original one: for every interval and
    every rectangle and all amounts; for a quadrilateral of four points
    whenever the first padding leaves every point on its side on both axes
    (among the two lowest or the two highest in rank), as every padding by
    amounts that are not negative does.  A quadrilateral assigns the deltas
    by the ranks of its points' x and y coordinates, which the second call
    takes afresh from the padded points. *)
Theorem pad_round_trip_restores :
  (forall (i : Interval) (k : pad_kwargs),
     safe_mode k = false ->
     exists i' ws,
       pad_round_trip (CInterval i) k = Returns (CInterval i') ws /\
       coord_eq (CInterval i') (CInterval i) = Returns true []) /\
  (forall (r : Rectangle) (k : pad_kwargs),
     safe_mode k = false ->
     exists r',
       pad_round_trip (CRectangle r) k = Returns (CRectangle r') [] /\
       coord_eq (CRectangle r') (CRectangle r) = Returns true []) /\
  (forall (p0 p1 p2 p3 : point) (h w : option Q) (k : pad_kwargs)
          (q1 : Quadrilateral),
     safe_mode k = false ->
     Quadrilateral_pad (mkQuadrilateral [p0; p1; p2; p3] h w) k = Returns q1 [] ->
     sides (column0 (_points q1)) = sides (column0 [p0; p1; p2; p3]) ->
     sides (column1 (_points q1)) = sides (column1 [p0; p1; p2; p3]) ->
     exists q',
       pad_round_trip (CQuadrilateral (mkQuadrilateral [p0; p1; p2; p3] h w)) k
         = Returns (CQuadrilateral q') [] /\
       points_eq (_points q') [p0; p1; p2; p3] /\
       coord_eq (CQuadrilateral q')
                (CQuadrilateral (mkQuadrilateral [p0; p1; p2; p3] h w))
       = Returns true []) /\
  (forall (p0 p1 p2 p3 : point) (h w : option Q) (k : pad_kwargs),
     safe_mode k = false ->
     0 <= left k -> 0 <= right k -> 0 <= top k -> 0 <= bottom k ->
     exists q',
       pad_round_trip (CQuadrilateral (mkQuadrilateral [p0; p1; p2; p3] h w)) k
         = Returns (CQuadrilateral q') [] /\
       points_eq (_points q') [p0; p1; p2; p3] /\
       coord_eq (CQuadrilateral q')
                (CQuadrilateral (mkQuadrilateral [p0; p1; p2; p3] h w))
       = Returns true []).
Proof.
  assert (Quad : forall (p0 p1 p2 p3 : point) (h w : option Q) (k : pad_kwargs)
                        (q1 : Quadrilateral),
     safe_mode k = false ->
     Quadrilateral_pad (mkQuadrilateral [p0; p1; p2; p3] h w) k = Returns q1 [] ->
     sides (column0 (_points q1)) = sides (column0 [p0; p1; p2; p3]) ->
     sides (column1 (_points q1)) = sides (column1 [p0; p1; p2; p3]) ->
     exists q',
       pad_round_trip (CQuadrilateral (mkQuadrilateral [p0; p1; p2; p3] h w)) k
         = Returns (CQuadrilateral q') [] /\
       points_eq (_points q') [p0; p1; p2; p3] /\
       coord_eq (CQuadrilateral q')
                (CQuadrilateral (mkQuadrilateral [p0; p1; p2; p3] h w))
       = Returns true []).
  { intros p0 p1 p2 p3 h w k q1 Hs E HX HY.
    destruct (Quadrilateral_pad_four p0 p1 p2 p3 h w k Hs)
      as (da & db & dc & dd & ea & eb & ec & ed & X1 & Y1 & E1).
    rewrite E1 in E. injection E as <-.
    cbn [_points column0 column1 map fst snd] in HX, HY.
    assert (X2 := pad_column_back _ _ _ _ _ _ _ _ _ _ _ _ X1 HX).
    assert (Y2 := pad_column_back _ _ _ _ _ _ _ _ _ _ _ _ Y1 HY).
    unfold pad_round_trip, coord_pad. rewrite E1. cbn [bind ret app].
    unfold Quadrilateral_pad, negated_pad, Quadrilateral_map_to_points_ordering,
      Quadrilateral_set_points, Quadrilateral_points.
    cbn [safe_mode top bottom left right left_float right_float top_float
         bottom_float _points _height _width column0 column1 map fst snd].
    rewrite Hs, !is_int_opp, X2, Y2.
    cbn [bind ret app combine zip_with point_add fst snd
         _points _height _width column0 column1 map].
    eexists. split; [reflexivity|].
    assert (P : points_eq
                  [(fst p0 + da + - da, snd p0 + ea + - ea);
                   (fst p1 + db + - db, snd p1 + eb + - eb);
                   (fst p2 + dc + - dc, snd p2 + ec + - ec);
                   (fst p3 + dd + - dd, snd p3 + ed + - ed)]
                  [p0; p1; p2; p3]).
    { repeat (apply Forall2_cons; [split; cbn [fst snd]; lra|]). apply Forall2_nil. }
    split; [exact P|].
    cbn [coord_eq Quadrilateral_eq Quadrilateral_points _points].
    apply allclose_points_eq. exact P. }
  split; [|split; [|split]].
  - intros i [l r t b s fl fr ft fb] Hs. cbn in Hs. subst s.
    unfold pad_round_trip, coord_pad, Interval_pad, negated_pad, Interval_set_start_end.
    cbn [safe_mode top bottom left right].
    destruct (axis i) eqn:Ea;
      [destruct (truthy t || truthy b), (truthy (- t) || truthy (- b))
      |destruct (truthy l || truthy r), (truthy (- l) || truthy (- r))];
      cbn; rewrite ?Ea; cbn; do 2 eexists; (split; [reflexivity|]);
      cbn; unfold Interval_eq; cbn; unfold ret; f_equal;
      rewrite !andb_true_iff, !Qeq_bool_iff; rewrite Ea;
      repeat split; lra.
  - intros r [l ri t b s fl fr ft fb] Hs. cbn in Hs. subst s.
    unfold pad_round_trip, coord_pad, Rectangle_pad, negated_pad.
    cbn. eexists. split; [reflexivity|].
    cbn. unfold Rectangle_eq, ret. cbn. f_equal.
    rewrite !andb_true_iff, !Qeq_bool_iff. repeat split; lra.
  - exact Quad.
  - intros p0 p1 p2 p3 h w k Hs Hl Hr Ht Hb.
    destruct (Quadrilateral_pad_four p0 p1 p2 p3 h w k Hs)
      as (da & db & dc & dd & ea & eb & ec & ed & X1 & Y1 & E1).
    apply (Quad _ _ _ _ h w k _ Hs E1);
      cbn [_points column0 column1 map fst snd].
    + refine (pad_column_widened _ _ _ _ _ _ _ _ _ _ _ _ _ Hr X1); lra.
    + refine (pad_column_widened _ _ _ _ _ _ _ _ _ _ _ _ _ Hb Y1); lra.
Qed.

Lemma pad_round_trip_restores_witness :
  (exists q',
     pad_round_trip
       (CQuadrilateral (mkQuadrilateral [(0, 0); (10, 1); (9, 8); (1, 7)] None None))
       (mkPad 2 3 4 5 false) = Returns (CQuadrilateral q') [] /\
     points_eq (_points q') [(0, 0); (10, 1); (9, 8); (1, 7)]) /\
  (exists q',
     pad_round_trip (CQuadrilateral example_square) (mkPad (-20) 30 0 0 false)
       = Returns (CQuadrilateral q') [] /\
     points_eq (_points q') [(0, 0); (10, 0); (10, 10); (0, 10)]) /\
  (exists q',
     pad_round_trip (CQuadrilateral example_square) (mkPad (-2) (-3) (-1) (-4) false)
       = Returns (CQuadrilateral q') [] /\
     points_eq (_points q') [(0, 0); (10, 0); (10, 10); (0, 10)]).
Proof.
  split; [|split].
  - destruct (proj2 (proj2 (proj2 pad_round_trip_restores))
                (0, 0) (10, 1) (9, 8) (1, 7) None None (mkPad 2 3 4 5 false))
      as (q' & E & P & _); try (vm_compute; discriminate); [reflexivity|].
    exists q'. split; assumption.
  - destruct (proj1 (proj2 (proj2 pad_round_trip_restores))
                (0, 0) (10, 0) (10, 10) (0, 10) None None (mkPad (-20) 30 0 0 false)
                (mkQuadrilateral [(20, 0); (40, 0); (40, 10); (20, 10)] None None))
      as (q' & E & P & _); try reflexivity.
    exists q'. split; assumption.
  - destruct (proj1 (proj2 (proj2 pad_round_trip_restores))
                (0, 0) (10, 0) (10, 10) (0, 10) None None
                (mkPad (-2) (-3) (-1) (-4) false)
                (mkQuadrilateral [(2, 1); (7, 1); (7, 6); (2, 6)] None None))
      as (q' & E & P & _); try reflexivity.
    exists q'. split; assumption.
Defined.

(** C5, as stated, fails on a quadrilateral: padding the square
    [(0,0), (10,0), (10,10), (0,10)] by [left=-20] moves its two left points
    past the right ones, so that padding by [left=20] then moves the other
    two points; the result is not the square. *)
Lemma pad_round_trip_stated_fails :
  pad_round_trip (CQuadrilateral example_square) (mkPad (-20) 0 0 0 false)
  = Returns (CQuadrilateral
               (mkQuadrilateral [(20, 0); (-10, 0); (-10, 10); (20, 10)] None None)) [] /\
  coord_eq (CQuadrilateral
              (mkQuadrilateral [(20, 0); (-10, 0); (-10, 10); (20, 10)] None None))
           (CQuadrilateral example_square)
  = Returns false [].
Proof. split; vm_compute; reflexivity. Qed.

(** ** The perspective transformation, point by point *)

Lemma linalg_inv_regular (M : matrix3) :
  ~ det3 M == 0 -> linalg_inv M = Returns (inverse3 M) [].
Proof.
  intro H. unfold linalg_inv.
  destruct (Qeq_bool (det3 M) 0) eqn:E; [|reflexivity].
  apply Qeq_bool_iff in E. contradiction.
Qed.


(** On a regular matrix [linalg_inv] returns the inverse. *)
Lemma inverse3_inverse (M : matrix3) :
  ~ det3 M == 0 ->
  matrix3_eq (mul3 M (inverse3 M)) identity3 /\
  matrix3_eq (mul3 (inverse3 M) M) identity3.
Proof.
  destruct M as [a b c d e f g h i]. unfold det3, matrix3_eq, mul3, inverse3, det3.
  cbn [m00 m01 m02 m10 m11 m12 m20 m21 m22 identity3]. intro Hd.
  repeat split; field; exact Hd.
Qed.

Lemma map_nth_seq {A B} (g : A -> B) (d : A) (l : list A) :
  map (fun j => g (nth j l d)) (seq 0 (List.length l)) = map g l.
Proof.
  induction l as [|x l IH]; [reflexivity|].
  cbn [List.length seq map nth]. f_equal.
  rewrite <- seq_shift, map_map. exact IH.
Qed.

Lemma map_seq_nth_map {A B C} (f : A -> B) (g : B -> C) (d : B) (l : list A) :
  map (fun j => g (nth j (map f l) d)) (seq 0 (List.length l)) = map (fun x => g (f x)) l.
Proof.
  rewrite <- (map_map f g). rewrite <- (map_nth_seq g d (map f l)).
  rewrite length_map. reflexivity.
Qed.

Lemma zip_with_map {A B C D} (f : B -> C -> D) (g : A -> B) (h : A -> C) (l : list A) :
  zip_with f (map g l) (map h l) = map (fun x => f (g x) (h x)) l.
Proof. induction l as [|x l IH]; [reflexivity|]. cbn. rewrite IH. reflexivity. Qed.

Lemma nth_map_lt {A B} (g : A -> B) (d : A) (d' : B) (l : list A) (j : nat) :
  (j < List.length l)%nat -> nth j (map g l) d' = g (nth j l d).
Proof.
  intro H. rewrite (nth_indep (map g l) d' (g d)) by (rewrite length_map; exact H).
  apply map_nth.
Qed.

Lemma map_seq_ext {A B} (f : nat -> B) (g : A -> B) (d : A) (l : list A) :
  (forall j, (j < List.length l)%nat -> f j = g (nth j l d)) ->
  map f (seq 0 (List.length l)) = map g l.
Proof.
  intro H. rewrite <- (map_nth_seq g d l).
  apply map_ext_in. intros j Hj. apply in_seq in Hj. apply H. lia.
Qed.

(** Row [r] of the matrix times the columns of the 3 x n source matrix. *)
Lemma matmul_row (r : list Q) (ps : points) :
  map (fun j => dot r (column j (transpose 3 (map (fun p => [fst p; snd p; 1]) ps))))
      (seq 0 (List.length ps))
  = map (fun p => dot r [fst p; snd p; 1]) ps.
Proof.
  apply (map_seq_ext _ _ (0, 0)). intros j Hj.
  unfold transpose, column. cbn [seq map]. rewrite !map_map. cbn [nth].
  rewrite (nth_map_lt fst (0, 0)), (nth_map_lt snd (0, 0)),
          (nth_map_lt (fun _ => 1) (0, 0)) by exact Hj.
  reflexivity.
Qed.

Lemma perspective_transformation_rows (M : matrix3) (ps : points) :
  _perspective_transformation M ps false = Returns (map (transformed_row M) ps) [].
Proof.
  unfold _perspective_transformation. rewrite bind_ret. unfold ret. f_equal.
  unfold matmul, rows3. cbn [map]. rewrite !matmul_row. cbn [last].
  rewrite !zip_with_map. unfold transpose. rewrite map_map.
  apply (f_equal (fun l : points => Returns l [])).
  apply (map_seq_ext _ _ (0, 0)). intros j Hj.
  unfold column. cbn [map nth].
  rewrite !(nth_map_lt _ (0, 0)) by exact Hj. reflexivity.
Qed.

Lemma perspective_transformation_inverse_rows (M : matrix3) (ps : points) :
  ~ det3 M == 0 ->
  _perspective_transformation M ps true = Returns (map (transformed_row (inverse3 M)) ps) [].
Proof.
  intro H. unfold _perspective_transformation.
  rewrite (linalg_inv_regular M H), bind_Returns.
  change (Returns (inverse3 M) []) with (ret (inverse3 M)).
  assert (E := perspective_transformation_rows (inverse3 M) ps).
  unfold _perspective_transformation in E. rewrite bind_ret in E.
  rewrite E. reflexivity.
Qed.




Lemma homography_inverse_round_trip (M : matrix3) (p : point) :
  ~ det3 M == 0 -> ~ hom_w (inverse3 M) p == 0 ->
  point_eq (transformed_row M (transformed_row (inverse3 M) p)) p.
Proof.
  destruct M as [a b c d e f g h i], p as [x y].
  unfold hom_w, inverse3, transformed_row, point_eq, det3.
  cbn [m00 m01 m02 m10 m11 m12 m20 m21 m22 fst snd dot].
  intros Hd Hw.
  assert (HN : ~ (d * h - e * g) * x + ((b * g - a * h) * y + (a * e - b * d)) == 0).
  { intro E. apply Hw.
    setoid_replace
      ((d * h - e * g) /
         (a * (e * i - f * h) - b * (d * i - f * g) + c * (d * h - e * g)) * x +
       (b * g - a * h) /
         (a * (e * i - f * h) - b * (d * i - f * g) + c * (d * h - e * g)) * y +
       (a * e - b * d) /
         (a * (e * i - f * h) - b * (d * i - f * g) + c * (d * h - e * g)))
      with
      (((d * h - e * g) * x + ((b * g - a * h) * y + (a * e - b * d))) /
       (a * (e * i - f * h) - b * (d * i - f * g) + c * (d * h - e * g)))
      by (field; exact Hd).
    rewrite E. field. exact Hd. }
  assert (HD : ~ g * ((e * i - f * h) * x + ((c * h - b * i) * y + (b * f - c * e))) +
                 (h * ((f * g - d * i) * x + ((a * i - c * g) * y + (c * d - a * f))) +
                  i * ((d * h - e * g) * x + ((b * g - a * h) * y + (a * e - b * d))))
                 == 0).
  { intro E. apply Hd. rewrite <- E. ring. }
  split; field; repeat split; assumption.
Qed.

Lemma points_eq_refl (ps : points) : points_eq ps ps.
Proof. induction ps; constructor; [split; reflexivity | assumption]. Qed.

Lemma points_eq_trans (ps qs rs : points) :
  points_eq ps qs -> points_eq qs rs -> points_eq ps rs.
Proof.
  intro H. revert rs. induction H as [|p q ps qs [Hx Hy] _ IH]; intros rs H'.
  - exact H'.
  - inversion H' as [|? r ? rs' [Hx' Hy'] H'']; subst. constructor.
    + split; [rewrite Hx; exact Hx' | rewrite Hy; exact Hy'].
    + apply IH. exact H''.
Qed.

(** ** Rectangle against quadrilateral: frame transforms *)



(** ** The round trip [g.condition_on(other).relative_to(other)] *)

Lemma Qeq_bool_refl' (a b : Q) : a == b -> Qeq_bool a b = true.
Proof. apply Qeq_bool_iff. Qed.

Lemma round_trip_Rectangle_translation
    (gpt : points -> points -> outcome matrix3) (r : Rectangle) (other : coord) :
  translates other = true ->
  exists r',
    round_trip gpt (CRectangle r) (VCoord other) = Returns (CRectangle r') [] /\
    coord_eq (CRectangle r') (CRectangle r) = Returns true [].
Proof.
  destruct other as [o|o|o]; [| |discriminate]; intros _.
  - unfold round_trip, coord_condition_on, coord_relative_to,
      Rectangle_condition_on, Rectangle_relative_to.
    cbn [support_textblock]. destruct (axis o); cbn;
      (eexists; split; [reflexivity|]); cbn; unfold Rectangle_eq, ret; cbn;
      rewrite !Qeq_bool_refl' by lra; reflexivity.
  - unfold round_trip, coord_condition_on, coord_relative_to,
      Rectangle_condition_on, Rectangle_relative_to.
    cbn. eexists. split; [reflexivity|]. cbn. unfold Rectangle_eq, ret. cbn.
    rewrite !Qeq_bool_refl' by lra. reflexivity.
Qed.

Lemma points_eq_shift_back (ps : points) (dx dy dx' dy' : Q) :
  dx + dx' == 0 -> dy + dy' == 0 ->
  points_eq (map (fun p => point_add p (dx', dy'))
                 (map (fun p => point_add p (dx, dy)) ps)) ps.
Proof.
  intros Hx Hy. induction ps as [|[x y] ps IH]; constructor; [|exact IH].
  unfold point_eq, point_add. cbn. split; lra.
Qed.

Lemma round_trip_Quadrilateral_translation
    (gpt : points -> points -> outcome matrix3) (q : Quadrilateral) (other : coord) :
  translates other = true ->
  exists q',
    round_trip gpt (CQuadrilateral q) (VCoord other) = Returns (CQuadrilateral q') [] /\
    coord_eq (CQuadrilateral q') (CQuadrilateral q) = Returns true [].
Proof.
  destruct other as [o|o|o]; [| |discriminate]; intros _.
  - unfold round_trip, coord_condition_on, coord_relative_to,
      Quadrilateral_condition_on, Quadrilateral_relative_to.
    cbn [support_textblock]. destruct (axis o); cbn;
      (eexists; split; [reflexivity|]);
      cbn [coord_eq Quadrilateral_eq Quadrilateral_points _points];
      apply allclose_points_eq, points_eq_shift_back; lra.
  - unfold round_trip, coord_condition_on, coord_relative_to,
      Quadrilateral_condition_on, Quadrilateral_relative_to.
    cbn. eexists. split; [reflexivity|].
    cbn [coord_eq Quadrilateral_eq Quadrilateral_points _points].
    apply allclose_points_eq, points_eq_shift_back; lra.
Qed.

Lemma round_trip_Interval_same_axis
    (gpt : points -> points -> outcome matrix3) (g o : Interval) :
  start g <= end_ g -> axis o = axis g ->
  exists i',
    round_trip gpt (CInterval g) (VCoord (CInterval o)) = Returns (CInterval i') [] /\
    start i' == start g /\ end_ i' == end_ g /\ axis i' = axis g /\
    canvas_height i' = 0 /\ canvas_width i' = 0 /\
    (coord_eq (CInterval i') (CInterval g) = Returns true [] <->
     canvas_height g == 0 /\ canvas_width g == 0).
Proof.
  intros Hg Ha. unfold round_trip, coord_condition_on.
  rewrite (Interval_condition_on_same_axis gpt g o Hg Ha).
  rewrite bind_Returns. unfold coord_relative_to.
  assert (Hg' : start (mkInterval (start g + start o) (end_ g + start o) (axis g) 0 0)
                <= end_ (mkInterval (start g + start o) (end_ g + start o) (axis g) 0 0))
    by (cbn; lra).
  rewrite (Interval_relative_to_same_axis gpt _ o Hg' Ha).
  cbn [app start end_ axis]. eexists. split; [reflexivity|].
  cbn [start end_ axis canvas_height canvas_width].
  split; [lra|]. split; [lra|]. do 3 (split; [reflexivity|]).
  cbn. unfold Interval_eq, ret. cbn.
  rewrite (Qeq_bool_refl' (start g + start o - start o) (start g)) by lra.
  rewrite (Qeq_bool_refl' (end_ g + start o - start o) (end_ g)) by lra.
  assert (Hax : axis_eqb (axis g) (axis g) = true) by (apply axis_eqb_eq; reflexivity).
  rewrite Hax. cbn [andb].
  split.
  - intro H. injection H as H. apply andb_true_iff in H.
    rewrite !Qeq_bool_iff in H. destruct H as [H1 H2]. split; symmetry; assumption.
  - intros [H1 H2]. f_equal. apply andb_true_iff. rewrite !Qeq_bool_iff.
    split; symmetry; assumption.
Qed.

Lemma round_trip_Interval_Rectangle
    (gpt : points -> points -> outcome matrix3) (g : Interval) (o : Rectangle) :
  exists r',
    round_trip gpt (CInterval g) (VCoord (CRectangle o)) = Returns (CRectangle r') [] /\
    coord_eq (CRectangle r')
             (CRectangle (Interval_to_rectangle
                            (Interval_set_canvas g (Rectangle_height o) (Rectangle_width o))))
    = Returns true [] /\
    coord_eq (CRectangle r') (CInterval g) = Returns false [].
Proof.
  unfold round_trip, coord_condition_on, coord_relative_to, Interval_condition_on,
    Interval_put_on_canvas, Interval_to_rectangle, Interval_set_canvas,
    Interval_coordinates, Rectangle_condition_on, Rectangle_relative_to.
  cbn [support_textblock coord_height coord_width bind ret app axis start end_
       canvas_height canvas_width].
  destruct (axis g); cbn; (eexists; split; [reflexivity|]);
    (split; [|reflexivity]); cbn; unfold Rectangle_eq, ret; cbn;
    rewrite !Qeq_bool_refl' by lra; reflexivity.
Qed.

Lemma np_min_returns (l : list Q) : l <> [] -> exists v, np_min l = Returns v [].
Proof. destruct l; [congruence|]. intros _. eexists. reflexivity. Qed.

Lemma np_max_returns (l : list Q) : l <> [] -> exists v, np_max l = Returns v [].
Proof. destruct l; [congruence|]. intros _. eexists. reflexivity. Qed.

Lemma Quadrilateral_height_returns (q : Quadrilateral) :
  _points q <> [] -> exists h, Quadrilateral_height q = Returns h [].
Proof.
  intro H. unfold Quadrilateral_height. destruct (_height q); [eexists; reflexivity|].
  assert (Hc : column1 (Quadrilateral_points q) <> [])
    by (unfold column1, Quadrilateral_points; destruct (_points q); [congruence|discriminate]).
  destruct (np_max_returns _ Hc) as (hi & ->), (np_min_returns _ Hc) as (lo & ->).
  eexists. reflexivity.
Qed.

Lemma Quadrilateral_width_returns (q : Quadrilateral) :
  _points q <> [] -> exists w, Quadrilateral_width q = Returns w [].
Proof.
  intro H. unfold Quadrilateral_width. destruct (_width q); [eexists; reflexivity|].
  assert (Hc : column0 (Quadrilateral_points q) <> [])
    by (unfold column0, Quadrilateral_points; destruct (_points q); [congruence|discriminate]).
  destruct (np_max_returns _ Hc) as (hi & ->), (np_min_returns _ Hc) as (lo & ->).
  eexists. reflexivity.
Qed.

Lemma np_min_warnings (l : list Q) (v : Q) (wsv : list warning) :
  np_min l = Returns v wsv -> wsv = [].
Proof. destruct l; [discriminate|]. unfold np_min, ret. congruence. Qed.

Lemma np_max_warnings (l : list Q) (v : Q) (wsv : list warning) :
  np_max l = Returns v wsv -> wsv = [].
Proof. destruct l; [discriminate|]. unfold np_max, ret. congruence. Qed.

Lemma Quadrilateral_height_warnings (q : Quadrilateral) (h : Q) (wsh : list warning) :
  Quadrilateral_height q = Returns h wsh -> wsh = [].
Proof.
  unfold Quadrilateral_height. destruct (_height q); [unfold ret; congruence|].
  destruct (np_max _) as [hi w1|] eqn:E1; [|discriminate].
  destruct (np_min _) as [lo w2|] eqn:E2; [|discriminate].
  apply np_max_warnings in E1. apply np_min_warnings in E2. subst.
  cbn. congruence.
Qed.

Lemma Quadrilateral_width_warnings (q : Quadrilateral) (w : Q) (wsw : list warning) :
  Quadrilateral_width q = Returns w wsw -> wsw = [].
Proof.
  unfold Quadrilateral_width. destruct (_width q); [unfold ret; congruence|].
  destruct (np_max _) as [hi w1|] eqn:E1; [|discriminate].
  destruct (np_min _) as [lo w2|] eqn:E2; [|discriminate].
  apply np_max_warnings in E1. apply np_min_warnings in E2. subst.
  cbn. congruence.
Qed.

Lemma points_eq_inverse_round_trip (M : matrix3) (ps : points) :
  ~ det3 M == 0 ->
  Forall (fun p => ~ hom_w (inverse3 M) p == 0) ps ->
  points_eq (map (transformed_row M) (map (transformed_row (inverse3 M)) ps)) ps.
Proof.
  intros Hd H. induction H as [|p ps Hp _ IH]; constructor; [|exact IH].
  apply homography_inverse_round_trip; assumption.
Qed.

Section OnQuadrilateral.

Variable gpt : points -> points -> outcome matrix3.
Variables (other : Quadrilateral) (M : matrix3) (ws : list warning).
Hypothesis HM : Quadrilateral_perspective_matrix gpt other = Returns M ws.

Lemma Quadrilateral_relative_to_Quadrilateral (q : Quadrilateral) (h w : Q) :
  Quadrilateral_height q = Returns h [] ->
  Quadrilateral_width q = Returns w [] ->
  Quadrilateral_relative_to gpt q (VCoord (CQuadrilateral other)) =
  Returns (CQuadrilateral (mkQuadrilateral (map (transformed_row M) (_points q))
                                           (Some h) (Some w))) ws.
Proof.
  intros Hh Hw. unfold Quadrilateral_relative_to. cbn [support_textblock].
  rewrite HM, bind_Returns, perspective_transformation_rows, Hh, Hw.
  cbn [bind ret app]. rewrite app_nil_r. reflexivity.
Qed.

Lemma Quadrilateral_condition_on_Quadrilateral (q : Quadrilateral) (h w : Q) :
  ~ det3 M == 0 ->
  Quadrilateral_height q = Returns h [] ->
  Quadrilateral_width q = Returns w [] ->
  Quadrilateral_condition_on gpt q (VCoord (CQuadrilateral other)) =
  Returns (CQuadrilateral (mkQuadrilateral (map (transformed_row (inverse3 M)) (_points q))
                                           (Some h) (Some w))) ws.
Proof.
  intros Hd Hh Hw. unfold Quadrilateral_condition_on. cbn [support_textblock].
  rewrite HM, bind_Returns, (perspective_transformation_inverse_rows M _ Hd), Hh, Hw.
  cbn [bind ret app]. rewrite app_nil_r. reflexivity.
Qed.

Lemma round_trip_Quadrilateral_Quadrilateral (g : Quadrilateral) :
  ~ det3 M == 0 ->
  _points g <> [] ->
  Forall (fun p => ~ hom_w (inverse3 M) p == 0) (_points g) ->
  exists q',
    round_trip gpt (CQuadrilateral g) (VCoord (CQuadrilateral other))
      = Returns (CQuadrilateral q') (ws ++ ws) /\
    points_eq (_points q') (_points g) /\
    coord_eq (CQuadrilateral q') (CQuadrilateral g) = Returns true [].
Proof.
  intros Hd Hne Hw.
  destruct (Quadrilateral_height_returns g Hne) as (h & Hh).
  destruct (Quadrilateral_width_returns g Hne) as (w & Hwd).
  unfold round_trip, coord_condition_on.
  rewrite (Quadrilateral_condition_on_Quadrilateral g h w Hd Hh Hwd), bind_Returns.
  unfold coord_relative_to.
  rewrite (Quadrilateral_relative_to_Quadrilateral
             (mkQuadrilateral _ (Some h) (Some w)) h w eq_refl eq_refl).
  eexists. split; [reflexivity|]. cbn [_points].
  assert (P := points_eq_inverse_round_trip M (_points g) Hd Hw).
  split; [exact P|].
  cbn [coord_eq Quadrilateral_eq Quadrilateral_points _points].
  apply allclose_points_eq. exact P.
Qed.

Lemma round_trip_Rectangle_Quadrilateral (g : Rectangle) :
  ~ det3 M == 0 ->
  Forall (fun p => ~ hom_w (inverse3 M) p == 0) (Rectangle_points g) ->
  exists q',
    round_trip gpt (CRectangle g) (VCoord (CQuadrilateral other))
      = Returns (CQuadrilateral q') (ws ++ ws) /\
    points_eq (_points q') (Rectangle_points g) /\
    _height q' = Some (Rectangle_height g) /\
    _width q' = Some (Rectangle_width g) /\
    coord_eq (CQuadrilateral q') (CQuadrilateral (Rectangle_to_quadrilateral g))
      = Returns true [] /\
    coord_eq (CQuadrilateral q') (CRectangle g) = Returns false [].
Proof.
  intros Hd Hw.
  unfold round_trip, coord_condition_on, Rectangle_condition_on.
  cbn [support_textblock].
  rewrite HM, bind_Returns, (perspective_transformation_inverse_rows M _ Hd).
  cbn [bind ret app coord_relative_to]. rewrite app_nil_r.
  rewrite (Quadrilateral_relative_to_Quadrilateral
             (mkQuadrilateral _ (Some (Rectangle_height g)) (Some (Rectangle_width g)))
             _ _ eq_refl eq_refl).
  eexists. split; [reflexivity|]. cbn [_points _height _width].
  assert (P := points_eq_inverse_round_trip M (Rectangle_points g) Hd Hw).
  split; [exact P|]. do 2 (split; [reflexivity|]). split; [|reflexivity].
  cbn [coord_eq Quadrilateral_eq Quadrilateral_points _points Rectangle_to_quadrilateral].
  apply allclose_points_eq. exact P.
Qed.

Lemma perspective_matrix_sizes :
  exists h w,
    Quadrilateral_height other = Returns h [] /\
    Quadrilateral_width other = Returns w [].
Proof.
  assert (H := HM). unfold Quadrilateral_perspective_matrix,
    Quadrilateral_mapped_rectangle_points in H.
  destruct (Quadrilateral_width other) as [w wsw|e] eqn:Ew; [|discriminate H].
  destruct (Quadrilateral_height other) as [h wsh|e] eqn:Eh.
  - exists h, w. split.
    + apply Quadrilateral_height_warnings in Eh. subst wsh. reflexivity.
    + apply Quadrilateral_width_warnings in Ew. subst wsw. reflexivity.
  - cbn in H. discriminate H.
Qed.

Lemma round_trip_Interval_Quadrilateral (g : Interval) :
  ~ det3 M == 0 ->
  exists i',
    Interval_put_on_canvas g (CQuadrilateral other) = Returns i' [] /\
    (Forall (fun p => ~ hom_w (inverse3 M) p == 0) (Interval_points i') ->
     exists q',
       round_trip gpt (CInterval g) (VCoord (CQuadrilateral other))
         = Returns (CQuadrilateral q') (ws ++ ws) /\
       points_eq (_points q') (Interval_points i') /\
       coord_eq (CQuadrilateral q') (CQuadrilateral (Interval_to_quadrilateral i'))
         = Returns true [] /\
       coord_eq (CQuadrilateral q') (CInterval g) = Returns false []).
Proof.
  intro Hd. destruct perspective_matrix_sizes as (h & w & Hh & Hwd).
  exists (Interval_set_canvas g h w). split.
  - unfold Interval_put_on_canvas. cbn [coord_height coord_width].
    rewrite Hh, Hwd. reflexivity.
  - intro Hw.
    destruct (round_trip_Quadrilateral_Quadrilateral
                (Interval_to_quadrilateral (Interval_set_canvas g h w)) Hd)
      as (q' & E & P & Heq).
    + unfold Interval_to_quadrilateral, Interval_points, Interval_coordinates.
      cbn [_points]. destruct (axis (Interval_set_canvas g h w)); discriminate.
    + exact Hw.
    + exists q'. split; [|split; [exact P|split; [exact Heq|reflexivity]]].
      rewrite <- E. unfold round_trip, coord_condition_on, Interval_condition_on.
      cbn [support_textblock]. unfold Interval_put_on_canvas.
      cbn [coord_height coord_width]. rewrite Hh, Hwd. cbn [bind ret app].
      destruct (Quadrilateral_condition_on gpt
                  (Interval_to_quadrilateral (Interval_set_canvas g h w))
                  (VCoord (CQuadrilateral other))) as [c wsc|e]; reflexivity.
Qed.

End OnQuadrilateral.

(** C1, as the code has it (in exact arithmetic).  The round trip
    [g.condition_on(other).relative_to(other)]
    - returns a value equal to [g] when [g] is a rectangle or a quadrilateral
      and [other] an interval or a rectangle (a translation and its inverse);
    - for two intervals on the same axis returns an interval with [g]'s
      start, end and axis whose canvas height and width are 0, so a value
      equal to [g] only if [g]'s canvas sizes are 0; on different axes it
      returns [g];
    - for an interval [g] and a rectangle [other] returns a Rectangle, that of
      [g] put on the canvas of [other], which no interval equals;
    - for a quadrilateral [other] whose perspective matrix [M] is regular,
      and points of [g] whose homogeneous component under the inverse of [M]
      is not 0: returns a value equal to [g] when [g] is a quadrilateral, and
      otherwise a Quadrilateral on the corner points of the rectangle [g], or
      of the interval [g] put on the canvas of [other]. *)
Theorem frame_transform_round_trip (gpt : points -> points -> outcome matrix3) :
  (forall g other : coord,
     is_Interval g = false -> translates other = true ->
     exists g',
       round_trip gpt g (VCoord other) = Returns g' [] /\
       coord_eq g' g = Returns true []) /\
  (forall g o : Interval,
     start g <= end_ g -> axis o = axis g ->
     exists i',
       round_trip gpt (CInterval g) (VCoord (CInterval o)) = Returns (CInterval i') [] /\
       start i' == start g /\ end_ i' == end_ g /\ axis i' = axis g /\
       canvas_height i' = 0 /\ canvas_width i' = 0 /\
       (coord_eq (CInterval i') (CInterval g) = Returns true [] <->
        canvas_height g == 0 /\ canvas_width g == 0)) /\
  (forall g o : Interval,
     axis o <> axis g ->
     round_trip gpt (CInterval g) (VCoord (CInterval o)) = Returns (CInterval g) []) /\
  (forall (g : Interval) (o : Rectangle),
     exists r',
       round_trip gpt (CInterval g) (VCoord (CRectangle o)) = Returns (CRectangle r') [] /\
       coord_eq (CRectangle r')
                (CRectangle (Interval_to_rectangle
                               (Interval_set_canvas g (Rectangle_height o)
                                                      (Rectangle_width o))))
       = Returns true [] /\
       coord_eq (CRectangle r') (CInterval g) = Returns false []) /\
  (forall (other : Quadrilateral) (M : matrix3) (ws : list warning),
     Quadrilateral_perspective_matrix gpt other = Returns M ws ->
     ~ det3 M == 0 ->
     (forall g : Quadrilateral,
        _points g <> [] ->
        Forall (fun p => ~ hom_w (inverse3 M) p == 0) (_points g) ->
        exists q',
          round_trip gpt (CQuadrilateral g) (VCoord (CQuadrilateral other))
            = Returns (CQuadrilateral q') (ws ++ ws) /\
          coord_eq (CQuadrilateral q') (CQuadrilateral g) = Returns true []) /\
     (forall g : Rectangle,
        Forall (fun p => ~ hom_w (inverse3 M) p == 0) (Rectangle_points g) ->
        exists q',
          round_trip gpt (CRectangle g) (VCoord (CQuadrilateral other))
            = Returns (CQuadrilateral q') (ws ++ ws) /\
          coord_eq (CQuadrilateral q') (CQuadrilateral (Rectangle_to_quadrilateral g))
            = Returns true [] /\
          coord_eq (CQuadrilateral q') (CRectangle g) = Returns false []) /\
     (forall g : Interval,
        exists i',
          Interval_put_on_canvas g (CQuadrilateral other) = Returns i' [] /\
          (Forall (fun p => ~ hom_w (inverse3 M) p == 0) (Interval_points i') ->
           exists q',
             round_trip gpt (CInterval g) (VCoord (CQuadrilateral other))
               = Returns (CQuadrilateral q') (ws ++ ws) /\
             coord_eq (CQuadrilateral q') (CQuadrilateral (Interval_to_quadrilateral i'))
               = Returns true [] /\
             coord_eq (CQuadrilateral q') (CInterval g) = Returns false []))).
Proof.
  repeat match goal with |- _ /\ _ => split end.
  - intros [i|r|q] other Hg Ho; [discriminate| |].
    + destruct (round_trip_Rectangle_translation gpt r other Ho) as (r' & E & Heq).
      exists (CRectangle r'). split; assumption.
    + destruct (round_trip_Quadrilateral_translation gpt q other Ho) as (q' & E & Heq).
      exists (CQuadrilateral q'). split; assumption.
  - intros g o Hg Ha. apply round_trip_Interval_same_axis; assumption.
  - intros g o Ha. unfold round_trip, coord_condition_on.
    rewrite (proj1 (Interval_transform_other_axis gpt g o Ha)), bind_Returns.
    unfold coord_relative_to.
    rewrite (proj2 (Interval_transform_other_axis gpt g o Ha)). reflexivity.
  - intros g o. apply round_trip_Interval_Rectangle.
  - intros other M ws HM Hd. split; [|split].
    + intros g Hne Hw.
      destruct (round_trip_Quadrilateral_Quadrilateral gpt other M ws HM g Hd Hne Hw)
        as (q' & E & _ & Heq).
      exists q'. split; assumption.
    + intros g Hw.
      destruct (round_trip_Rectangle_Quadrilateral gpt other M ws HM g Hd Hw)
        as (q' & E & _ & _ & _ & Heq & Hneq).
      exists q'. repeat split; assumption.
    + intros g.
      destruct (round_trip_Interval_Quadrilateral gpt other M ws HM g Hd)
        as (i' & E & Hq).
      exists i'. split; [exact E|]. intro Hw.
      destruct (Hq Hw) as (q' & E' & _ & Heq & Hneq).
      exists q'. repeat split; assumption.
Qed.

Lemma frame_transform_round_trip_witness :
  (exists i',
     round_trip no_cv2 (CInterval (mkInterval 1 2 AxisX 5 7))
                (VCoord (CInterval (mkInterval 3 4 AxisX 0 0))) = Returns (CInterval i') [] /\
     canvas_height i' = 0 /\
     coord_eq (CInterval i') (CInterval (mkInterval 1 2 AxisX 5 7)) <> Returns true []) /\
  (exists q',
     round_trip example_cv2 (CQuadrilateral example_square)
                (VCoord (CQuadrilateral example_quadrilateral))
       = Returns (CQuadrilateral q') [] /\
     coord_eq (CQuadrilateral q') (CQuadrilateral example_square) = Returns true []).
Proof.
  split.
  - destruct (proj1 (proj2 (frame_transform_round_trip no_cv2))
                (mkInterval 1 2 AxisX 5 7) (mkInterval 3 4 AxisX 0 0))
      as (i' & E & _ & _ & _ & Hh & _ & Heq).
    + vm_compute. discriminate.
    + reflexivity.
    + exists i'. split; [exact E|]. split; [exact Hh|].
      intro H. apply Heq in H. destruct H as [H _].
      vm_compute in H. discriminate H.
  - destruct (proj2 (proj2 (proj2 (proj2 (frame_transform_round_trip example_cv2))))
                example_quadrilateral (Matrix3 1 0 (-5) 0 1 (-7) 0 0 1) [] eq_refl)
      as (Hq & _ & _).
    + vm_compute. discriminate.
    + destruct (Hq example_square) as (q' & E & Heq).
      * discriminate.
      * repeat constructor; vm_compute; discriminate.
      * exists q'. split; assumption.
Defined.

(** C1, as stated, fails: an interval with a canvas size, taken through the
    round trip on an interval of the same axis, comes back with canvas
    height and width 0 and so is not equal to the interval one started
    from. *)
Lemma frame_transform_round_trip_stated_fails :
  round_trip no_cv2 (CInterval (mkInterval 1 2 AxisX 5 7))
             (VCoord (CInterval (mkInterval 3 4 AxisX 0 0)))
  = Returns (CInterval (mkInterval 1 2 AxisX 0 0)) [] /\
  coord_eq (CInterval (mkInterval 1 2 AxisX 0 0))
           (CInterval (mkInterval 1 2 AxisX 5 7)) = Returns false [].
Proof. split; vm_compute; reflexivity. Qed.

(** ** The point-in-polygon test *)

Lemma edges_test (v first : point) (l : points) :
  l <> [] ->
  let sh := fun p : point => (fst p - fst v, snd p - snd v) in
  forallb (fun e => Qle_bool 0 (det2 (fst e) (snd e)))
          (combine (map sh l ++ [sh first]) (tl (map sh l ++ [sh first]))) = true
  <-> edges_ok v first l.
Proof.
  intros Hne sh. induction l as [|a l IH]; [congruence|].
  destruct l as [|b l].
  - cbn [map app tl combine forallb fst snd edges_ok hd].
    rewrite andb_true_iff, Qle_bool_iff. unfold sh, det2, turn. cbn [fst snd]. tauto.
  - cbn [map app tl combine forallb fst snd]. cbn [map app tl] in IH.
    rewrite andb_true_iff, Qle_bool_iff, IH by discriminate.
    cbn [edges_ok hd]. unfold sh, det2, turn. cbn [fst snd]. tauto.
Qed.

Lemma vertice_in_polygon_edges (v : point) (ps : points) :
  _vertice_in_polygon v ps = true <-> edges_ok v (hd (0, 0) ps) ps.
Proof.
  unfold _vertice_in_polygon. destruct ps as [|p ps].
  - cbn. tauto.
  - cbn [map firstn hd]. apply (edges_test v p (p :: ps)). discriminate.
Qed.





(** *** Convex polygons, clockwise *)



(** *** A convex combination of the points is on the clockwise side of every edge *)











(** *** A point on the clockwise side of every edge is a convex combination *)














(** *** The test on equal points *)




(** *** Padding a quadrilateral by nothing *)





(** ** The perspective matrix of four points *)

Lemma cast_side0 (int s : bool) (v : Q) :
  cast int (if s then 0 else v) = 0 \/ cast int (if s then 0 else v) = v \/
  cast int (if s then 0 else v) = as_int v.
Proof. destruct int, s; cbn [cast]; auto. Qed.

(** On a quadrilateral of four points the unskewed rectangle is always
    found, its corners drawn from 0 and the width, 0 and the height (cast to
    integers on an axis where the first point is on the low side); the
    perspective matrix is then what OpenCV answers on the two point sets. *)
Lemma Quadrilateral_perspective_matrix_four
    (gpt : points -> points -> outcome matrix3)
    (p0 p1 p2 p3 : point) (h w : option Q) :
  exists (wd ht : Q) (dst : points),
    Quadrilateral_width (mkQuadrilateral [p0; p1; p2; p3] h w) = Returns wd [] /\
    Quadrilateral_height (mkQuadrilateral [p0; p1; p2; p3] h w) = Returns ht [] /\
    Quadrilateral_mapped_rectangle_points (mkQuadrilateral [p0; p1; p2; p3] h w)
      = Returns dst [] /\
    Forall (fun p => (fst p = 0 \/ fst p = wd \/ fst p = as_int wd) /\
                     (snd p = 0 \/ snd p = ht \/ snd p = as_int ht)) dst /\
    Quadrilateral_perspective_matrix gpt (mkQuadrilateral [p0; p1; p2; p3] h w)
      = gpt [p0; p1; p2; p3] dst.
Proof.
  assert (Hne : _points (mkQuadrilateral [p0; p1; p2; p3] h w) <> []) by discriminate.
  destruct (Quadrilateral_width_returns _ Hne) as (wd & Hwd).
  destruct (Quadrilateral_height_returns _ Hne) as (ht & Hht).
  assert (E : exists dst,
              Quadrilateral_mapped_rectangle_points (mkQuadrilateral [p0; p1; p2; p3] h w)
                = Returns dst [] /\
              Forall (fun p => (fst p = 0 \/ fst p = wd \/ fst p = as_int wd) /\
                               (snd p = 0 \/ snd p = ht \/ snd p = as_int ht)) dst).
  { unfold Quadrilateral_mapped_rectangle_points. rewrite Hwd, Hht.
    cbn [bind]. unfold Quadrilateral_map_to_points_ordering, Quadrilateral_points.
    cbn [_points column0 column1 map]. rewrite !vectorize_ranks4.
    destruct (sides4_shape (fst p0) (fst p1) (fst p2) (fst p3))
      as (s0 & s1 & s2 & s3 & ->).
    destruct (sides4_shape (snd p0) (snd p1) (snd p2) (snd p3))
      as (t0 & t1 & t2 & t3 & ->).
    unfold deltas. cbn [map bind ret app combine].
    eexists. split; [reflexivity|].
    repeat (apply Forall_cons; [split; cbn [fst snd]; apply cast_side0|]).
    apply Forall_nil. }
  destruct E as (dst & E & HF).
  exists wd, ht, dst.
  split; [exact Hwd|]. split; [exact Hht|]. split; [exact E|]. split; [exact HF|].
  unfold Quadrilateral_perspective_matrix. rewrite E. unfold Quadrilateral_points.
  cbn [_points bind]. destruct (gpt _ _); reflexivity.
Qed.

(** * More properties *)

(** ** Minimum and maximum of a column *)

Lemma fold_min_spec (l : list Q) (x : Q) :
  let m := fold_left (fun m y => if Qlt_bool y m then y else m) l x in
  In m (x :: l) /\ m <= x /\ Forall (fun y => m <= y) l.
Proof.
  revert x. induction l as [|y l IH]; intro x; cbn [fold_left].
  - split; [left; reflexivity|]. split; [lra | constructor].
  - destruct (Qlt_bool y x) eqn:E.
    + apply Qlt_bool_iff in E. destruct (IH y) as (Hin & Hle & Hall).
      split; [right; exact Hin|]. split; [lra|]. constructor; assumption.
    + assert (~ y < x) by (rewrite <- Qlt_bool_iff; congruence).
      destruct (IH x) as (Hin & Hle & Hall).
      split; [destruct Hin as [Hin|Hin]; [left; exact Hin | right; right; exact Hin]|].
      split; [exact Hle|]. constructor; [lra | exact Hall].
Qed.

Lemma fold_max_spec (l : list Q) (x : Q) :
  let m := fold_left (fun m y => if Qlt_bool m y then y else m) l x in
  In m (x :: l) /\ x <= m /\ Forall (fun y => y <= m) l.
Proof.
  revert x. induction l as [|y l IH]; intro x; cbn [fold_left].
  - split; [left; reflexivity|]. split; [lra | constructor].
  - destruct (Qlt_bool x y) eqn:E.
    + apply Qlt_bool_iff in E. destruct (IH y) as (Hin & Hle & Hall).
      split; [right; exact Hin|]. split; [lra|]. constructor; assumption.
    + assert (~ x < y) by (rewrite <- Qlt_bool_iff; congruence).
      destruct (IH x) as (Hin & Hle & Hall).
      split; [destruct Hin as [Hin|Hin]; [left; exact Hin | right; right; exact Hin]|].
      split; [exact Hle|]. constructor; [lra | exact Hall].
Qed.

Lemma np_min_spec (l : list Q) (m : Q) (ws : list warning) :
  np_min l = Returns m ws -> In m l /\ Forall (fun y => m <= y) l.
Proof.
  destruct l as [|x l]; [discriminate|]. unfold np_min, ret. intro H.
  injection H as <- _. destruct (fold_min_spec l x) as (Hin & Hle & Hall).
  split; [exact Hin | constructor; assumption].
Qed.

Lemma np_max_spec (l : list Q) (m : Q) (ws : list warning) :
  np_max l = Returns m ws -> In m l /\ Forall (fun y => y <= m) l.
Proof.
  destruct l as [|x l]; [discriminate|]. unfold np_max, ret. intro H.
  injection H as <- _. destruct (fold_max_spec l x) as (Hin & Hle & Hall).
  split; [exact Hin | constructor; assumption].
Qed.

Lemma coordinates_returns (ps : points) :
  ps <> [] ->
  exists x1 y1 x2 y2,
    _cvt_points_to_coordinates ps = Returns (x1, y1, x2, y2) [] /\
    np_min (column0 ps) = Returns x1 [] /\ np_min (column1 ps) = Returns y1 [] /\
    np_max (column0 ps) = Returns x2 [] /\ np_max (column1 ps) = Returns y2 [].
Proof.
  intro Hne.
  assert (H0 : column0 ps <> []) by (destruct ps; [congruence | discriminate]).
  assert (H1 : column1 ps <> []) by (destruct ps; [congruence | discriminate]).
  destruct (np_min_returns _ H0) as (x1 & E1), (np_min_returns _ H1) as (y1 & E2),
           (np_max_returns _ H0) as (x2 & E3), (np_max_returns _ H1) as (y2 & E4).
  exists x1, y1, x2, y2. unfold _cvt_points_to_coordinates.
  rewrite E1, E2, E3, E4. repeat split; reflexivity.
Qed.

(** ** The circumscribed rectangle *)

(** X1.  Unless its point array is empty, the [coordinates] of a
    quadrilateral are those of its circumscribed rectangle: each of the four
    numbers is a coordinate of one of the points, and every point lies
    between them.  (On an empty array the minimum raises ValueError.) *)
Theorem Quadrilateral_coordinates_circumscribe (q : Quadrilateral)
    (Hne : _points q <> []) :
  exists x1 y1 x2 y2,
    Quadrilateral_coordinates q = Returns (x1, y1, x2, y2) [] /\
    In x1 (column0 (_points q)) /\ In x2 (column0 (_points q)) /\
    In y1 (column1 (_points q)) /\ In y2 (column1 (_points q)) /\
    Forall (fun p => x1 <= fst p /\ fst p <= x2 /\ y1 <= snd p /\ snd p <= y2)
           (_points q).
Proof.
  destruct (coordinates_returns (_points q) Hne)
    as (x1 & y1 & x2 & y2 & E & E1 & E2 & E3 & E4).
  exists x1, y1, x2, y2. split; [exact E|].
  apply np_min_spec in E1, E2. apply np_max_spec in E3, E4.
  destruct E1 as [I1 F1], E2 as [I2 F2], E3 as [I3 F3], E4 as [I4 F4].
  repeat (split; [assumption|]).
  apply Forall_forall. intros p Hp.
  rewrite Forall_forall in F1, F2, F3, F4.
  assert (Hx : In (fst p) (column0 (_points q))) by (apply in_map; exact Hp).
  assert (Hy : In (snd p) (column1 (_points q))) by (apply in_map; exact Hp).
  repeat split; auto.
Qed.

Lemma Quadrilateral_coordinates_circumscribe_witness :
  exists x1 y1 x2 y2,
    Quadrilateral_coordinates (mkQuadrilateral [(1, 5); (9, 2); (7, 8); (0, 6)] None None)
      = Returns (x1, y1, x2, y2) [] /\
    In x1 [1; 9; 7; 0] /\ In y2 [5; 2; 8; 6].
Proof.
  destruct (Quadrilateral_coordinates_circumscribe
              (mkQuadrilateral [(1, 5); (9, 2); (7, 8); (0, 6)] None None))
    as (x1 & y1 & x2 & y2 & E & I1 & _ & _ & I4 & _).
  - simpl. discriminate.
  - exists x1, y1, x2, y2. repeat split; assumption.
Defined.

(** ** Conversions there and back *)

Lemma Rectangle_round_trip_general (r : Rectangle) :
  exists r',
    Quadrilateral_to_rectangle (Rectangle_to_quadrilateral r) = Returns r' [] /\
    x_1 r' == Qmin (x_1 r) (x_2 r) /\ y_1 r' == Qmin (y_1 r) (y_2 r) /\
    x_2 r' == Qmax (x_1 r) (x_2 r) /\ y_2 r' == Qmax (y_1 r) (y_2 r).
Proof.
  destruct r as [a b c d].
  assert (Hne : Rectangle_points (mkRectangle a b c d) <> []) by discriminate.
  destruct (coordinates_returns _ Hne) as (x1 & y1 & x2 & y2 & E & E1 & E2 & E3 & E4).
  exists (mkRectangle x1 y1 x2 y2).
  unfold Quadrilateral_to_rectangle, Quadrilateral_coordinates, Rectangle_to_quadrilateral,
    Quadrilateral_points.
  cbn [_points]. rewrite E. split; [reflexivity|].
  apply np_min_spec in E1, E2. apply np_max_spec in E3, E4.
  cbn [Rectangle_points Rectangle_coordinates _cvt_coordinates_to_points
       column0 column1 map fst snd x_1 y_1 x_2 y_2] in *.
  destruct E1 as [I1 F1], E2 as [I2 F2], E3 as [I3 F3], E4 as [I4 F4].
  repeat match goal with H : Forall _ (_ :: _) |- _ => inversion H; clear H; subst end.
  cbn [In] in *.
  split; [|split; [|split]].
  - clear I2 I3 I4. destruct (Q.min_spec a c) as [[? Ha]|[? Ha]]; rewrite Ha;
      repeat match goal with H : _ \/ _ |- _ => destruct H; subst end;
      try contradiction; lra.
  - clear I1 I3 I4. destruct (Q.min_spec b d) as [[? Hb]|[? Hb]]; rewrite Hb;
      repeat match goal with H : _ \/ _ |- _ => destruct H; subst end;
      try contradiction; lra.
  - clear I1 I2 I4. destruct (Q.max_spec a c) as [[? Hc]|[? Hc]]; rewrite Hc;
      repeat match goal with H : _ \/ _ |- _ => destruct H; subst end;
      try contradiction; lra.
  - clear I1 I2 I3. destruct (Q.max_spec b d) as [[? Hd]|[? Hd]]; rewrite Hd;
      repeat match goal with H : _ \/ _ |- _ => destruct H; subst end;
      try contradiction; lra.
Qed.

(** X2.  [r.to_quadrilateral().to_rectangle()] is the rectangle on the
    smaller and the larger of the two x and of the two y coordinates of [r]:
    a rectangle equal to [r] when [x_1 <= x_2] and [y_1 <= y_2], and the
    rectangle with the corners put in order otherwise. *)
Theorem Rectangle_to_quadrilateral_to_rectangle (r : Rectangle) :
  exists r',
    Quadrilateral_to_rectangle (Rectangle_to_quadrilateral r) = Returns r' [] /\
    x_1 r' == Qmin (x_1 r) (x_2 r) /\ y_1 r' == Qmin (y_1 r) (y_2 r) /\
    x_2 r' == Qmax (x_1 r) (x_2 r) /\ y_2 r' == Qmax (y_1 r) (y_2 r) /\
    (x_1 r <= x_2 r -> y_1 r <= y_2 r -> Rectangle_eq r' r = true).
Proof.
  destruct (Rectangle_round_trip_general r) as (r' & E & H1 & H2 & H3 & H4).
  exists r'. repeat (split; [assumption|]).
  intros Hx Hy. unfold Rectangle_eq.
  rewrite !andb_true_iff, !Qeq_bool_iff.
  rewrite H1, H2, H3, H4.
  rewrite (Q.min_l _ _ Hx), (Q.min_l _ _ Hy), (Q.max_r _ _ Hx), (Q.max_r _ _ Hy).
  repeat split; reflexivity.
Qed.

Lemma Rectangle_to_quadrilateral_to_rectangle_witness :
  exists r',
    Quadrilateral_to_rectangle (Rectangle_to_quadrilateral (mkRectangle 1 2 5 9))
      = Returns r' [] /\
    Rectangle_eq r' (mkRectangle 1 2 5 9) = true.
Proof.
  destruct (Rectangle_to_quadrilateral_to_rectangle (mkRectangle 1 2 5 9))
    as (r' & E & _ & _ & _ & _ & H).
  exists r'. split; [exact E|]. apply H; vm_compute; discriminate.
Defined.

(** X3.  An interval with [start <= end], made a rectangle and projected
    back on its own axis, is the interval again but for the canvas, whose
    height and width are 0 in the result.  Projected on the other axis it is
    the interval from 0 to the canvas size, and the assertion of the
    constructor fails if that canvas size is negative. *)
Theorem Interval_to_rectangle_to_interval (i : Interval) (Hi : start i <= end_ i) :
  Rectangle_to_interval (Interval_to_rectangle i) (axis i)
    = Returns (mkInterval (start i) (end_ i) (axis i) 0 0) [] /\
  (axis i = AxisX ->
     (0 <= canvas_height i ->
        Rectangle_to_interval (Interval_to_rectangle i) AxisY
          = Returns (mkInterval 0 (canvas_height i) AxisY 0 0) []) /\
     (canvas_height i < 0 ->
        Rectangle_to_interval (Interval_to_rectangle i) AxisY = Raises AssertionError)) /\
  (axis i = AxisY ->
     (0 <= canvas_width i ->
        Rectangle_to_interval (Interval_to_rectangle i) AxisX
          = Returns (mkInterval 0 (canvas_width i) AxisX 0 0) []) /\
     (canvas_width i < 0 ->
        Rectangle_to_interval (Interval_to_rectangle i) AxisX = Raises AssertionError)).
Proof.
  destruct i as [s e a h w]. cbn [start end_ axis canvas_height canvas_width] in *.
  unfold Interval_to_rectangle, Interval_coordinates, Rectangle_to_interval.
  cbn [axis start end_ canvas_height canvas_width].
  split; [|split].
  - destruct a; cbn [x_1 x_2 y_1 y_2]; apply Interval_init_ok; exact Hi.
  - intros ->. cbn [x_1 x_2 y_1 y_2].
    split; intro H; [apply Interval_init_ok | apply Interval_init_fails]; exact H.
  - intros ->. cbn [x_1 x_2 y_1 y_2].
    split; intro H; [apply Interval_init_ok | apply Interval_init_fails]; exact H.
Qed.

Lemma Interval_to_rectangle_to_interval_witness :
  Rectangle_to_interval (Interval_to_rectangle (mkInterval 3 8 AxisX 20 30)) AxisX
    = Returns (mkInterval 3 8 AxisX 0 0) [] /\
  Rectangle_to_interval (Interval_to_rectangle (mkInterval 3 8 AxisX 20 30)) AxisY
    = Returns (mkInterval 0 20 AxisY 0 0) [].
Proof.
  assert (H : start (mkInterval 3 8 AxisX 20 30) <= end_ (mkInterval 3 8 AxisX 20 30))
    by (vm_compute; discriminate).
  destruct (Interval_to_rectangle_to_interval (mkInterval 3 8 AxisX 20 30) H)
    as (E & Hx & _).
  split; [exact E|]. apply (proj1 (Hx eq_refl)). vm_compute. discriminate.
Defined.

(** ** Areas *)

Lemma roll1_snoc (k : list Q) (z : Q) : roll1 (k ++ [z]) = z :: k.
Proof.
  unfold roll1. destruct (k ++ [z]) eqn:E.
  - destruct k; discriminate.
  - rewrite <- E, last_last, removelast_last. reflexivity.
Qed.

Lemma roll1_cases (l : list Q) : l = [] \/ exists k z, l = k ++ [z].
Proof.
  destruct l as [|x l]; [left; reflexivity|]. right.
  destruct (@exists_last _ (x :: l)) as (k & z & E); [discriminate|].
  exists k, z. exact E.
Qed.

Lemma length_roll1 (l : list Q) : List.length (roll1 l) = List.length l.
Proof.
  destruct (roll1_cases l) as [->|(k & z & ->)]; [reflexivity|].
  rewrite roll1_snoc, length_app. cbn. lia.
Qed.

Lemma total_app (l l' : list Q) : total (l ++ l') == total l + total l'.
Proof.
  induction l as [|x l IH]; cbn [app total fold_right].
  - fold (total l'). ring.
  - fold (total (l ++ l')). fold (total l). rewrite IH. ring.
Qed.

Lemma total_roll1 (l : list Q) : total (roll1 l) == total l.
Proof.
  destruct (roll1_cases l) as [->|(k & z & ->)]; [reflexivity|].
  rewrite roll1_snoc, total_app. cbn [total fold_right]. fold (total k). ring.
Qed.

Lemma roll1_map (f : Q -> Q) (l : list Q) : roll1 (map f l) = map f (roll1 l).
Proof.
  destruct (roll1_cases l) as [->|(k & z & ->)]; [reflexivity|].
  rewrite map_app. cbn [map]. rewrite !roll1_snoc. reflexivity.
Qed.

Lemma count_length (l l' : list Q) :
  List.length l = List.length l' -> count l = count l'.
Proof.
  revert l'. induction l as [|x l IH]; intros [|y l'] H; try discriminate.
  - reflexivity.
  - cbn [count]. f_equal. apply IH. cbn in H. lia.
Qed.

Lemma dot_map_add (a b : Q) (xs zs : list Q) :
  List.length xs = List.length zs ->
  dot (map (fun x => x + a) xs) (map (fun z => z + b) zs) ==
  dot xs zs + a * total zs + b * total xs + count xs * (a * b).
Proof.
  revert zs. induction xs as [|x xs IH]; intros [|z zs] H; try discriminate.
  - cbn. ring.
  - cbn [map dot total fold_right count]. fold (total xs). fold (total zs).
    rewrite IH by (cbn in H; lia). ring.
Qed.

Lemma dot_map_mul (a b : Q) (xs zs : list Q) :
  dot (map (fun x => x * a) xs) (map (fun z => z * b) zs) == a * b * dot xs zs.
Proof.
  revert zs. induction xs as [|x xs IH]; intros [|z zs]; cbn [map dot]; try ring.
  rewrite IH. ring.
Qed.

Lemma polygon_area_shift (a b : Q) (xs ys : list Q) :
  List.length xs = List.length ys ->
  _polygon_area (map (fun x => x + a) xs) (map (fun y => y + b) ys)
  == _polygon_area xs ys.
Proof.
  intro H. unfold _polygon_area. rewrite !roll1_map.
  rewrite (dot_map_add a b xs (roll1 ys)) by (rewrite length_roll1; exact H).
  rewrite (dot_map_add b a ys (roll1 xs)) by (rewrite length_roll1; symmetry; exact H).
  rewrite !total_roll1. rewrite (count_length ys xs) by (symmetry; exact H).
  apply Qmult_comp; [reflexivity|]. apply Qabs_wd. ring.
Qed.

Lemma polygon_area_scale (a b : Q) (xs ys : list Q) :
  _polygon_area (map (fun x => x * a) xs) (map (fun y => y * b) ys)
  == Qabs (a * b) * _polygon_area xs ys.
Proof.
  unfold _polygon_area. rewrite !roll1_map.
  rewrite (dot_map_mul a b xs (roll1 ys)), (dot_map_mul b a ys (roll1 xs)).
  setoid_replace (a * b * dot xs (roll1 ys) - b * a * dot ys (roll1 xs))
    with (a * b * (dot xs (roll1 ys) - dot ys (roll1 xs))) by ring.
  rewrite Qabs_Qmult. ring.
Qed.

Lemma column0_map (f : point -> point) (g : Q -> Q) (ps : points) :
  (forall p, fst (f p) = g (fst p)) -> column0 (map f ps) = map g (column0 ps).
Proof.
  intro H. unfold column0. rewrite !map_map. apply map_ext. exact H.
Qed.

Lemma column1_map (f : point -> point) (g : Q -> Q) (ps : points) :
  (forall p, snd (f p) = g (snd p)) -> column1 (map f ps) = map g (column1 ps).
Proof.
  intro H. unfold column1. rewrite !map_map. apply map_ext. exact H.
Qed.

(** X4.  The area of a quadrilateral (Shoelace formula) does not change
    under [shift], by a number or by a 2-vector. *)
Theorem Quadrilateral_area_shift (q : Quadrilateral) (a b : Q) :
  (exists q', Quadrilateral_shift q (Iterable [a; b]) = Returns q' [] /\
              Quadrilateral_area q' == Quadrilateral_area q) /\
  (exists q', Quadrilateral_shift q (Scalar a) = Returns q' [] /\
              Quadrilateral_area q' == Quadrilateral_area q).
Proof.
  assert (H : forall u v,
    Quadrilateral_area (Quadrilateral_set_points q
      (map (fun p => point_add p (u, v)) (Quadrilateral_points q)))
    == Quadrilateral_area q).
  { intros u v. unfold Quadrilateral_area, Quadrilateral_set_points, Quadrilateral_points.
    cbn [_points].
    rewrite (column0_map _ (fun x => x + u)), (column1_map _ (fun y => y + v))
      by reflexivity.
    apply polygon_area_shift. unfold column0, column1. rewrite !length_map. reflexivity. }
  split; eexists; (split; [reflexivity|]); apply H.
Qed.

(** X5.  Scaling by the factors [a], [b] multiplies the area of a rectangle
    by [a * b] and the area of a quadrilateral by [|a * b|].  An interval
    scales along its own axis only, its canvas is kept: scaling by [a]
    multiplies its area by [a]. *)
Theorem area_scale (a b : Q) :
  (forall r : Rectangle,
     exists r', Rectangle_scale r (Iterable [a; b]) = Returns r' [] /\
                Rectangle_area r' == a * b * Rectangle_area r) /\
  (forall q : Quadrilateral,
     exists q', Quadrilateral_scale q (Iterable [a; b]) = Returns q' [] /\
                Quadrilateral_area q' == Qabs (a * b) * Quadrilateral_area q) /\
  (forall i : Interval,
     exists i', Interval_scale i (Scalar a) = Returns i' [] /\
                Interval_area i' == a * Interval_area i).
Proof.
  split; [|split].
  - intro r. eexists. split; [reflexivity|].
    unfold Rectangle_area, Rectangle_width, Rectangle_height. cbn [x_1 y_1 x_2 y_2]. ring.
  - intro q. eexists. split; [reflexivity|].
    unfold Quadrilateral_area, Quadrilateral_set_points, Quadrilateral_points.
    cbn [_points].
    rewrite (column0_map _ (fun x => x * a)), (column1_map _ (fun y => y * b))
      by reflexivity.
    apply polygon_area_scale.
  - intro i. eexists. split; [reflexivity|].
    unfold Interval_area, Interval_height, Interval_width, Interval_set_start_end.
    cbn [axis start end_ canvas_height canvas_width]. destruct (axis i); ring.
Qed.

Lemma polygon_area_rectangle (x1 y1 x2 y2 : Q) :
  _polygon_area [x1; x2; x2; x1] [y1; y1; y2; y2] == Qabs ((x2 - x1) * (y2 - y1)).
Proof.
  unfold _polygon_area, roll1. cbn [last removelast dot].
  setoid_replace (x1 * y2 + (x2 * y1 + (x2 * y1 + (x1 * y2 + 0))) -
                  (y1 * x1 + (y1 * x1 + (y2 * x2 + (y2 * x2 + 0)))))
    with (- (2 # 1) * ((x2 - x1) * (y2 - y1))) by ring.
  rewrite Qabs_Qmult. change (Qabs (- (2 # 1))) with (2 # 1). ring.
Qed.

(** X6.  Conversions and the area: the rectangle of an interval has the
    area of the interval, and the quadrilateral of a rectangle has the
    absolute value of the area of the rectangle (the area itself when
    [x_1 <= x_2] and [y_1 <= y_2]; a rectangle with one pair of corners in
    the wrong order has a negative area, its quadrilateral a positive one). *)
Theorem area_of_conversions :
  (forall i : Interval,
     Rectangle_area (Interval_to_rectangle i) == Interval_area i) /\
  (forall r : Rectangle,
     Quadrilateral_area (Rectangle_to_quadrilateral r) == Qabs (Rectangle_area r)) /\
  (forall r : Rectangle,
     x_1 r <= x_2 r -> y_1 r <= y_2 r ->
     Quadrilateral_area (Rectangle_to_quadrilateral r) == Rectangle_area r).
Proof.
  assert (Hq : forall r : Rectangle,
             Quadrilateral_area (Rectangle_to_quadrilateral r) == Qabs (Rectangle_area r)).
  { intros [x1 y1 x2 y2].
    unfold Quadrilateral_area, Rectangle_to_quadrilateral, Quadrilateral_points,
      Rectangle_points, Rectangle_coordinates, _cvt_coordinates_to_points,
      Rectangle_area, Rectangle_width, Rectangle_height.
    cbn [_points column0 column1 map fst snd x_1 y_1 x_2 y_2].
    apply polygon_area_rectangle. }
  split; [|split].
  - intros [s e a h w].
    unfold Interval_to_rectangle, Interval_coordinates, Rectangle_area, Rectangle_width,
      Rectangle_height, Interval_area, Interval_height, Interval_width.
    cbn [axis start end_ canvas_height canvas_width]. destruct a; cbn [x_1 y_1 x_2 y_2]; ring.
  - exact Hq.
  - intros r Hx Hy. rewrite Hq. apply Qabs_pos.
    unfold Rectangle_area, Rectangle_width, Rectangle_height.
    apply Qmult_le_0_compat; lra.
Qed.

Lemma area_of_conversions_witness :
  Quadrilateral_area (Rectangle_to_quadrilateral (mkRectangle 0 0 100 50)) == 5000.
Proof.
  rewrite (proj2 (proj2 area_of_conversions) (mkRectangle 0 0 100 50))
    by (vm_compute; discriminate).
  vm_compute. reflexivity.
Defined.

(** ** Shifts and scalings in a row *)

Lemma points_eq_map2 (f g : point -> point) (ps : points) :
  (forall p, point_eq (f p) (g p)) -> points_eq (map f ps) (map g ps).
Proof.
  intro H. induction ps as [|p ps IH]; constructor; [apply H | exact IH].
Qed.

(** X7.  In exact arithmetic, shifts add up: shifting by [(a, b)] and
    then by [(c, d)] gives an element equal to the one shifted by
    [(a + c, b + d)], for a rectangle, a quadrilateral and an interval; so
    the shift by [(-a, -b)] undoes the shift by [(a, b)]. *)
Theorem shift_additive (a b c d : Q) :
  (forall r : Rectangle,
     exists r1 r2,
       (r' <- Rectangle_shift r (Iterable [a; b]) ;; Rectangle_shift r' (Iterable [c; d]))
         = Returns r1 [] /\
       Rectangle_shift r (Iterable [a + c; b + d]) = Returns r2 [] /\
       Rectangle_eq r1 r2 = true /\
       (c == - a -> d == - b -> Rectangle_eq r1 r = true)) /\
  (forall q : Quadrilateral,
     exists q1 q2,
       (q' <- Quadrilateral_shift q (Iterable [a; b]) ;;
        Quadrilateral_shift q' (Iterable [c; d])) = Returns q1 [] /\
       Quadrilateral_shift q (Iterable [a + c; b + d]) = Returns q2 [] /\
       points_eq (_points q1) (_points q2) /\
       _height q1 = _height q2 /\ _width q1 = _width q2 /\
       (c == - a -> d == - b -> points_eq (_points q1) (_points q))) /\
  (forall i : Interval,
     exists i1 i2 ws1 ws2,
       (i' <- Interval_shift i (Iterable [a; b]) ;; Interval_shift i' (Iterable [c; d]))
         = Returns i1 ws1 /\
       Interval_shift i (Iterable [a + c; b + d]) = Returns i2 ws2 /\
       Interval_eq i1 i2 = true /\
       (c == - a -> d == - b -> Interval_eq i1 i = true)).
Proof.
  split; [|split].
  - intro r. do 2 eexists. split; [reflexivity|]. split; [reflexivity|].
    unfold Rectangle_eq. cbn [x_1 y_1 x_2 y_2].
    split; [|intros Hc Hd]; rewrite !andb_true_iff, !Qeq_bool_iff; repeat split; lra.
  - intro q. do 2 eexists. split; [reflexivity|]. split; [reflexivity|].
    unfold Quadrilateral_set_points, Quadrilateral_points. cbn [_points _height _width].
    rewrite map_map. split; [|split; [reflexivity|split; [reflexivity|]]].
    + apply points_eq_map2. intros [x y]. unfold point_eq, point_add. cbn. split; ring.
    + intros Hc Hd. rewrite <- (map_id (_points q)) at 2.
      apply points_eq_map2. intros [x y]. unfold point_eq, point_add. cbn. split; lra.
  - intro i.
    unfold Interval_shift, axis_component, Interval_set_start_end.
    destruct (axis i) eqn:Ea; cbn; rewrite ?Ea; cbn;
      do 4 eexists; (split; [reflexivity|]); (split; [reflexivity|]);
      unfold Interval_eq; cbn; rewrite ?Ea;
      (split; [|intros Hc Hd]); rewrite !andb_true_iff, !Qeq_bool_iff;
      repeat split; try reflexivity; lra.
Qed.

Lemma shift_additive_witness :
  exists r1,
    (r' <- Rectangle_shift (mkRectangle 1 2 3 4) (Iterable [5; 6]) ;;
     Rectangle_shift r' (Iterable [-5; -6])) = Returns r1 [] /\
    Rectangle_eq r1 (mkRectangle 1 2 3 4) = true.
Proof.
  destruct (proj1 (shift_additive 5 6 (-5) (-6)) (mkRectangle 1 2 3 4))
    as (r1 & r2 & E & _ & _ & H).
  exists r1. split; [exact E|]. apply H; reflexivity.
Defined.

(** X8.  In exact arithmetic, scalings multiply: scaling by [(a, b)] and
    then by [(c, d)] gives an element equal to the one scaled by
    [(a * c, b * d)], for a rectangle, a quadrilateral and an interval; so
    for [a], [b] other than 0 the scaling by [(1 / a, 1 / b)] undoes the
    scaling by [(a, b)]. *)
Theorem scale_multiplicative (a b c d : Q) :
  (forall r : Rectangle,
     exists r1 r2,
       (r' <- Rectangle_scale r (Iterable [a; b]) ;; Rectangle_scale r' (Iterable [c; d]))
         = Returns r1 [] /\
       Rectangle_scale r (Iterable [a * c; b * d]) = Returns r2 [] /\
       Rectangle_eq r1 r2 = true /\
       (a * c == 1 -> b * d == 1 -> Rectangle_eq r1 r = true)) /\
  (forall q : Quadrilateral,
     exists q1 q2,
       (q' <- Quadrilateral_scale q (Iterable [a; b]) ;;
        Quadrilateral_scale q' (Iterable [c; d])) = Returns q1 [] /\
       Quadrilateral_scale q (Iterable [a * c; b * d]) = Returns q2 [] /\
       points_eq (_points q1) (_points q2) /\
       _height q1 = _height q2 /\ _width q1 = _width q2 /\
       (a * c == 1 -> b * d == 1 -> points_eq (_points q1) (_points q))) /\
  (forall i : Interval,
     exists i1 i2 ws1 ws2,
       (i' <- Interval_scale i (Iterable [a; b]) ;; Interval_scale i' (Iterable [c; d]))
         = Returns i1 ws1 /\
       Interval_scale i (Iterable [a * c; b * d]) = Returns i2 ws2 /\
       Interval_eq i1 i2 = true /\
       (a * c == 1 -> b * d == 1 -> Interval_eq i1 i = true)).
Proof.
  assert (K : forall x u v, u * v == 1 -> x * u * v == x).
  { intros x u v H. setoid_replace (x * u * v) with (x * (u * v)) by ring.
    rewrite H. ring. }
  split; [|split].
  - intro r. do 2 eexists. split; [reflexivity|]. split; [reflexivity|].
    unfold Rectangle_eq. cbn [x_1 y_1 x_2 y_2].
    split; [|intros Hc Hd]; rewrite !andb_true_iff, !Qeq_bool_iff; repeat split;
      try ring; apply K; assumption.
  - intro q. do 2 eexists. split; [reflexivity|]. split; [reflexivity|].
    unfold Quadrilateral_set_points, Quadrilateral_points. cbn [_points _height _width].
    rewrite map_map. split; [|split; [reflexivity|split; [reflexivity|]]].
    + apply points_eq_map2. intros [x y]. unfold point_eq, point_mul. cbn. split; ring.
    + intros Hc Hd. rewrite <- (map_id (_points q)) at 2.
      apply points_eq_map2. intros [x y]. unfold point_eq, point_mul. cbn.
      split; apply K; assumption.
  - intro i.
    unfold Interval_scale, axis_component, Interval_set_start_end.
    destruct (axis i) eqn:Ea; cbn; rewrite ?Ea; cbn;
      do 4 eexists; (split; [reflexivity|]); (split; [reflexivity|]);
      unfold Interval_eq; cbn; rewrite ?Ea;
      (split; [|intros Hc Hd]); rewrite !andb_true_iff, !Qeq_bool_iff;
      repeat split; try reflexivity; try ring; try (apply K; assumption).
Qed.

Lemma scale_multiplicative_witness :
  exists r1,
    (r' <- Rectangle_scale (mkRectangle 1 2 3 4) (Iterable [2; 4]) ;;
     Rectangle_scale r' (Iterable [1 # 2; 1 # 4])) = Returns r1 [] /\
    Rectangle_eq r1 (mkRectangle 1 2 3 4) = true.
Proof.
  destruct (proj1 (scale_multiplicative 2 4 (1 # 2) (1 # 4)) (mkRectangle 1 2 3 4))
    as (r1 & r2 & E & _ & _ & H).
  exists r1. split; [exact E|]. apply H; reflexivity.
Defined.

(** ** Padding and shifting *)

Lemma Qle_bool_shift (a b s : Q) : Qle_bool (a + s) (b + s) = Qle_bool a b.
Proof.
  destruct (Qle_bool a b) eqn:E.
  - apply Qle_bool_iff in E. apply Qle_bool_iff. lra.
  - apply Qle_bool_false_iff in E. apply Qle_bool_false_iff. lra.
Qed.

Lemma ranks4_shift (a b c d s : Q) :
  ranks [a + s; b + s; c + s; d + s] = ranks [a; b; c; d].
Proof.
  unfold ranks. f_equal. apply argsort4_congr; apply Qle_bool_shift.
Qed.

(** X9.  In exact arithmetic and with [safe_mode=False], [pad] and
    [shift] commute: padding and then shifting gives an element equal to
    shifting and then padding, for an interval, a rectangle and a
    quadrilateral of four points (whose ranks, and so the deltas of its
    points and the dtype they are cast to, do not change under a shift). *)
Theorem pad_shift_commute (k : pad_kwargs) (Hs : safe_mode k = false) (u v : Q) :
  (forall g : Rectangle,
     exists g1 g2,
       (g' <- Rectangle_pad g k ;; Rectangle_shift g' (Iterable [u; v]))
         = Returns g1 [] /\
       (g' <- Rectangle_shift g (Iterable [u; v]) ;; Rectangle_pad g' k)
         = Returns g2 [] /\
       Rectangle_eq g1 g2 = true) /\
  (forall (p0 p1 p2 p3 : point) (h w : option Q),
     exists g1 g2,
       (g' <- Quadrilateral_pad (mkQuadrilateral [p0; p1; p2; p3] h w) k ;;
        Quadrilateral_shift g' (Iterable [u; v])) = Returns g1 [] /\
       (g' <- Quadrilateral_shift (mkQuadrilateral [p0; p1; p2; p3] h w) (Iterable [u; v]) ;;
        Quadrilateral_pad g' k) = Returns g2 [] /\
       points_eq (_points g1) (_points g2) /\
       _height g1 = _height g2 /\ _width g1 = _width g2) /\
  (forall g : Interval,
     exists g1 g2 ws1 ws2,
       (g' <- Interval_pad g k ;; Interval_shift g' (Iterable [u; v]))
         = Returns g1 ws1 /\
       (g' <- Interval_shift g (Iterable [u; v]) ;; Interval_pad g' k)
         = Returns g2 ws2 /\
       Interval_eq g1 g2 = true).
Proof.
  split; [|split].
  - destruct k as [l r t b s fl fr ft fb]. cbn in Hs. subst s.
    intro g. do 2 eexists. split; [reflexivity|]. split; [reflexivity|].
    unfold Rectangle_eq. cbn [x_1 y_1 x_2 y_2 left right top bottom safe_mode].
    rewrite !andb_true_iff, !Qeq_bool_iff. repeat split; ring.
  - intros p0 p1 p2 p3 h w.
    destruct (Quadrilateral_pad_four p0 p1 p2 p3 h w k Hs)
      as (da & db & dc & dd & ea & eb & ec & ed & X & Y & E1).
    rewrite E1.
    unfold Quadrilateral_pad, Quadrilateral_shift, Quadrilateral_map_to_points_ordering,
      Quadrilateral_set_points, Quadrilateral_points.
    cbn [_points _height _width column0 column1 map
         fst snd xy_components List.length Nat.eqb py_assert bind ret app point_add].
    rewrite Hs, !ranks4_shift, X, Y.
    cbn [bind ret app combine zip_with point_add fst snd map _points _height _width].
    do 2 eexists. split; [reflexivity|]. split; [reflexivity|].
    cbn [_points _height _width]. split; [|split; reflexivity].
    unfold points_eq.
    repeat (apply Forall2_cons; [split; unfold point_add; cbn [fst snd]; ring|]).
    apply Forall2_nil.
  - destruct k as [l r t b s fl fr ft fb]. cbn in Hs. subst s.
    intro g.
    unfold Interval_pad, Interval_shift, axis_component, Interval_set_start_end.
    cbn [safe_mode top bottom left right].
    destruct (axis g) eqn:Ea;
      [destruct (truthy t || truthy b) | destruct (truthy l || truthy r)];
      cbn; rewrite ?Ea; cbn; rewrite ?Ea; cbn;
      do 4 eexists; (split; [reflexivity|]); (split; [reflexivity|]);
      unfold Interval_eq; cbn; rewrite ?Ea;
      rewrite !andb_true_iff, !Qeq_bool_iff;
      repeat split; try reflexivity; ring.
Qed.

Lemma pad_shift_commute_witness :
  exists g1 g2,
    (g' <- Quadrilateral_pad
             (mkQuadrilateral [(10, 1); (0, 0); (1, 7); (9, 8)] None None)
             (mkPad (5 # 2) 0 1 1 false) ;;
     Quadrilateral_shift g' (Iterable [3; 4])) = Returns g1 [] /\
    (g' <- Quadrilateral_shift
             (mkQuadrilateral [(10, 1); (0, 0); (1, 7); (9, 8)] None None)
             (Iterable [3; 4]) ;;
     Quadrilateral_pad g' (mkPad (5 # 2) 0 1 1 false)) = Returns g2 [] /\
    points_eq (_points g1) (_points g2).
Proof.
  destruct (proj1 (proj2 (pad_shift_commute (mkPad (5 # 2) 0 1 1 false) eq_refl 3 4))
              (10, 1) (0, 0) (1, 7) (9, 8) None None)
    as (g1 & g2 & E1 & E2 & P & _).
  exists g1, g2. split; [exact E1|]. split; [exact E2|exact P].
Defined.

(** ** Rectangle in rectangle *)

Lemma Rectangle_pad_padded (b : Rectangle) (k : pad_kwargs) :
  Rectangle_pad b k = Returns (padded b k) [].
Proof. reflexivity. Qed.

Lemma Rectangle_is_in_Interval_X (a : Rectangle) (lo hi : Q) (center : bool) :
  exists r,
    Rectangle_is_in_Interval a (mkInterval lo hi AxisX 0 0) pad_defaults center
      = Returns r [] /\
    (r = true <-> span_holds center lo hi (x_1 a) (x_2 a)).
Proof.
  unfold Rectangle_is_in_Interval. rewrite Interval_pad_defaults.
  eexists. split; [reflexivity|].
  unfold Rectangle_in_interval, Interval_set_start_end, Rectangle_center, span_holds.
  cbn [axis start end_ fst snd].
  destruct center; cbn [negb].
  - rewrite chain3_iff, py_max0_le. split; intros; repeat split; lra.
  - rewrite chain4_iff, py_max0_le. split; intros; repeat split; lra.
Qed.

Lemma Rectangle_is_in_Interval_Y (a : Rectangle) (lo hi : Q) (center : bool) :
  exists r,
    Rectangle_is_in_Interval a (mkInterval lo hi AxisY 0 0) pad_defaults center
      = Returns r [] /\
    (r = true <-> span_holds center lo hi (y_1 a) (y_2 a)).
Proof.
  unfold Rectangle_is_in_Interval. rewrite Interval_pad_defaults.
  eexists. split; [reflexivity|].
  unfold Rectangle_in_interval, Interval_set_start_end, Rectangle_center, span_holds.
  cbn [axis start end_ fst snd].
  destruct center; cbn [negb].
  - rewrite chain3_iff, py_max0_le. split; intros; repeat split; lra.
  - rewrite chain4_iff, py_max0_le. split; intros; repeat split; lra.
Qed.

Lemma span_holds_ordered (center : bool) (lo hi s e : Q) :
  span_holds center lo hi s e -> lo <= hi.
Proof. unfold span_holds. destruct center; intros; lra. Qed.

Lemma Rectangle_is_in_Rectangle_raises (a b : Rectangle) (k : pad_kwargs) (center : bool) :
  x_2 (padded b k) < x_1 (padded b k) \/ y_2 (padded b k) < y_1 (padded b k) ->
  Rectangle_is_in a (VCoord (CRectangle b)) k center = Raises AssertionError.
Proof.
  intro H. unfold Rectangle_is_in, other_pad, coord_pad. cbn [support_textblock].
  rewrite Rectangle_pad_padded. cbn [bind ret app]. unfold Rectangle_to_interval.
  destruct (Qlt_le_dec (x_2 (padded b k)) (x_1 (padded b k))) as [Hx|Hx].
  - rewrite (Interval_init_fails _ _ _ _ _ Hx). reflexivity.
  - destruct H as [H|H]; [lra|].
    rewrite (Interval_init_ok _ _ AxisX 0 0 Hx), (Interval_init_fails _ _ _ _ _ H).
    reflexivity.
Qed.

Lemma Rectangle_is_in_Rectangle_returns (a b : Rectangle) (k : pad_kwargs) (center : bool) :
  x_1 (padded b k) <= x_2 (padded b k) -> y_1 (padded b k) <= y_2 (padded b k) ->
  exists r,
    Rectangle_is_in a (VCoord (CRectangle b)) k center = Returns r [] /\
    (r = true <->
     span_holds center (x_1 (padded b k)) (x_2 (padded b k)) (x_1 a) (x_2 a) /\
     span_holds center (y_1 (padded b k)) (y_2 (padded b k)) (y_1 a) (y_2 a)).
Proof.
  intros Hx Hy. unfold Rectangle_is_in, other_pad, coord_pad. cbn [support_textblock].
  rewrite Rectangle_pad_padded. cbn [bind ret app]. unfold Rectangle_to_interval.
  rewrite (Interval_init_ok _ _ AxisX 0 0 Hx), (Interval_init_ok _ _ AxisY 0 0 Hy).
  cbn [bind ret app].
  destruct (Rectangle_is_in_Interval_X a (x_1 (padded b k)) (x_2 (padded b k)) center)
    as (rx & Ex & Hrx).
  destruct (Rectangle_is_in_Interval_Y a (y_1 (padded b k)) (y_2 (padded b k)) center)
    as (ry & Ey & Hry).
  rewrite Ex. cbn [bind app]. destruct rx.
  - rewrite Ey. exists ry. split; [reflexivity|]. tauto.
  - exists false. split; [reflexivity|]. split; [discriminate|].
    intros [H _]. apply Hrx in H. discriminate.
Qed.

Lemma Rectangle_is_in_Rectangle_true (a b : Rectangle) (k : pad_kwargs) (center : bool) :
  returned (Rectangle_is_in a (VCoord (CRectangle b)) k center) = Some true <->
  span_holds center (x_1 (padded b k)) (x_2 (padded b k)) (x_1 a) (x_2 a) /\
  span_holds center (y_1 (padded b k)) (y_2 (padded b k)) (y_1 a) (y_2 a).
Proof.
  destruct (Qlt_le_dec (x_2 (padded b k)) (x_1 (padded b k))) as [Hx|Hx].
  { rewrite Rectangle_is_in_Rectangle_raises by (left; exact Hx).
    split; [discriminate|]. intros [H _]. apply span_holds_ordered in H. lra. }
  destruct (Qlt_le_dec (y_2 (padded b k)) (y_1 (padded b k))) as [Hy|Hy].
  { rewrite Rectangle_is_in_Rectangle_raises by (right; exact Hy).
    split; [discriminate|]. intros [_ H]. apply span_holds_ordered in H. lra. }
  destruct (Rectangle_is_in_Rectangle_returns a b k center Hx Hy) as (r & E & Hr).
  rewrite E. cbn [returned]. rewrite <- Hr. split; congruence.
Qed.

(** X10.  [a.is_in(b, soft_margin, center)] for two rectangles.  Let [b']
    be [b] padded by the soft margin.  The answer is True iff on each axis
    the span of [b'], its lower end raised to 0 if negative, holds the span
    of [a] (or, with [center=True], the midpoint of [a]).  When [b'] has
    [x_2 < x_1] or [y_2 < y_1] the call does not answer: building the
    interval of [b'] on that axis fails with an AssertionError. *)
Theorem Rectangle_is_in_Rectangle (a b : Rectangle) (k : pad_kwargs) (center : bool) :
  (returned (Rectangle_is_in a (VCoord (CRectangle b)) k center) = Some true <->
   span_holds center (x_1 (padded b k)) (x_2 (padded b k)) (x_1 a) (x_2 a) /\
   span_holds center (y_1 (padded b k)) (y_2 (padded b k)) (y_1 a) (y_2 a)) /\
  (x_1 (padded b k) <= x_2 (padded b k) -> y_1 (padded b k) <= y_2 (padded b k) ->
   exists r, Rectangle_is_in a (VCoord (CRectangle b)) k center = Returns r []) /\
  (x_2 (padded b k) < x_1 (padded b k) \/ y_2 (padded b k) < y_1 (padded b k) ->
   Rectangle_is_in a (VCoord (CRectangle b)) k center = Raises AssertionError).
Proof.
  split; [apply Rectangle_is_in_Rectangle_true|]. split.
  - intros Hx Hy.
    destruct (Rectangle_is_in_Rectangle_returns a b k center Hx Hy) as (r & E & _).
    exists r. exact E.
  - apply Rectangle_is_in_Rectangle_raises.
Qed.

Lemma Rectangle_is_in_Rectangle_witness :
  returned (Rectangle_is_in (mkRectangle 10 10 20 20)
              (VCoord (CRectangle (mkRectangle 0 0 30 30))) pad_defaults false)
    = Some true /\
  returned (Rectangle_is_in (mkRectangle 10 10 20 20)
              (VCoord (CRectangle (mkRectangle 0 0 5 5))) (mkPad 0 50 0 0 true) false)
    <> Some true /\
  Rectangle_is_in (mkRectangle 10 10 20 20)
    (VCoord (CRectangle (mkRectangle (-9) 0 (-3) 5))) pad_defaults false
    = Raises AssertionError.
Proof.
  split; [|split].
  - apply (proj1 (Rectangle_is_in_Rectangle (mkRectangle 10 10 20 20)
                    (mkRectangle 0 0 30 30) pad_defaults false)).
    split; repeat split; vm_compute; discriminate.
  - intro H.
    apply (proj1 (Rectangle_is_in_Rectangle (mkRectangle 10 10 20 20)
                    (mkRectangle 0 0 5 5) (mkPad 0 50 0 0 true) false)) in H.
    destruct H as (_ & _ & _ & _ & H). vm_compute in H. apply H. reflexivity.
  - apply (proj2 (proj2 (Rectangle_is_in_Rectangle (mkRectangle 10 10 20 20)
                           (mkRectangle (-9) 0 (-3) 5) pad_defaults false))).
    left. vm_compute. reflexivity.
Defined.

Lemma py_max0_mono (u v : Q) : u <= v -> py_max0 u <= py_max0 v.
Proof.
  intro H. apply py_max0_le. split.
  - assert (K := proj1 (py_max0_le v (py_max0 v)) (Qle_refl _)). lra.
  - assert (K := proj1 (py_max0_le v (py_max0 v)) (Qle_refl _)). lra.
Qed.

Lemma py_max0_ge (v : Q) : 0 <= py_max0 v /\ v <= py_max0 v.
Proof. apply (proj1 (py_max0_le v (py_max0 v))). apply Qle_refl. Qed.

Lemma py_max0_nonneg (v : Q) : 0 <= v -> py_max0 v == v.
Proof.
  intro H. rewrite py_max0_Qmax. apply Q.max_r. exact H.
Qed.

(** X11.  With no soft margin and [center=False], [is_in] on rectangles is
    transitive: if [a.is_in(b)] and [b.is_in(c)] are True, so is
    [a.is_in(c)]. *)
Theorem Rectangle_is_in_transitive (a b c : Rectangle)
    (Hab : returned (Rectangle_is_in a (VCoord (CRectangle b)) pad_defaults false)
           = Some true)
    (Hbc : returned (Rectangle_is_in b (VCoord (CRectangle c)) pad_defaults false)
           = Some true) :
  returned (Rectangle_is_in a (VCoord (CRectangle c)) pad_defaults false) = Some true.
Proof.
  apply Rectangle_is_in_Rectangle_true in Hab, Hbc.
  apply Rectangle_is_in_Rectangle_true.
  unfold span_holds, padded, pad_defaults in *.
  cbn [x_1 y_1 x_2 y_2 left right top bottom safe_mode] in *.
  destruct Hab as [(A1 & A2 & A3 & A4) (A5 & A6 & A7 & A8)].
  destruct Hbc as [(B1 & B2 & B3 & B4) (B5 & B6 & B7 & B8)].
  assert (Kx := py_max0_nonneg (x_1 b - 0)). assert (Ky := py_max0_nonneg (y_1 b - 0)).
  rewrite Kx in A2 by lra. rewrite Ky in A6 by lra.
  repeat split; lra.
Qed.

Lemma Rectangle_is_in_transitive_witness :
  returned (Rectangle_is_in (mkRectangle 10 10 20 20)
              (VCoord (CRectangle (mkRectangle 0 0 90 90))) pad_defaults false)
  = Some true.
Proof.
  apply (Rectangle_is_in_transitive (mkRectangle 10 10 20 20) (mkRectangle 5 5 30 30)
           (mkRectangle 0 0 90 90)); reflexivity.
Defined.

(** X12.  A larger soft margin never loses an element: if a rectangle [a]
    is in a rectangle [b] with the soft margin [k], it is in [b] with every
    soft margin [k'] that is at least [k] on the four sides (and has the
    same [safe_mode]), in both modes of [center]. *)
Theorem Rectangle_is_in_margin_monotone (a b : Rectangle) (k k' : pad_kwargs)
    (center : bool)
    (Hl : left k <= left k') (Hr : right k <= right k')
    (Ht : top k <= top k') (Hb : bottom k <= bottom k')
    (Hs : safe_mode k' = safe_mode k)
    (Hin : returned (Rectangle_is_in a (VCoord (CRectangle b)) k center) = Some true) :
  returned (Rectangle_is_in a (VCoord (CRectangle b)) k' center) = Some true.
Proof.
  apply Rectangle_is_in_Rectangle_true in Hin. apply Rectangle_is_in_Rectangle_true.
  unfold padded in *. cbn [x_1 y_1 x_2 y_2] in *. rewrite Hs.
  assert (Hx : (if safe_mode k then py_max0 (x_1 b - left k') else x_1 b - left k')
               <= (if safe_mode k then py_max0 (x_1 b - left k) else x_1 b - left k))
    by (destruct (safe_mode k); [apply py_max0_mono|]; lra).
  assert (Hy : (if safe_mode k then py_max0 (y_1 b - top k') else y_1 b - top k')
               <= (if safe_mode k then py_max0 (y_1 b - top k) else y_1 b - top k))
    by (destruct (safe_mode k); [apply py_max0_mono|]; lra).
  revert Hin Hx Hy.
  generalize (if safe_mode k then py_max0 (x_1 b - left k') else x_1 b - left k').
  generalize (if safe_mode k then py_max0 (x_1 b - left k) else x_1 b - left k).
  generalize (if safe_mode k then py_max0 (y_1 b - top k') else y_1 b - top k').
  generalize (if safe_mode k then py_max0 (y_1 b - top k) else y_1 b - top k).
  intros y y' x x' Hin Hx Hy. unfold span_holds in *.
  destruct center; destruct Hin as [H1 H2]; repeat split; lra.
Qed.

Lemma Rectangle_is_in_margin_monotone_witness :
  returned (Rectangle_is_in (mkRectangle 10 10 20 20)
              (VCoord (CRectangle (mkRectangle 12 12 18 18))) (mkPad 5 6 7 8 true) false)
  = Some true.
Proof.
  apply (Rectangle_is_in_margin_monotone (mkRectangle 10 10 20 20)
           (mkRectangle 12 12 18 18) (mkPad 2 2 2 2 true) (mkPad 5 6 7 8 true) false);
    try reflexivity; vm_compute; discriminate.
Defined.

(** ** Full containment and the center *)

Lemma chain4_chain3 (lo s e hi : Q) :
  chain4 lo s e hi = true -> chain3 lo ((s + e) / 2) hi = true.
Proof.
  rewrite chain4_iff, chain3_iff. intros (H1 & H2 & H3). split.
  - apply Qle_shift_div_l; lra.
  - apply Qle_shift_div_r; lra.
Qed.

Lemma turn_midpoint (c c' x y : point) :
  turn ((fst c + fst c') / 2, (snd c + snd c') / 2) x y
  == (turn c x y + turn c' x y) / 2.
Proof. unfold turn. cbn [fst snd]. field. Qed.

Lemma edges_ok_midpoint (c c' first : point) (l : points) :
  edges_ok c first l -> edges_ok c' first l ->
  edges_ok ((fst c + fst c') / 2, (snd c + snd c') / 2) first l.
Proof.
  induction l as [|a l IH]; [trivial|]. cbn [edges_ok].
  intros [H1 H2] [H1' H2']. split; [|apply IH; assumption].
  rewrite turn_midpoint. apply Qle_shift_div_l; lra.
Qed.

Lemma corners_center (r : Rectangle) (ps : points) :
  forallb (fun vertice => _vertice_in_polygon vertice ps) (Rectangle_points r) = true ->
  _vertice_in_polygon (Rectangle_center r) ps = true.
Proof.
  unfold Rectangle_points, Rectangle_coordinates, _cvt_coordinates_to_points,
    Rectangle_center.
  cbn [forallb]. rewrite !andb_true_iff. intros (H1 & _ & H3 & _).
  apply vertice_in_polygon_edges in H1, H3. apply vertice_in_polygon_edges.
  apply (edges_ok_midpoint (x_1 r, y_1 r) (x_2 r, y_2 r)); assumption.
Qed.

Lemma Rectangle_in_interval_center (r : Rectangle) (o : Interval) :
  Rectangle_in_interval r o false = true -> Rectangle_in_interval r o true = true.
Proof.
  unfold Rectangle_in_interval, Rectangle_center. cbn [negb fst snd].
  destruct (axis o); apply chain4_chain3.
Qed.

(** X13.  Full containment implies containment of the center: whenever
    [r.is_in(other, soft_margin)] is True for a rectangle [r], so is
    [r.is_in(other, soft_margin, center=True)], whatever the kind of
    [other] (for a quadrilateral [other] no convexity is needed: the points
    that pass the test form a convex set).  The same holds for an interval
    in place of [r]. *)
Theorem is_in_implies_center_is_in (other : pyvalue) (soft_margin : pad_kwargs) :
  (forall r : Rectangle,
     returned (Rectangle_is_in r other soft_margin false) = Some true ->
     returned (Rectangle_is_in r other soft_margin true) = Some true) /\
  (forall i : Interval,
     returned (Interval_is_in i other soft_margin false) = Some true ->
     returned (Interval_is_in i other soft_margin true) = Some true).
Proof.
  split.
  - intros r. unfold Rectangle_is_in.
    destruct (other_pad other soft_margin) as [[o|o|o] ws|e]; [| | |discriminate].
    + cbn [bind ret app returned negb]. intro H. injection H as H.
      rewrite (Rectangle_in_interval_center r o H). reflexivity.
    + rewrite !bind_Returns.
      destruct (Rectangle_to_interval o AxisX) as [ix wx|e]; [|discriminate].
      rewrite !bind_Returns.
      destruct (Rectangle_to_interval o AxisY) as [iy wy|e]; [|discriminate].
      rewrite !bind_Returns. unfold Rectangle_is_in_Interval.
      destruct (Interval_pad ix pad_defaults) as [ix' wx'|e]; [|discriminate].
      destruct (Interval_pad iy pad_defaults) as [iy' wy'|e].
      * rewrite !bind_Returns. cbn [ret].
        destruct (Rectangle_in_interval r ix' false) eqn:Ex; [|discriminate].
        rewrite (Rectangle_in_interval_center r ix' Ex).
        cbn [bind ret app returned]. intro H. injection H as H.
        rewrite (Rectangle_in_interval_center r iy' H). reflexivity.
      * rewrite !bind_Returns. cbn [ret].
        destruct (Rectangle_in_interval r ix' false); discriminate.
    + cbn [bind ret app returned negb]. intro H. injection H as H.
      rewrite (corners_center r _ H). reflexivity.
  - intros i. unfold Interval_is_in.
    destruct (other_pad other soft_margin) as [[o|o|o] ws|e]; [| | |discriminate].
    + cbn [bind app]. destruct (negb (axis_eqb (axis i) (axis o))); [discriminate|].
      cbn [negb ret returned]. intro H. injection H as H.
      unfold Interval_center. rewrite (chain4_chain3 _ _ _ _ H). reflexivity.
    + cbn [bind app coord_coordinates ret].
      destruct (Rectangle_coordinates o) as [[[x1 y1] x2] y2].
      destruct (axis i); cbn [returned]; intro H; injection H as H;
        unfold Interval_center; rewrite (chain4_chain3 _ _ _ _ H); reflexivity.
    + cbn [bind app coord_coordinates].
      destruct (Quadrilateral_coordinates o) as [[[[x1 y1] x2] y2] wc|e]; [|discriminate].
      cbn [bind app ret].
      destruct (axis i); cbn [returned]; intro H; injection H as H;
        unfold Interval_center; rewrite (chain4_chain3 _ _ _ _ H); reflexivity.
Qed.

Lemma is_in_implies_center_is_in_witness :
  returned (Rectangle_is_in (mkRectangle 2 2 4 4)
              (VCoord (CQuadrilateral example_square)) pad_defaults true) = Some true.
Proof.
  apply (proj1 (is_in_implies_center_is_in (VCoord (CQuadrilateral example_square))
                  pad_defaults)).
  reflexivity.
Defined.

(** ** A quadrilateral and its circumscribed rectangle *)

Lemma to_rectangle_coordinates (q : Quadrilateral) (r : Rectangle) :
  Quadrilateral_to_rectangle q = Returns r [] ->
  Quadrilateral_coordinates q = Returns (x_1 r, y_1 r, x_2 r, y_2 r) [].
Proof.
  unfold Quadrilateral_to_rectangle.
  destruct (Quadrilateral_coordinates q) as [[[[x1 y1] x2] y2] ws|e]; [|discriminate].
  cbn [bind ret]. intro H. injection H as <- Hws.
  rewrite app_nil_r in Hws. subst ws. reflexivity.
Qed.

Lemma Quadrilateral_in_interval_circumscribed (q : Quadrilateral) (r : Rectangle)
    (o : Interval) :
  Quadrilateral_to_rectangle q = Returns r [] ->
  Quadrilateral_in_interval q o false = Returns (Rectangle_in_interval r o false) [].
Proof.
  intro H. apply to_rectangle_coordinates in H.
  unfold Quadrilateral_in_interval, Rectangle_in_interval. cbn [negb].
  rewrite H. cbn [bind ret app]. destruct (axis o); reflexivity.
Qed.

Lemma Quadrilateral_is_in_circumscribed (q : Quadrilateral) (r : Rectangle)
    (other : coord) (k : pad_kwargs) :
  Quadrilateral_to_rectangle q = Returns r [] ->
  translates other = true ->
  Quadrilateral_is_in q (VCoord other) k false = Rectangle_is_in r (VCoord other) k false.
Proof.
  intros H Ho. unfold Quadrilateral_is_in, Rectangle_is_in.
  destruct other as [o|o|o]; [| |discriminate].
  - unfold other_pad. cbn [support_textblock coord_pad].
    destruct (Interval_pad o k) as [o' ws|e]; [|reflexivity].
    cbn [bind ret app]. rewrite (Quadrilateral_in_interval_circumscribed q r o' H).
    reflexivity.
  - unfold other_pad. cbn [support_textblock coord_pad].
    rewrite Rectangle_pad_padded. cbn [bind ret app].
    destruct (Rectangle_to_interval (padded o k) AxisX) as [ix wx|e]; [|reflexivity].
    destruct (Rectangle_to_interval (padded o k) AxisY) as [iy wy|e]; [|reflexivity].
    cbn [bind app]. unfold Quadrilateral_is_in_Interval, Rectangle_is_in_Interval.
    rewrite !Interval_pad_defaults. cbn [bind app].
    rewrite !(Quadrilateral_in_interval_circumscribed q r _ H). reflexivity.
Qed.

(** X14.  With [center=False], whether a quadrilateral is in an interval or
    in a rectangle is decided by its circumscribed rectangle alone:
    [q.is_in(other, soft_margin)] is [q.to_rectangle().is_in(other,
    soft_margin)], answer, warnings and exceptions alike. *)
Theorem Quadrilateral_is_in_by_circumscribed (q : Quadrilateral) (r : Rectangle)
    (other : coord) (soft_margin : pad_kwargs)
    (Hr : Quadrilateral_to_rectangle q = Returns r [])
    (Ho : translates other = true) :
  Quadrilateral_is_in q (VCoord other) soft_margin false =
  Rectangle_is_in r (VCoord other) soft_margin false.
Proof. apply Quadrilateral_is_in_circumscribed; assumption. Qed.

Lemma Quadrilateral_is_in_by_circumscribed_witness :
  Quadrilateral_is_in (mkQuadrilateral [(1, 5); (9, 2); (7, 8); (0, 6)] None None)
    (VCoord (CRectangle (mkRectangle 0 0 10 10))) pad_defaults false =
  Rectangle_is_in (mkRectangle 0 2 9 8)
    (VCoord (CRectangle (mkRectangle 0 0 10 10))) pad_defaults false.
Proof.
  apply (Quadrilateral_is_in_by_circumscribed
           (mkQuadrilateral [(1, 5); (9, 2); (7, 8); (0, 6)] None None)
           (mkRectangle 0 2 9 8)); reflexivity.
Defined.

(** X15.  A quadrilateral none of whose coordinates is negative is in its
    own circumscribed rectangle: [q.is_in(q.to_rectangle())] is True. *)
Theorem Quadrilateral_in_own_rectangle (q : Quadrilateral)
    (Hne : _points q <> [])
    (Hpos : Forall nonnegative (_points q)) :
  exists r,
    Quadrilateral_to_rectangle q = Returns r [] /\
    returned (Quadrilateral_is_in q (VCoord (CRectangle r)) pad_defaults false)
      = Some true.
Proof.
  destruct (coordinates_returns (_points q) Hne)
    as (x1 & y1 & x2 & y2 & E & E1 & E2 & E3 & E4).
  exists (mkRectangle x1 y1 x2 y2).
  assert (Hr : Quadrilateral_to_rectangle q = Returns (mkRectangle x1 y1 x2 y2) []).
  { unfold Quadrilateral_to_rectangle, Quadrilateral_coordinates, Quadrilateral_points.
    rewrite E. reflexivity. }
  split; [exact Hr|].
  rewrite (Quadrilateral_is_in_circumscribed q _ (CRectangle (mkRectangle x1 y1 x2 y2))
             pad_defaults Hr eq_refl).
  apply Rectangle_is_in_Rectangle_true.
  apply np_min_spec in E1, E2. apply np_max_spec in E3, E4.
  destruct E1 as [I1 F1], E2 as [I2 F2], E3 as [I3 F3], E4 as [I4 F4].
  rewrite Forall_forall in F1, F2, F3, F4, Hpos.
  assert (P1 : 0 <= x1).
  { apply in_map_iff in I1. destruct I1 as (p & <- & Hp). apply (Hpos p Hp). }
  assert (P2 : 0 <= y1).
  { apply in_map_iff in I2. destruct I2 as (p & <- & Hp). apply (Hpos p Hp). }
  assert (Hx : x1 <= x2) by (apply F1; exact I3).
  assert (Hy : y1 <= y2) by (apply F2; exact I4).
  unfold span_holds, padded, pad_defaults.
  cbn [x_1 y_1 x_2 y_2 left right top bottom safe_mode].
  assert (Kx := py_max0_nonneg (x1 - 0)). assert (Ky := py_max0_nonneg (y1 - 0)).
  rewrite Kx, Ky by lra. repeat split; lra.
Qed.

Lemma Quadrilateral_in_own_rectangle_witness :
  exists r,
    Quadrilateral_to_rectangle (mkQuadrilateral [(1, 5); (9, 2); (7, 8); (0, 6)] None None)
      = Returns r [] /\
    returned (Quadrilateral_is_in (mkQuadrilateral [(1, 5); (9, 2); (7, 8); (0, 6)] None None)
                (VCoord (CRectangle r)) pad_defaults false) = Some true.
Proof.
  apply (Quadrilateral_in_own_rectangle
           (mkQuadrilateral [(1, 5); (9, 2); (7, 8); (0, 6)] None None)).
  - simpl. discriminate.
  - repeat constructor; vm_compute; discriminate.
Defined.

(** ** The unskewed rectangle of a rectangle *)

Lemma ranks4_nondecreasing (a b c d : Q) :
  a <= b -> b <= c -> c <= d -> ranks [a; b; c; d] = [0; 1; 2; 3]%nat.
Proof.
  intros Hab Hbc Hcd.
  assert (E1 : Qle_bool a b = true) by (apply Qle_bool_iff; lra).
  assert (E2 : Qle_bool a c = true) by (apply Qle_bool_iff; lra).
  assert (E3 : Qle_bool a d = true) by (apply Qle_bool_iff; lra).
  assert (E4 : Qle_bool b c = true) by (apply Qle_bool_iff; lra).
  assert (E5 : Qle_bool b d = true) by (apply Qle_bool_iff; lra).
  assert (E6 : Qle_bool c d = true) by (apply Qle_bool_iff; lra).
  unfold ranks, argsort. cbn.
  do 3 (rewrite ?E1, ?E2, ?E3, ?E4, ?E5, ?E6; cbn). reflexivity.
Qed.

Lemma ranks4_low_high_high_low (a c : Q) :
  a < c -> ranks [a; c; c; a] = [0; 2; 3; 1]%nat.
Proof.
  intro H.
  assert (E1 : Qle_bool a c = true) by (apply Qle_bool_iff; lra).
  assert (E2 : Qle_bool a a = true) by (apply Qle_bool_iff; lra).
  assert (E3 : Qle_bool c c = true) by (apply Qle_bool_iff; lra).
  assert (E4 : Qle_bool c a = false) by (apply Qle_bool_false_iff; lra).
  unfold ranks, argsort. cbn.
  do 3 (rewrite ?E1, ?E2, ?E3, ?E4; cbn). reflexivity.
Qed.

Lemma Rectangle_quadrilateral_size (r : Rectangle) :
  x_1 r <= x_2 r -> y_1 r <= y_2 r ->
  exists wd ht,
    Quadrilateral_width (Rectangle_to_quadrilateral r) = Returns wd [] /\
    Quadrilateral_height (Rectangle_to_quadrilateral r) = Returns ht [] /\
    wd == Rectangle_width r /\ ht == Rectangle_height r.
Proof.
  intros Hx Hy. destruct r as [a b c d]. cbn [x_1 y_1 x_2 y_2] in *.
  assert (Hne : Rectangle_points (mkRectangle a b c d) <> []) by discriminate.
  destruct (coordinates_returns _ Hne) as (x1 & y1 & x2 & y2 & E & E1 & E2 & E3 & E4).
  exists (x2 - x1), (y2 - y1).
  unfold Quadrilateral_width, Quadrilateral_height, Rectangle_to_quadrilateral,
    Quadrilateral_points.
  cbn [_points _width _height]. rewrite E1, E2, E3, E4.
  split; [reflexivity|]. split; [reflexivity|].
  apply np_min_spec in E1, E2. apply np_max_spec in E3, E4.
  cbn [Rectangle_points Rectangle_coordinates _cvt_coordinates_to_points
       column0 column1 map fst snd x_1 y_1 x_2 y_2] in *.
  destruct E1 as [I1 F1], E2 as [I2 F2], E3 as [I3 F3], E4 as [I4 F4].
  repeat match goal with H : Forall _ (_ :: _) |- _ => inversion H; clear H; subst end.
  cbn [In] in *. unfold Rectangle_width, Rectangle_height. cbn [x_1 y_1 x_2 y_2].
  split;
    repeat match goal with H : _ \/ _ |- _ => destruct H; subst end;
    try contradiction; lra.
Qed.

(** X16.  The unskewed rectangle of a rectangle with [x_1 <= x_2] and
    [y_1 <= y_2] has its width and height truncated to whole numbers:
    [r.to_quadrilateral().mapped_rectangle_points] are the points (0, 0),
    (int(width), 0), (int(width), int(height)), (0, int(height)), in the
    order of the corners of [r].  The first corner is the lowest on both
    axes, so [np.vectorize] looks up the int 0 first and casts the column to
    an integer dtype.  The points are (0, 0), (width, 0), (width, height),
    (0, height) when the width and the height are whole. *)
Theorem Rectangle_mapped_rectangle_points (r : Rectangle)
    (Hx : x_1 r <= x_2 r) (Hy : y_1 r <= y_2 r) :
  exists dst,
    Quadrilateral_mapped_rectangle_points (Rectangle_to_quadrilateral r)
      = Returns dst [] /\
    points_eq dst [ (0, 0); (as_int (Rectangle_width r), 0);
                    (as_int (Rectangle_width r), as_int (Rectangle_height r));
                    (0, as_int (Rectangle_height r)) ] /\
    (is_whole (Rectangle_width r) = true -> is_whole (Rectangle_height r) = true ->
     points_eq dst [ (0, 0); (Rectangle_width r, 0);
                     (Rectangle_width r, Rectangle_height r);
                     (0, Rectangle_height r) ]).
Proof.
  destruct (Rectangle_quadrilateral_size r Hx Hy) as (wd & ht & Ew & Eh & Hw & Hh).
  assert (Tr : exists dst,
            Quadrilateral_mapped_rectangle_points (Rectangle_to_quadrilateral r)
              = Returns dst [] /\
            points_eq dst [ (0, 0); (as_int (Rectangle_width r), 0);
                            (as_int (Rectangle_width r), as_int (Rectangle_height r));
                            (0, as_int (Rectangle_height r)) ]).
  { unfold Quadrilateral_mapped_rectangle_points. rewrite Ew, Eh. cbn [bind].
    apply as_int_Qeq in Hw, Hh.
    destruct r as [a b c d]. cbn [x_1 y_1 x_2 y_2] in *.
    unfold Quadrilateral_map_to_points_ordering, Rectangle_to_quadrilateral,
      Quadrilateral_points, Rectangle_points, Rectangle_coordinates,
      _cvt_coordinates_to_points.
    cbn [_points column0 column1 map fst snd x_1 y_1 x_2 y_2].
    rewrite (ranks4_nondecreasing b b d d) by lra.
    unfold Rectangle_width, Rectangle_height in *. cbn [x_1 y_1 x_2 y_2] in *.
    destruct (Qlt_le_dec a c) as [Hlt|Hge].
    - rewrite (ranks4_low_high_high_low a c Hlt). cbn.
      eexists. split; [reflexivity|].
      rewrite Hw, Hh. change (as_int 0) with 0. unfold points_eq.
      repeat (apply Forall2_cons; [split; cbn [fst snd]; reflexivity|]).
      apply Forall2_nil.
    - assert (E0 : as_int (c - a) = 0)
        by (rewrite (as_int_Qeq (c - a) 0) by lra; reflexivity).
      assert (R : ranks [a; c; c; a] = [0; 1; 2; 3]%nat).
      { unfold ranks. rewrite <- (ranks4_nondecreasing a a a a) by lra. unfold ranks.
        f_equal. apply argsort4_congr;
          match goal with
          | |- Qle_bool ?u ?v = Qle_bool ?u' ?v' =>
              transitivity true; [|symmetry]; apply Qle_bool_iff; lra
          end. }
      rewrite R. cbn. eexists. split; [reflexivity|].
      rewrite Hw, Hh, E0. change (as_int 0) with 0. unfold points_eq.
      repeat (apply Forall2_cons; [split; cbn [fst snd]; reflexivity|]).
      apply Forall2_nil. }
  destruct Tr as (dst & E & P). exists dst. split; [exact E|]. split; [exact P|].
  intros Ww Wh. apply is_whole_iff in Ww, Wh.
  apply (points_eq_trans _ _ _ P). unfold points_eq.
  repeat (apply Forall2_cons; [split; cbn [fst snd]; auto; reflexivity|]).
  apply Forall2_nil.
Qed.

Lemma Rectangle_mapped_rectangle_points_witness :
  (exists dst,
     Quadrilateral_mapped_rectangle_points
       (Rectangle_to_quadrilateral (mkRectangle (1 # 2) (1 # 2) 3 (17 # 4)))
       = Returns dst [] /\
     points_eq dst [(0, 0); (2, 0); (2, 3); (0, 3)]) /\
  (exists dst,
     Quadrilateral_mapped_rectangle_points (Rectangle_to_quadrilateral (mkRectangle 5 7 7 10))
       = Returns dst [] /\
     points_eq dst [(0, 0); (7 - 5, 0); (7 - 5, 10 - 7); (0, 10 - 7)]).
Proof.
  split.
  - destruct (Rectangle_mapped_rectangle_points (mkRectangle (1 # 2) (1 # 2) 3 (17 # 4)))
      as (dst & E & P & _); try (vm_compute; discriminate).
    exists dst. split; [exact E|exact P].
  - destruct (Rectangle_mapped_rectangle_points (mkRectangle 5 7 7 10))
      as (dst & E & _ & P); try (vm_compute; discriminate).
    exists dst. split; [exact E|]. apply P; reflexivity.
Defined.

(** ** Layouts *)

Lemma filter_by_loop_members_return (other : pyvalue) (sm : pad_kwargs) (center : bool)
    (eles : list pyvalue) :
  forall acc L' ws,
    filter_by_loop eles acc other sm center = Returns L' ws ->
    forall e, In e eles -> exists b wsb, value_is_in e other sm center = Returns b wsb.
Proof.
  induction eles as [|ele rest IH]; intros acc L' ws H e He; [destruct He|].
  cbn [filter_by_loop] in H.
  destruct (value_is_in ele other sm center) as [b wsb|ex] eqn:E; [|discriminate H].
  destruct He as [<-|He]; [exists b, wsb; exact E|].
  cbn [bind] in H.
  destruct (filter_by_loop rest (if b then acc ++ [ele] else acc) other sm center)
    as [L'' ws''|ex] eqn:E'; [|discriminate H].
  apply (IH _ _ _ E' e He).
Qed.

Lemma filter_all (A : Type) (f : A -> bool) (l : list A) :
  (forall x, In x l -> f x = true) -> filter f l = l.
Proof.
  induction l as [|x l IH]; intro H; [reflexivity|].
  cbn [filter]. rewrite (H x (or_introl eq_refl)). f_equal.
  apply IH. intros y Hy. apply H. right. exact Hy.
Qed.

Lemma mapM_all_true (f : pyvalue -> outcome bool) (l : list pyvalue) :
  (forall e, In e l -> exists ws, f e = Returns true ws) ->
  exists ws, mapM f l = Returns (map (fun _ => true) l) ws.
Proof.
  induction l as [|x l IH]; intro H; [exists []; reflexivity|].
  destruct (H x (or_introl eq_refl)) as (wx & Ex).
  destruct IH as (wl & El); [intros e He; apply H; right; exact He|].
  cbn [mapM map]. rewrite Ex, bind_Returns, El. cbn [bind ret].
  eexists. reflexivity.
Qed.

(** X17.  What [filter_by] returns is a layout of members that pass:
    filtering it again by the same [other] and options returns it
    unchanged, [is_in] on it answers True for every member, and it has at
    most as many members as the layout filtered. *)
Theorem Layout_filter_by_idempotent (L L' : Layout) (other : pyvalue)
    (soft_margin : pad_kwargs) (center : bool) (ws : list warning)
    (H : Layout_filter_by L other soft_margin center = Returns L' ws) :
  (exists ws', Layout_filter_by L' other soft_margin center = Returns L' ws') /\
  (exists ws', Layout_is_in L' other soft_margin center
               = Returns (map (fun _ => true) L') ws') /\
  (List.length L' <= List.length L)%nat.
Proof.
  unfold Layout_filter_by in *.
  assert (Hret := filter_by_loop_members_return other soft_margin center L [] L' ws H).
  destruct (filter_by_loop_spec other soft_margin center L Hret []) as (ws0 & E0).
  rewrite E0 in H. injection H as HL _. cbn [app] in HL. subst L'.
  set (f := fun e => holds (value_is_in e other soft_margin center)).
  assert (Htrue : forall e, In e (filter f L) ->
                    exists wse, value_is_in e other soft_margin center = Returns true wse).
  { intros e He. apply filter_In in He. destruct He as [_ He]. unfold f, holds in He.
    destruct (value_is_in e other soft_margin center) as [[|] wse|]; try discriminate.
    exists wse. reflexivity. }
  split; [|split].
  - destruct (filter_by_loop_spec other soft_margin center (filter f L)) with (acc := @nil pyvalue)
      as (ws1 & E1).
    + intros e He. destruct (Htrue e He) as (wse & Ee). exists true, wse. exact Ee.
    + exists ws1. rewrite E1. cbn [app]. f_equal. apply filter_all.
      intros e He. destruct (Htrue e He) as (wse & Ee). rewrite Ee. reflexivity.
  - apply mapM_all_true. exact Htrue.
  - apply filter_length_le.
Qed.

Lemma Layout_filter_by_idempotent_witness :
  exists ws',
    Layout_filter_by
      [ VCoord (CRectangle (mkRectangle 10 10 20 20));
        VTextBlock (mkTextBlock (CRectangle (mkRectangle 1 2 3 4))
                                EmptyString (Some 7%Z) None None None None) ]
      (VCoord (CRectangle (mkRectangle 0 0 30 30))) pad_defaults false
    = Returns
      [ VCoord (CRectangle (mkRectangle 10 10 20 20));
        VTextBlock (mkTextBlock (CRectangle (mkRectangle 1 2 3 4))
                                EmptyString (Some 7%Z) None None None None) ] ws'.
Proof.
  apply (proj1 (Layout_filter_by_idempotent example_layout _
                  (VCoord (CRectangle (mkRectangle 0 0 30 30))) pad_defaults false []
                  eq_refl)).
Defined.

Lemma get_texts_metadata (L L' : Layout) :
  map metadata L = map metadata L' -> Layout_get_texts L = Layout_get_texts L'.
Proof.
  revert L'. induction L as [|e L IH]; intros [|e' L'] H; try discriminate; [reflexivity|].
  cbn [map] in H. injection H as He Hl. specialize (IH L' Hl).
  destruct e as [c|t|s], e' as [c'|t'|s']; cbn [metadata] in He; try discriminate;
    cbn [Layout_get_texts]; try exact IH.
  injection He as Ht _. rewrite Ht, IH. reflexivity.
Qed.

Lemma mapM_metadata (op : pyvalue -> outcome pyvalue) :
  (forall e e' ws, op e = Returns e' ws -> metadata e' = metadata e) ->
  forall L L' ws, mapM op L = Returns L' ws ->
    List.length L' = List.length L /\ map metadata L' = map metadata L.
Proof.
  intros Hop. induction L as [|e L IH]; intros L' ws H.
  - cbn in H. injection H as <- _. split; reflexivity.
  - cbn [mapM] in H. destruct (op e) as [e' we|ex] eqn:Ee; [|discriminate H].
    rewrite bind_Returns in H.
    destruct (mapM op L) as [L'' wl|ex] eqn:El; [|discriminate H].
    cbn [bind ret] in H. injection H as <- _.
    destruct (IH L'' wl eq_refl) as [Hlen Hmeta].
    cbn [List.length map]. rewrite Hlen, Hmeta, (Hop e e' we Ee). split; reflexivity.
Qed.

Lemma mixin_metadata (t t' : TextBlock) (out : outcome coord) (ws : list warning) :
  mixin_textblock_meta t out = Returns t' ws ->
  metadata (VTextBlock t') = metadata (VTextBlock t).
Proof.
  unfold mixin_textblock_meta. destruct out as [c wc|e]; [|discriminate].
  cbn [bind ret]. intro H. injection H as <- _. reflexivity.
Qed.

Ltac value_op_metadata :=
  let Hv := fresh "Hv" in
  let c := fresh "c" in let t := fresh "t" in let s := fresh "s" in
  let e' := fresh "e'" in let w := fresh "w" in
  intros [c|t|s] e' w Hv;
  cbn [value_shift value_pad value_scale value_condition_on value_relative_to] in Hv;
  [ match type of Hv with
    | bind ?m _ = _ => destruct m; [|discriminate Hv]
    end; cbn [bind ret] in Hv; injection Hv as <- _; reflexivity
  | match type of Hv with
    | bind ?m _ = _ => destruct m eqn:?; [|discriminate Hv]
    end; cbn [bind ret] in Hv; injection Hv as <- _;
    eapply mixin_metadata; eassumption
  | discriminate Hv ].

(** X18.  The operations of a layout keep its members in place and their
    meta data as they are: when [shift], [pad], [scale], [condition_on] or
    [relative_to] of a layout returns, the result has as many members, every
    text block among them with its text, id, type, parent, next and score
    unchanged; so [get_texts] gives the same texts before and after. *)
Theorem Layout_operations_keep_metadata
    (gpt : points -> points -> outcome matrix3) (L L' : Layout) (ws : list warning) :
  (forall d, Layout_shift L d = Returns L' ws ->
     List.length L' = List.length L /\ map metadata L' = map metadata L /\
     Layout_get_texts L' = Layout_get_texts L) /\
  (forall k, Layout_pad L k = Returns L' ws ->
     List.length L' = List.length L /\ map metadata L' = map metadata L /\
     Layout_get_texts L' = Layout_get_texts L) /\
  (forall f, Layout_scale L f = Returns L' ws ->
     List.length L' = List.length L /\ map metadata L' = map metadata L /\
     Layout_get_texts L' = Layout_get_texts L) /\
  (forall other, Layout_condition_on gpt L other = Returns L' ws ->
     List.length L' = List.length L /\ map metadata L' = map metadata L /\
     Layout_get_texts L' = Layout_get_texts L) /\
  (forall other, Layout_relative_to gpt L other = Returns L' ws ->
     List.length L' = List.length L /\ map metadata L' = map metadata L /\
     Layout_get_texts L' = Layout_get_texts L).
Proof.
  assert (K : forall op : pyvalue -> outcome pyvalue,
            (forall e e' ws, op e = Returns e' ws -> metadata e' = metadata e) ->
            mapM op L = Returns L' ws ->
            List.length L' = List.length L /\ map metadata L' = map metadata L /\
            Layout_get_texts L' = Layout_get_texts L).
  { intros op Hop H. destruct (mapM_metadata op Hop L L' ws H) as [H1 H2].
    split; [exact H1|]. split; [exact H2|]. apply get_texts_metadata. exact H2. }
  split; [|split; [|split; [|split]]]; intros x Hx;
    refine (K _ _ Hx); value_op_metadata.
Qed.

Lemma Layout_operations_keep_metadata_witness :
  exists L',
    Layout_shift example_layout (Scalar 3) = Returns L' [] /\
    Layout_get_texts L' = Layout_get_texts example_layout.
Proof.
  eexists. split; [reflexivity|].
  apply (proj1 (Layout_operations_keep_metadata no_cv2 example_layout _ [])
           (Scalar 3)).
  reflexivity.
Defined.

(** ** Cropping *)

Lemma slice_bound_nonneg (n : nat) (i : Z) :
  (0 <= i)%Z -> slice_bound n i = Nat.min (Z.to_nat i) n.
Proof.
  intro H. unfold slice_bound.
  destruct (i <? 0)%Z eqn:E; [apply Z.ltb_lt in E; lia | reflexivity].
Qed.

Lemma py_slice_length {A} (i j : Z) (a : list A) :
  (0 <= i)%Z -> (0 <= j)%Z ->
  List.length (py_slice i j a) =
  (Nat.min (Z.to_nat j) (List.length a) - Nat.min (Z.to_nat i) (List.length a))%nat.
Proof.
  intros Hi Hj. unfold py_slice.
  rewrite !slice_bound_nonneg by assumption.
  rewrite length_firstn, length_skipn. lia.
Qed.

Lemma py_slice_nth {A} (i j : Z) (a : list A) (k : nat) (d : A) :
  (0 <= i)%Z -> (0 <= j)%Z ->
  (k < List.length (py_slice i j a))%nat ->
  nth k (py_slice i j a) d = nth (Z.to_nat i + k) a d.
Proof.
  intros Hi Hj Hk. rewrite py_slice_length in Hk by assumption.
  unfold py_slice. rewrite !slice_bound_nonneg by assumption.
  rewrite nth_firstn.
  assert (E : (k <? Nat.min (Z.to_nat j) (List.length a)
                    - Nat.min (Z.to_nat i) (List.length a))%nat = true)
    by (apply Nat.ltb_lt; exact Hk).
  rewrite E, nth_skipn. f_equal. lia.
Qed.

Lemma In_py_slice {A} (i j : Z) (a : list A) (x : A) :
  In x (py_slice i j a) -> In x a.
Proof.
  unfold py_slice. generalize (slice_bound (List.length a) j - slice_bound (List.length a) i)%nat.
  generalize (slice_bound (List.length a) i). intros lo n Hin.
  assert (H1 : forall (n : nat) (l : list A), In x (firstn n l) -> In x l).
  { clear. induction n as [|n IH]; intros [|y l] H; cbn in *; try tauto.
    destruct H as [H|H]; [left; exact H | right; apply IH; exact H]. }
  assert (H2 : forall (n : nat) (l : list A), In x (skipn n l) -> In x l).
  { clear. induction n as [|n IH]; intros [|y l] H; cbn in *; try tauto.
    right. apply IH. exact H. }
  apply (H2 lo). apply (H1 n). exact Hin.
Qed.

Lemma slice2_shape {A} (r0 r1 c0 c1 : Z) (image : list (list A)) (W : nat) :
  (0 <= r0)%Z -> (0 <= r1)%Z -> (0 <= c0)%Z -> (0 <= c1)%Z ->
  Forall (fun row => List.length row = W) image ->
  List.length (slice2 r0 r1 c0 c1 image) =
    (Nat.min (Z.to_nat r1) (List.length image)
     - Nat.min (Z.to_nat r0) (List.length image))%nat /\
  Forall (fun row => List.length row =
                     (Nat.min (Z.to_nat c1) W - Nat.min (Z.to_nat c0) W)%nat)
         (slice2 r0 r1 c0 c1 image).
Proof.
  intros Hr0 Hr1 Hc0 Hc1 HW. unfold slice2. split.
  - rewrite length_map. apply py_slice_length; assumption.
  - apply Forall_forall. intros row Hrow.
    apply in_map_iff in Hrow. destruct Hrow as (row0 & <- & Hin).
    rewrite py_slice_length by assumption.
    assert (Hin' : In row0 image)
      by (exact (In_py_slice _ _ _ _ Hin)).
    rewrite Forall_forall in HW. rewrite (HW row0 Hin'). reflexivity.
Qed.

Lemma slice2_pixel {A} (r0 r1 c0 c1 : Z) (image : list (list A))
    (i j : nat) (drow : list A) (d : A) :
  (0 <= r0)%Z -> (0 <= r1)%Z -> (0 <= c0)%Z -> (0 <= c1)%Z ->
  (i < List.length (slice2 r0 r1 c0 c1 image))%nat ->
  (j < List.length (nth i (slice2 r0 r1 c0 c1 image) drow))%nat ->
  nth j (nth i (slice2 r0 r1 c0 c1 image) drow) d =
  nth (Z.to_nat c0 + j) (nth (Z.to_nat r0 + i) image drow) d.
Proof.
  intros Hr0 Hr1 Hc0 Hc1 Hi Hj. unfold slice2 in *.
  rewrite length_map in Hi.
  rewrite (nth_indep _ drow (py_slice c0 c1 drow)) in Hj |- *
    by (rewrite length_map; exact Hi).
  rewrite map_nth in Hj |- *.
  rewrite py_slice_nth by assumption.
  rewrite py_slice_nth by assumption. reflexivity.
Qed.

(** X19.  Cropping an image of rows of width [W] by a rectangle none of
    whose (truncated) coordinates is negative: the crop has the rows from
    [int(y_1)] up to, not including, [int(y_2)] and of each the columns from
    [int(x_1)] up to [int(x_2)], both clipped to the image; the pixel at row
    [i] and column [j] of the crop is the pixel at row [int(y_1) + i] and
    column [int(x_1) + j] of the image. *)
Theorem Rectangle_crop_image_shape {A} (r : Rectangle) (image : list (list A)) (W : nat)
    (HW : Forall (fun row => List.length row = W) image)
    (Hx1 : (0 <= py_int (x_1 r))%Z) (Hy1 : (0 <= py_int (y_1 r))%Z)
    (Hx2 : (0 <= py_int (x_2 r))%Z) (Hy2 : (0 <= py_int (y_2 r))%Z) :
  List.length (Rectangle_crop_image r image) =
    (Nat.min (Z.to_nat (py_int (y_2 r))) (List.length image)
     - Nat.min (Z.to_nat (py_int (y_1 r))) (List.length image))%nat /\
  Forall (fun row => List.length row =
                     (Nat.min (Z.to_nat (py_int (x_2 r))) W
                      - Nat.min (Z.to_nat (py_int (x_1 r))) W)%nat)
         (Rectangle_crop_image r image) /\
  (forall (i j : nat) (drow : list A) (d : A),
     (i < List.length (Rectangle_crop_image r image))%nat ->
     (j < List.length (nth i (Rectangle_crop_image r image) drow))%nat ->
     nth j (nth i (Rectangle_crop_image r image) drow) d =
     nth (Z.to_nat (py_int (x_1 r)) + j)
         (nth (Z.to_nat (py_int (y_1 r)) + i) image drow) d).
Proof.
  unfold Rectangle_crop_image, Rectangle_coordinates.
  destruct (slice2_shape (py_int (y_1 r)) (py_int (y_2 r)) (py_int (x_1 r))
              (py_int (x_2 r)) image W Hy1 Hy2 Hx1 Hx2 HW) as [H1 H2].
  split; [exact H1|]. split; [exact H2|].
  intros i j drow d Hi Hj. apply slice2_pixel; assumption.
Qed.

Lemma Rectangle_crop_image_shape_witness :
  List.length (Rectangle_crop_image (mkRectangle 1 0 3 2)
                 [[1; 2; 3; 4]; [5; 6; 7; 8]; [9; 10; 11; 12]]%Z) = 2%nat /\
  nth 0 (nth 1 (Rectangle_crop_image (mkRectangle 1 0 3 2)
                  [[1; 2; 3; 4]; [5; 6; 7; 8]; [9; 10; 11; 12]]%Z) []) 0%Z = 6%Z.
Proof.
  destruct (Rectangle_crop_image_shape (mkRectangle 1 0 3 2)
              [[1; 2; 3; 4]; [5; 6; 7; 8]; [9; 10; 11; 12]]%Z 4)
    as (H1 & _ & H3); try (vm_compute; discriminate).
  - repeat constructor.
  - split; [exact H1|]. rewrite H3; [reflexivity| |]; vm_compute; lia.
Defined.

Lemma py_int_of_nat (n : nat) : py_int (inject_Z (Z.of_nat n)) = Z.of_nat n.
Proof. unfold py_int, inject_Z. cbn [Qnum Qden]. apply Z.quot_1_r. Qed.

(** X20.  Cropping an image (all rows of one width) by an interval takes
    the whole extent of the image on the other axis: an interval on the x
    axis gives every row of the image, cut to the columns
    [int(start):int(end)]; an interval on the y axis gives the rows
    [int(start):int(end)] of the image in their full width.  The canvas the
    interval had before plays no part. *)
Theorem Interval_crop_image_extent {A} (s e h w : Q) (image : list (list A)) (W : nat)
    (HW : Forall (fun row => List.length row = W) image) :
  Interval_crop_image (mkInterval s e AxisX h w) image
    = map (py_slice (py_int s) (py_int e)) image /\
  Interval_crop_image (mkInterval s e AxisY h w) image
    = py_slice (py_int s) (py_int e) image.
Proof.
  unfold Interval_crop_image, Interval_put_on_image, Interval_set_canvas,
    Interval_coordinates, image_height, image_width.
  cbn [axis start end_ canvas_height canvas_width]. split.
  - unfold slice2. rewrite py_int_of_nat. f_equal.
    unfold py_slice, slice_bound. change (py_int 0) with 0%Z. cbn [Z.ltb Z.to_nat].
    destruct (Z.of_nat (List.length image) <? 0)%Z eqn:E; [apply Z.ltb_lt in E; lia|].
    rewrite Nat2Z.id, Nat.min_id. cbn [Nat.min skipn]. rewrite Nat.sub_0_r.
    apply firstn_all.
  - unfold slice2. rewrite py_int_of_nat.
    rewrite <- (map_id (py_slice (py_int s) (py_int e) image)) at 2.
    apply map_ext_in. intros row Hrow.
    assert (Hin : In row image)
      by (exact (In_py_slice _ _ _ _ Hrow)).
    rewrite Forall_forall in HW.
    assert (Hhd : List.length (hd [] image) = W).
    { destruct image as [|r0 im]; [destruct Hin | apply HW; left; reflexivity]. }
    rewrite Hhd. unfold py_slice, slice_bound. change (py_int 0) with 0%Z.
    cbn [Z.ltb Z.to_nat].
    destruct (Z.of_nat W <? 0)%Z eqn:E; [apply Z.ltb_lt in E; lia|].
    rewrite Nat2Z.id, (HW row Hin), Nat.min_id. cbn [Nat.min skipn].
    rewrite Nat.sub_0_r, <- (HW row Hin). apply firstn_all.
Qed.

Lemma Interval_crop_image_extent_witness :
  Interval_crop_image (mkInterval 1 3 AxisX 0 0)
    [[1; 2; 3; 4]; [5; 6; 7; 8]; [9; 10; 11; 12]]%Z
    = [[2; 3]; [6; 7]; [10; 11]]%Z /\
  Interval_crop_image (mkInterval 1 3 AxisY 0 0)
    [[1; 2; 3; 4]; [5; 6; 7; 8]; [9; 10; 11; 12]]%Z
    = [[5; 6; 7; 8]; [9; 10; 11; 12]]%Z.
Proof.
  destruct (Interval_crop_image_extent 1 3 0 0
              [[1; 2; 3; 4]; [5; 6; 7; 8]; [9; 10; 11; 12]]%Z 4) as [H1 H2].
  - repeat constructor.
  - split; [rewrite H1 | rewrite H2]; reflexivity.
Defined.
